(** * Pitch-tracking benchmark: the evaluation scripts, embedded and verified

    A shallow embedding of the Python scripts of the benchmark
    (scripts/view_results.py, scripts/check_dataset.py,
    evaluate/evaluate_basic_pitch.py, evaluate/plot_results.py,
    evaluate/plot_additional_comparisons.py) and of the evaluation engine
    they call, together with the properties the specification states about
    them.

    Conventions.
    - A Python [float] is the rational ([Q]) it holds; the conversion of an
      [int] to a [float] rounds to 53 bits; the not-a-number value is a
      constructor of its own.
    - A script that prints is a function returning the list of what it
      printed (and did), in order.
    - The file system a script looks at is an argument of the script. *)

From Stdlib Require Import List String Ascii Bool Arith ZArith QArith Qabs Qround Lia Lqa Lra.
From Stdlib Require Import DecimalString DecimalPos DecimalN.
From Stdlib Require Import Permutation.
From Stdlib Require Import Reals.
From Equations Require Import Equations.
Import ListNotations.

Local Close Scope R_scope.
Local Close Scope Q_scope.
Local Close Scope Z_scope.
Local Open Scope nat_scope.
Local Open Scope string_scope.

(** ** Python values shared by the scripts *)

(** [str(n)] for a non-negative integer. *)
Definition str_of_N (n : N) : string := NilZero.string_of_uint (N.to_uint n).

Definition str_of_nat (n : nat) : string := str_of_N (N.of_nat n).

(** The number a string of decimal digits writes; [None] for the empty
    string and for a string that holds another character. *)
Definition decimal (s : string) : option N :=
  option_map N.of_uint (NilZero.uint_of_string s).

(** [str.endswith]. *)
Definition endswith (s suffix : string) : bool :=
  let n := String.length s in
  let m := String.length suffix in
  (m <=? n)%nat && String.eqb (substring (n - m) m s) suffix.


(** ** The file system the scripts look at *)

(** What a path names. [Missing] is a path at which [os.stat] finds
    nothing (also a link that dangles or loops); [DirDenied] is a
    directory whose listing raises [PermissionError]; [Other] is what
    exists and is neither a regular file nor a directory (a socket, a
    device); [Unreachable hidden] is a path below a directory that cannot
    be entered: whatever stands there ([hidden]), [os.stat] raises
    [PermissionError] for it. *)
Inductive node : Type :=
| Missing
| File (size : N)
| Dir (entries : list string)
| DirDenied
| Other
| Unreachable (hidden : node).

(** A file system maps a path to what it names. Nothing forces it to be a
    finite tree: a link cycle makes a directory its own descendant. *)
Definition filesystem : Type := string -> node.

(** What stands at a path, whether or not it can be reached. *)
Fixpoint behind (n : node) : node :=
  match n with
  | Unreachable hidden => behind hidden
  | _ => n
  end.

(** How a method of [Path] that calls [os.stat] ends: with its answer, or
    with the [PermissionError] of the call. (The methods below swallow
    the errors of a path that is not there and answer [False].) *)
Inductive os_result (A : Type) : Type :=
| Answer (a : A)
| PermissionError.

Arguments Answer {A} a.
Arguments PermissionError {A}.

(** [Path(p) / name]. *)
Definition joinpath (p name : string) : string := p ++ "/" ++ name.

(** [Path.exists()]. *)
Definition path_exists (fs : filesystem) (p : string) : os_result bool :=
  match fs p with
  | Unreachable _ => PermissionError
  | Missing => Answer false
  | _ => Answer true
  end.

(** [Path.is_dir()] and [Path.is_file()] (both follow links). *)
Definition is_dir (fs : filesystem) (p : string) : os_result bool :=
  match fs p with
  | Unreachable _ => PermissionError
  | Dir _ | DirDenied => Answer true
  | _ => Answer false
  end.

Definition is_file (fs : filesystem) (p : string) : os_result bool :=
  match fs p with
  | Unreachable _ => PermissionError
  | File _ => Answer true
  | _ => Answer false
  end.

(** [Path.iterdir()]: the entry names, or [None] when it raises an
    [OSError] (no such directory, not a directory, permission denied). *)
Definition iterdir (fs : filesystem) (p : string) : option (list string) :=
  match fs p with Dir names => Some names | _ => None end.

(** [list(Path.glob("*" + suffix))]: the entries of the directory whose
    name ends with [suffix]; pathlib's glob swallows the errors of the
    listing, so anything but a readable directory yields the empty list.
    Both scripts that call it have called [exists()] on the path before,
    which has raised where the path is unreachable. *)
Definition glob_suffix (fs : filesystem) (p suffix : string) : list string :=
  match fs p with
  | Dir names => filter (fun n => endswith n suffix) names
  | _ => []
  end.

(** [enumerate(l)]. *)
Fixpoint enumerate_from {A : Type} (i : nat) (l : list A) : list (nat * A) :=
  match l with
  | [] => []
  | x :: l' => (i, x) :: enumerate_from (S i) l'
  end.

Definition enumerate {A : Type} (l : list A) : list (nat * A) := enumerate_from 0 l.

(** [sorted(l, key=key)] for keys compared by [leb]: an insertion sort
    that, like Python's, keeps the order of elements with equal keys. *)
Section Sorted.
Context {A : Type} (leb : A -> A -> bool).

Fixpoint insert_sorted (x : A) (l : list A) : list A :=
  match l with
  | [] => [x]
  | y :: l' => if leb x y then x :: l else y :: insert_sorted x l'
  end.

Definition sorted (l : list A) : list A :=
  fold_right insert_sorted [] l.

End Sorted.

(** [s * n] for a string [s]. *)
Fixpoint str_repeat (s : string) (n : nat) : string :=
  match n with
  | O => EmptyString
  | S n' => s ++ str_repeat s n'
  end.

(** The format specification [:<width]: pad with spaces on the right. *)
Definition ljust (s : string) (width : nat) : string :=
  s ++ str_repeat " " (width - String.length s).

(** [l1] is [l2] with some elements left out, the others in their order. *)
Inductive subsequence {A : Type} : list A -> list A -> Prop :=
| SubNil (l : list A) : subsequence [] l
| SubTake (x : A) (l1 l2 : list A) : subsequence l1 l2 -> subsequence (x :: l1) (x :: l2)
| SubSkip (x : A) (l1 l2 : list A) : subsequence l1 l2 -> subsequence l1 (x :: l2).

(** ** scripts/view_results.py *)

Module ViewResults.

Local Open Scope Q_scope.

(** A non-negative integer rounded to 53 significant bits, ties to the
    even one: integers up to 53 bits stay; above, with [e] bits too many,
    [q] is the leading 53 bits and [r] the rest. *)
Definition round_to_53_bits (m : Z) : Z :=
  let e := (Z.log2 m - 52)%Z in
  if (e <=? 0)%Z then m
  else
    let q := (m / 2 ^ e)%Z in
    let r := (m mod 2 ^ e)%Z in
    let half := (2 ^ (e - 1))%Z in
    if (half <? r)%Z || ((r =? half)%Z && Z.odd q)
    then ((q + 1) * 2 ^ e)%Z
    else (q * 2 ^ e)%Z.

(** [float(n)] for an [int]: the nearest float, or [None] for the
    [OverflowError] of a magnitude that rounds to 2^1024 or more. *)
Definition float_of_int (n : Z) : option Q :=
  let rounded := round_to_53_bits (Z.abs n) in
  if (rounded <? 2 ^ 1024)%Z then Some (inject_Z (Z.sgn n * rounded)) else None.

(** The value of [size_bytes]: the [int] the caller passes, or the
    [float] a division has left (a float is the rational it holds). *)
Inductive number : Type :=
| Int (n : Z)
| Float (x : Q).

Definition value (size : number) : Q :=
  match size with
  | Int n => inject_Z n
  | Float x => x
  end.

(** The conversion to [float] that the division and the format [.2f]
    apply to their operand. *)
Definition to_float (size : number) : option Q :=
  match size with
  | Int n => float_of_int n
  | Float x => Some x
  end.

(** Rounding to the nearest integer, ties to the even one: the rounding of
    Python's [format] on the exact value of the float. *)
Definition round_half_even (q : Q) : Z :=
  let fl := Qfloor q in
  let r := q - inject_Z fl in
  match Qcompare r (1 # 2) with
  | Lt => fl
  | Gt => (fl + 1)%Z
  | Eq => if Z.even fl then fl else (fl + 1)%Z
  end.

Definition two_digits (n : Z) : string :=
  (if (n <? 10)%Z then "0" else "") ++ str_of_N (Z.to_N n).

(** [f"{x:.2f}"]: sign, integer part, a dot and exactly two decimals. *)
Definition fmt2f (x : Q) : string :=
  let r := round_half_even (Qabs x * 100) in
  (if Qlt_le_dec x 0 then "-" else "")
    ++ str_of_N (Z.to_N (r / 100)) ++ "." ++ two_digits (r mod 100).

(** The loop of [format_size] over the units still to try; [size] is the
    current value of [size_bytes]. The comparison with [1024.0] is exact,
    also for an [int]; the division by [1024.0] converts an [int] first,
    and is exact on the floats that reach it (1024 and above). [None] is
    the [OverflowError] of a conversion. *)
Fixpoint format_size_loop (units : list string) (size : number) : option string :=
  match units with
  | [] => option_map (fun x => fmt2f x ++ " PB") (to_float size)
  | unit :: rest =>
      if Qlt_le_dec (value size) 1024
      then option_map (fun x => fmt2f x ++ " " ++ unit) (to_float size)
      else
        match to_float size with
        | Some x => format_size_loop rest (Float (x / 1024))
        | None => None
        end
  end.

(** The value of [size_bytes] after [k] rounds of [size_bytes /= 1024.0]. *)
Fixpoint divide_times (k : nat) (size : Q) : Q :=
  match k with
  | O => size
  | S k' => divide_times k' (size / 1024)
  end.

(** The units, in the order [format_size] tries them. *)
Definition unit_names : list string := ["B"; "KB"; "MB"; "GB"; "TB"; "PB"].

(** [format_size(size_bytes)], on the [int] every caller passes (a sum of
    [st_size]). *)
Definition format_size (size_bytes : Z) : option string :=
  format_size_loop ["B"; "KB"; "MB"; "GB"; "TB"] (Int size_bytes).

Local Close Scope Q_scope.

(** What [print_tree] does, in order: the directories it lists and the lines
    it prints. *)
Inductive event : Type :=
| Iterdir (directory : string)
| Print (line : string).

(** The sort key [(x.is_file(), x.name)] of [print_tree], compared as Python
    compares tuples: directories (and whatever is not a file) first, then by
    name. *)
Definition key_leb (a b : bool * string) : bool :=
  match fst a, fst b with
  | false, true => true
  | true, false => false
  | _, _ => String.leb (snd a) (snd b)
  end.

(** The keys of the entries, in the order [sorted] computes them before
    it compares any: the first [is_file()] that raises ends the sort. *)
Fixpoint entry_keys (fs : filesystem) (directory : string) (names : list string)
    : os_result (list (bool * string)) :=
  match names with
  | [] => Answer []
  | name :: rest =>
      match is_file fs (joinpath directory name) with
      | PermissionError => PermissionError
      | Answer file =>
          match entry_keys fs directory rest with
          | PermissionError => PermissionError
          | Answer keys => Answer ((file, name) :: keys)
          end
      end
  end.

(** [sorted(directory.iterdir(), key=lambda x: (x.is_file(), x.name))] on
    the names [iterdir] yields. *)
Definition sorted_entries (fs : filesystem) (directory : string) (names : list string)
    : os_result (list string) :=
  match entry_keys fs directory names with
  | PermissionError => PermissionError
  | Answer keys => Answer (map snd (sorted key_leb keys))
  end.

(** A [for] loop inside a [try]: each round gives what it does and
    whether it raises; a round that raises is the last. *)
Fixpoint for_until_raise {A : Type} (body : A -> list event * bool) (l : list A)
    : list event :=
  match l with
  | [] => []
  | a :: rest =>
      if snd (body a) then fst (body a)
      else (fst (body a) ++ for_until_raise body rest)%list
  end.

(** [print_tree(directory, prefix, max_depth, current_depth)]. The whole
    body is inside [try ... except (PermissionError, OSError): pass]:
    [iterdir] or an [is_file()] of the sort raising leaves the level with
    nothing printed, an [is_dir()] raising leaves it after the line of its
    entry. *)
Equations? print_tree (fs : filesystem) (directory prefix : string)
    (max_depth current_depth : nat) : list event
    by wf (max_depth - current_depth) lt :=
  print_tree fs directory prefix max_depth current_depth
    with le_lt_dec max_depth current_depth := {
    | left _ := [];
    | right _ :=
        Iterdir directory ::
        match iterdir fs directory with
        | None => []
        | Some names =>
            match sorted_entries fs directory names with
            | PermissionError => []
            | Answer entries =>
                for_until_raise
                  (fun '(i, name) =>
                     let is_last := (i =? List.length entries - 1)%nat in
                     let current_prefix := if is_last then "└── " else "├── " in
                     let line := Print (prefix ++ current_prefix ++ name) in
                     match is_dir fs (joinpath directory name) with
                     | PermissionError => ([line], true)
                     | Answer true =>
                         (line ::
                          print_tree fs (joinpath directory name)
                            (prefix ++ (if is_last then "    " else "│   "))
                            max_depth (S current_depth),
                          false)
                     | Answer false => ([line], false)
                     end)
                  (enumerate entries)
            end
        end }.
Proof. lia. Qed.

(** The lines a trace of [print_tree] prints, in order. *)
Fixpoint printed (trace : list event) : list string :=
  match trace with
  | [] => []
  | Print line :: trace' => line :: printed trace'
  | Iterdir _ :: trace' => printed trace'
  end.

(** The entry names [l] of [directory] are in two runs: first those that
    are not regular files, then the regular files. *)
Definition files_last (fs : filesystem) (directory : string) (l : list string) : Prop :=
  exists others files : list string,
    l = (others ++ files)%list /\
    Forall (fun name => is_file fs (joinpath directory name) = Answer false) others /\
    Forall (fun name => is_file fs (joinpath directory name) = Answer true) files.

(** In a list of sort keys, those with [False] come first. *)
Definition false_first (keys : list (bool * string)) : Prop :=
  exists others files : list (bool * string),
    keys = (others ++ files)%list /\
    Forall (fun key => fst key = false) others /\
    Forall (fun key => fst key = true) files.

End ViewResults.


(** ** scripts/check_dataset.py *)

Module CheckDataset.

(** [check_directory(path, description)]: whether the directory is there,
    and how many entries, WAV files and CSV files it holds; or the
    [PermissionError] of [p.exists()]. The function does not use
    [description]. *)
Definition check_directory (fs : filesystem) (path : string)
    : os_result (bool * nat * nat * nat) :=
  match path_exists fs path with
  | PermissionError => PermissionError
  | Answer false => Answer (false, 0, 0, 0)%nat
  | Answer true =>
      match is_dir fs path with
      | PermissionError => PermissionError
      | Answer false => Answer (false, 0, 0, 0)%nat
      | Answer true =>
          Answer (true,
                  List.length (glob_suffix fs path EmptyString),
                  List.length (glob_suffix fs path ".wav"),
                  List.length (glob_suffix fs path ".csv"))
      end
  end.

(** The state of [main]: the flag [all_ok] and what has been printed. *)
Record state : Type := { all_ok : bool; stdout : list string }.

Definition print (line : string) (st : state) : state :=
  {| all_ok := all_ok st; stdout := (stdout st ++ [line])%list |}.

Definition set_not_ok (st : state) : state :=
  {| all_ok := false; stdout := stdout st |}.

Definition line_present (label : string) (count : nat) (what : string) : string :=
  "✓ " ++ label ++ " 存在 - " ++ str_of_nat count ++ " 个" ++ what.

Definition line_missing (label : string) : string :=
  "✗ " ++ label ++ " 缺失".

(** The list [experiments] of [main]: relative path and description. *)
Definition experiments : list (string * string) :=
  [ ("distortion/audio", "Distortion音频");
    ("noise/5db/audio", "Noise 5dB音频");
    ("noise/15db/audio", "Noise 15dB音频");
    ("pitch_shift/25cents/audio", "Pitch Shift 25cents音频");
    ("pitch_shift/50cents/audio", "Pitch Shift 50cents音频");
    ("pitch", "Ground Truth Pitch") ].

(** The body of the loop over [experiments]: the state after it, or
    nothing when [check_directory] raises. *)
Definition check_experiment (fs : filesystem) (st : state) (e : string * string)
    : os_result state :=
  let '(rel_path, desc) := e in
  let full_path := "MedleyDB-Pitch-Experiments/" ++ rel_path in
  match check_directory fs full_path with
  | PermissionError => PermissionError
  | Answer (ok, total, wav_count, csv_count) =>
      Answer
        (if ok then
           if (0 <? wav_count)%nat
           then print (line_present (ljust rel_path 30) wav_count "WAV文件") st
           else if (0 <? csv_count)%nat
           then print (line_present (ljust rel_path 30) csv_count "CSV文件") st
           else print (line_present (ljust rel_path 30) total "文件") st
         else set_not_ok (print (line_missing (ljust rel_path 30)) st))
  end.

(** How far [main] got: to the end of a part of the script, or to an
    exception that nothing catches, with what had been printed by then. *)
Inductive progress : Type :=
| Done (st : state)
| Crashed (st : state).

(** [for rel_path, desc in experiments: ...]. *)
Fixpoint check_experiments (fs : filesystem) (exps : list (string * string)) (st : state)
    : progress :=
  match exps with
  | [] => Done st
  | e :: rest =>
      match check_experiment fs st e with
      | PermissionError => Crashed st
      | Answer st' => check_experiments fs rest st'
      end
  end.

(** [main()]: what it prints and the exit status of the process:
    [sys.exit(1)] when a directory is missing, 1 as well when an
    exception ends the script (its traceback goes to the standard error),
    0 for a normal return. *)
Definition main (fs : filesystem) : list string * Z :=
  let st := {| all_ok := true; stdout := [] |} in
  let st := print (str_repeat "=" 70) st in
  let st := print "数据集结构检查" st in
  let st := print (str_repeat "=" 70) st in
  let st := print EmptyString st in
  let st := print "【MedleyDB-Pitch】" st in
  let st := print (str_repeat "-" 70) st in
  match check_directory fs "MedleyDB-Pitch/audio" with
  | PermissionError => (stdout st, 1%Z)
  | Answer (audio_ok, audio_total, audio_wav, _) =>
  match check_directory fs "MedleyDB-Pitch/pitch" with
  | PermissionError => (stdout st, 1%Z)
  | Answer (pitch_ok, pitch_total, _, pitch_csv) =>
  let st :=
    if audio_ok then print (line_present "audio/        " audio_wav "WAV文件") st
    else set_not_ok (print (line_missing "audio/        ") st) in
  let st :=
    if pitch_ok then print (line_present "pitch/        " pitch_csv "CSV文件") st
    else set_not_ok (print (line_missing "pitch/        ") st) in
  let st := print EmptyString st in
  let st := print "【MedleyDB-Pitch-Experiments】" st in
  let st := print (str_repeat "-" 70) st in
  match check_experiments fs experiments st with
  | Crashed st => (stdout st, 1%Z)
  | Done st =>
  let st := print EmptyString st in
  let st := print (str_repeat "=" 70) st in
  if all_ok st then
    let st := print "✓ 所有必需的目录都存在！" st in
    let st := print EmptyString st in
    let st := print "数据集结构完整，可以运行pipeline。" st in
    let st := print (str_repeat "=" 70) st in
    (stdout st, 0%Z)
  else
    let st := print "✗ 发现缺失的目录！" st in
    let st := print EmptyString st in
    let st := print "请检查上述标记为 ✗ 的目录。" st in
    (stdout st, 1%Z)
  end end end.

(** The eight directories the data set needs, each with the name it is
    reported under. *)
Definition required : list (string * string) :=
  [ ("MedleyDB-Pitch/audio", "audio/");
    ("MedleyDB-Pitch/pitch", "pitch/");
    ("MedleyDB-Pitch-Experiments/distortion/audio", "distortion/audio");
    ("MedleyDB-Pitch-Experiments/noise/5db/audio", "noise/5db/audio");
    ("MedleyDB-Pitch-Experiments/noise/15db/audio", "noise/15db/audio");
    ("MedleyDB-Pitch-Experiments/pitch_shift/25cents/audio", "pitch_shift/25cents/audio");
    ("MedleyDB-Pitch-Experiments/pitch_shift/50cents/audio", "pitch_shift/50cents/audio");
    ("MedleyDB-Pitch-Experiments/pitch", "pitch") ].

(** A required directory is missing when nothing, or something that is not
    a directory, stands at its path. *)
Definition missing (fs : filesystem) (path : string) : bool :=
  match behind (fs path) with
  | Dir _ | DirDenied => false
  | _ => true
  end.

(** The word of a line up to its first space. *)
Fixpoint first_word (s : string) : string :=
  match s with
  | EmptyString => EmptyString
  | String c rest => if Ascii.eqb c " " then EmptyString else String c (first_word rest)
  end.

(** What follows the prefix [p] in [s], when [s] starts with it. *)
Fixpoint after_prefix (p s : string) : option string :=
  match p, s with
  | EmptyString, _ => Some s
  | String a p', String b s' => if Ascii.eqb a b then after_prefix p' s' else None
  | String _ _, EmptyString => None
  end.

(** Reading a line of the output as a status: the check mark or the cross
    it starts with, and the word after it. Lines that start with neither
    are no status lines. *)
Definition status_of (line : string) : option (bool * string) :=
  match after_prefix "✓ " line with
  | Some rest => Some (true, first_word rest)
  | None =>
      match after_prefix "✗ " line with
      | Some rest => Some (false, first_word rest)
      | None => None
      end
  end.

(** The statuses a list of printed lines reports, in order. *)
Fixpoint statuses (lines : list string) : list (bool * string) :=
  match lines with
  | [] => []
  | line :: rest =>
      match status_of line with
      | Some status => status :: statuses rest
      | None => statuses rest
      end
  end.

End CheckDataset.

(** ** evaluate/evaluate_basic_pitch.py *)

Module EvaluateBasicPitch.

(** Modelled from the spec: the evaluator object. Its class,
    [src.evaluation.PitchEvaluator], is not among the sources; section 6
    gives it one tunable, the pitch tolerance in cents, and the driver
    only constructs it with the keyword [pitch_tolerance] and calls its
    method [evaluate]. *)
Record PitchEvaluator : Type := { pitch_tolerance : Q }.

(** One value of the dictionary [experiments]. *)
Record config : Type := {
  prediction_dir : string;
  ground_truth_dir : string;
  output_path : string
}.

(** The dictionary [experiments] of [main], in insertion order (the order
    [dict.items()] iterates in). *)
Definition experiments : list (string * config) :=
  [ ("clean",
     {| prediction_dir := "results/predictions/basic_pitch_normalized/clean";
        ground_truth_dir := "MedleyDB-Pitch/pitch";
        output_path := "results/metrics/basic_pitch_clean.csv" |});
    ("distortion",
     {| prediction_dir := "results/predictions/basic_pitch_normalized/distortion";
        ground_truth_dir := "MedleyDB-Pitch-Experiments/pitch";
        output_path := "results/metrics/basic_pitch_distortion.csv" |});
    ("noise_5db",
     {| prediction_dir := "results/predictions/basic_pitch_normalized/noise/5db";
        ground_truth_dir := "MedleyDB-Pitch-Experiments/pitch";
        output_path := "results/metrics/basic_pitch_noise_5db.csv" |});
    ("noise_15db",
     {| prediction_dir := "results/predictions/basic_pitch_normalized/noise/15db";
        ground_truth_dir := "MedleyDB-Pitch-Experiments/pitch";
        output_path := "results/metrics/basic_pitch_noise_15db.csv" |});
    ("pitch_shift_25cents",
     {| prediction_dir := "results/predictions/basic_pitch_normalized/pitch_shift/25cents";
        ground_truth_dir := "MedleyDB-Pitch-Experiments/pitch";
        output_path := "results/metrics/basic_pitch_pitch_shift_25cents.csv" |});
    ("pitch_shift_50cents",
     {| prediction_dir := "results/predictions/basic_pitch_normalized/pitch_shift/50cents";
        ground_truth_dir := "MedleyDB-Pitch-Experiments/pitch";
        output_path := "results/metrics/basic_pitch_pitch_shift_50cents.csv" |}) ].

(** What a call can raise: an instance of [Exception] (what
    [except Exception] catches), or of a class that derives from
    [BaseException] only ([KeyboardInterrupt], [SystemExit]). *)
Inductive raised : Type :=
| AnException (message : string)
| ABaseException (message : string).

(** The [PermissionError] of a call of [os.stat] on [path], an instance of
    [Exception]. *)
Definition permission_error (path : string) : raised :=
  AnException ("[Errno 13] Permission denied: '" ++ path ++ "'").

(** How a call of [evaluator.evaluate] ends. *)
Inductive outcome : Type :=
| Returns
| Raises (e : raised).

(** What [main] does, in order. Each [Print...] stands for the [print]
    statements of one place of the script. *)
Inductive event : Type :=
| NewEvaluator (tolerance : Q)
    (* PitchEvaluator(pitch_tolerance=...) *)
| PrintBanner
    (* the five prints before the loop *)
| PrintSkipNotFound (exp_name pred_dir : string)
    (* Skipping {exp_name}: Prediction directory not found *)
| PrintSkipNoFiles (exp_name pred_dir : string)
    (* Skipping {exp_name}: No prediction files found *)
| PrintEvaluating (exp_name : string) (n_pred_files : nat)
    (* Evaluating: {exp_name} ... Prediction files: {len(pred_files)} *)
| CallEvaluate (evaluator : PitchEvaluator) (c : config)
    (* evaluator.evaluate(prediction_dir=..., ground_truth_dir=..., output_path=...) *)
| PrintError (exp_name message : string)
    (* Error evaluating {exp_name}: {e} *)
| PrintTraceback
    (* traceback.print_exc() *)
| PrintComplete.
    (* the three prints after the loop *)

Section Driver.

(** The method [evaluate] of the evaluator: it reads and writes files, and
    returns or raises. *)
Variable evaluate : PitchEvaluator -> config -> filesystem -> outcome * filesystem.

(** The body of the loop of [main] for one condition: what it does, the
    exception that leaves it (if any), and the file system afterwards.
    Only the call of [evaluate] is inside the [try]: the
    [PermissionError] of [pred_dir.exists()] leaves the body. *)
Definition condition_body (evaluator : PitchEvaluator) (exp_name : string) (c : config)
    (fs : filesystem) : list event * option raised * filesystem :=
  let pred_dir := prediction_dir c in
  match path_exists fs pred_dir with
  | PermissionError => ([], Some (permission_error pred_dir), fs)
  | Answer false => ([PrintSkipNotFound exp_name pred_dir], None, fs)
  | Answer true =>
      let pred_files := glob_suffix fs pred_dir ".csv" in
      if (List.length pred_files =? 0)%nat
      then ([PrintSkipNoFiles exp_name pred_dir], None, fs)
      else
        let before := [PrintEvaluating exp_name (List.length pred_files);
                       CallEvaluate evaluator c] in
        match evaluate evaluator c fs with
        | (Returns, fs') => (before, None, fs')
        | (Raises (AnException message), fs') =>
            ((before ++ [PrintError exp_name message; PrintTraceback])%list, None, fs')
        | (Raises (ABaseException message), fs') =>
            (before, Some (ABaseException message), fs')
        end
  end.

(** [for exp_name, config in experiments.items(): ...]. An exception that
    leaves the body leaves the loop. *)
Fixpoint for_each_condition (evaluator : PitchEvaluator) (exps : list (string * config))
    (fs : filesystem) : list event * option raised * filesystem :=
  match exps with
  | [] => ([], None, fs)
  | (exp_name, c) :: rest =>
      match condition_body evaluator exp_name c fs with
      | (events, Some e, fs') => (events, Some e, fs')
      | (events, None, fs') =>
          let '(events', r, fs'') := for_each_condition evaluator rest fs' in
          ((events ++ events')%list, r, fs'')
      end
  end.

(** [main()]. *)
Definition main (fs : filesystem) : list event * option raised * filesystem :=
  let evaluator := {| pitch_tolerance := 50 |} in
  match for_each_condition evaluator experiments fs with
  | (events, Some e, fs') => (NewEvaluator 50 :: PrintBanner :: events, Some e, fs')
  | (events, None, fs') =>
      (NewEvaluator 50 :: PrintBanner :: (events ++ [PrintComplete])%list, None, fs')
  end.

End Driver.

(** The condition an event of the loop reports on, for the three events
    that open the handling of a condition. *)
Definition condition_of (e : event) : option string :=
  match e with
  | PrintSkipNotFound exp_name _ => Some exp_name
  | PrintSkipNoFiles exp_name _ => Some exp_name
  | PrintEvaluating exp_name _ => Some exp_name
  | _ => None
  end.

(** The conditions a trace handles, in the order it handles them. *)
Fixpoint conditions_handled (trace : list event) : list string :=
  match trace with
  | [] => []
  | e :: trace' =>
      match condition_of e with
      | Some exp_name => exp_name :: conditions_handled trace'
      | None => conditions_handled trace'
      end
  end.

(** The evaluators a trace calls [evaluate] on. *)
Fixpoint evaluators_called (trace : list event) : list PitchEvaluator :=
  match trace with
  | [] => []
  | CallEvaluate evaluator _ :: trace' => evaluator :: evaluators_called trace'
  | _ :: trace' => evaluators_called trace'
  end.

(** The tolerances a trace constructs evaluators with. *)
Fixpoint evaluators_constructed (trace : list event) : list Q :=
  match trace with
  | [] => []
  | NewEvaluator tolerance :: trace' => tolerance :: evaluators_constructed trace'
  | _ :: trace' => evaluators_constructed trace'
  end.

(** The configurations a trace calls [evaluate] with. *)
Fixpoint configs_called (trace : list event) : list config :=
  match trace with
  | [] => []
  | CallEvaluate _ c :: trace' => c :: configs_called trace'
  | _ :: trace' => configs_called trace'
  end.

(** The calls of [evaluate] in a trace: the evaluator and the
    configuration of each. *)
Fixpoint calls (trace : list event) : list (PitchEvaluator * config) :=
  match trace with
  | [] => []
  | CallEvaluate evaluator c :: trace' => (evaluator, c) :: calls trace'
  | _ :: trace' => calls trace'
  end.

(** The directory at [path] can be listed and holds a CSV file. *)
Definition holds_csv (fs : filesystem) (path : string) : bool :=
  negb (List.length (glob_suffix fs path ".csv") =? 0)%nat.

(** [os.stat] answers at [path]. *)
Definition reachable (fs : filesystem) (path : string) : Prop :=
  path_exists fs path <> PermissionError.

(** The prediction directories of the configured conditions. *)
Definition prediction_dirs : list string :=
  map (fun e => prediction_dir (snd e)) experiments.

(** The five ways through the body of the loop. *)
Inductive body_shape (evaluator : PitchEvaluator) (exp_name : string) (c : config)
    : list event -> option raised -> Prop :=
| ShapeSkipped (report : event) :
    report = PrintSkipNotFound exp_name (prediction_dir c)
    \/ report = PrintSkipNoFiles exp_name (prediction_dir c) ->
    body_shape evaluator exp_name c [report] None
| ShapeEvaluated (n : nat) :
    body_shape evaluator exp_name c
      [PrintEvaluating exp_name n; CallEvaluate evaluator c] None
| ShapeCaught (n : nat) (message : string) :
    body_shape evaluator exp_name c
      [PrintEvaluating exp_name n; CallEvaluate evaluator c;
       PrintError exp_name message; PrintTraceback] None
| ShapeEscaped (n : nat) (message : string) :
    body_shape evaluator exp_name c
      [PrintEvaluating exp_name n; CallEvaluate evaluator c]
      (Some (ABaseException message))
| ShapeDenied :
    body_shape evaluator exp_name c [] (Some (permission_error (prediction_dir c))).

End EvaluateBasicPitch.

(** ** pandas and numpy, as far as the plotting scripts use them *)

Module Pandas.

(** A cell of a table: a missing value, a number or a string. *)
Inductive cell : Type :=
| NaN
| Num (q : Q)
| Str (s : string).

(** A row holds its cells by column name; a column it does not hold reads
    as [NaN] (what [pd.concat] fills in). *)
Definition row : Type := list (string * cell).

Record DataFrame : Type := { columns : list string; rows : list row }.

(** The exceptions of the operations below. *)
Inductive error : Type :=
| KeyError (key : string)
| TypeError.

Inductive result (A : Type) : Type :=
| Ok (a : A)
| Raise (e : error).

Arguments Ok {A} a.
Arguments Raise {A} e.

Definition bind {A B : Type} (m : result A) (k : A -> result B) : result B :=
  match m with
  | Ok a => k a
  | Raise e => Raise e
  end.

Notation "x <- m ;; k" := (bind m (fun x => k))
  (at level 61, m at next level, right associativity).

Fixpoint mapM {A B : Type} (f : A -> result B) (l : list A) : result (list B) :=
  match l with
  | [] => Ok []
  | x :: l' => y <- f x ;; ys <- mapM f l' ;; Ok (y :: ys)
  end.

Definition get (r : row) (c : string) : cell :=
  match find (fun kv => String.eqb (fst kv) c) r with
  | Some kv => snd kv
  | None => NaN
  end.

Fixpoint set (r : row) (c : string) (v : cell) : row :=
  match r with
  | [] => [(c, v)]
  | (k, w) :: r' => if String.eqb k c then (k, v) :: r' else (k, w) :: set r' c v
  end.

Definition mem (c : string) (l : list string) : bool := existsb (String.eqb c) l.

(** [c in df.columns]. *)
Definition has_column (df : DataFrame) (c : string) : bool := mem c (columns df).

(** [len(df)]. *)
Definition len (df : DataFrame) : nat := List.length (rows df).

(** [df[c].values], or [KeyError]. *)
Definition values (df : DataFrame) (c : string) : result (list cell) :=
  if has_column df c then Ok (map (fun r => get r c) (rows df)) else Raise (KeyError c).

(** Elementwise [== s] against a string. *)
Definition cell_is (s : string) (v : cell) : bool :=
  match v with
  | Str s' => String.eqb s' s
  | _ => false
  end.

Definition notna (v : cell) : bool :=
  match v with NaN => false | _ => true end.

(** [df[df[c] != s]], [df[df[c] == s]] and [df[df[c].notna()]]. *)
Definition where_ne (df : DataFrame) (c s : string) : result DataFrame :=
  if has_column df c
  then Ok {| columns := columns df;
             rows := filter (fun r => negb (cell_is s (get r c))) (rows df) |}
  else Raise (KeyError c).

Definition where_eq (df : DataFrame) (c s : string) : result DataFrame :=
  if has_column df c
  then Ok {| columns := columns df;
             rows := filter (fun r => cell_is s (get r c)) (rows df) |}
  else Raise (KeyError c).

Definition where_notna (df : DataFrame) (c : string) : result DataFrame :=
  if has_column df c
  then Ok {| columns := columns df;
             rows := filter (fun r => notna (get r c)) (rows df) |}
  else Raise (KeyError c).

(** [df[c] = f(row)]: the column is replaced, or added as the last one. *)
Definition assign (df : DataFrame) (c : string) (f : row -> cell) : DataFrame :=
  {| columns := if has_column df c then columns df else (columns df ++ [c])%list;
     rows := map (fun r => set r c (f r)) (rows df) |}.

(** [df[[c1, ..., cn]]], or [KeyError] on the first column that is missing. *)
Definition select (df : DataFrame) (cs : list string) : result DataFrame :=
  match find (fun c => negb (has_column df c)) cs with
  | Some c => Raise (KeyError c)
  | None => Ok {| columns := cs;
                  rows := map (fun r => map (fun c => (c, get r c)) cs) (rows df) |}
  end.

(** [df.drop(cs, axis=1, errors='ignore')]. *)
Definition drop (df : DataFrame) (cs : list string) : DataFrame :=
  {| columns := filter (fun c => negb (mem c cs)) (columns df);
     rows := map (filter (fun kv : string * cell => negb (mem (fst kv) cs))) (rows df) |}.

(** Keys match in a merge when they are the same value; two missing keys
    match each other. *)
Definition key_eqb (a b : cell) : bool :=
  match a, b with
  | NaN, NaN => true
  | Num p, Num q => Qeq_bool p q
  | Str s, Str t => String.eqb s t
  | _, _ => false
  end.

(** [left.merge(right, on=key, how='left')]: every row of [left], in
    order, once per row of [right] with the same key, or once with the
    columns of [right] missing. A column other than the key that both
    tables have is renamed, with [_x] on the left and [_y] on the right.
    (The key columns are taken to be of one kind: for a key of texts on
    one side and of integers on the other pandas raises [ValueError],
    which is outside this model.) *)
Definition merge_rename (overlap : list string) (suffix : string) (c : string) : string :=
  if mem c overlap then c ++ suffix else c.

Definition merge_left (left right : DataFrame) (key : string) : result DataFrame :=
  if negb (has_column left key) then Raise (KeyError key)
  else if negb (has_column right key) then Raise (KeyError key)
  else
    let overlap :=
      filter (fun c => negb (String.eqb c key) && mem c (columns right)) (columns left) in
    let rename_l (r : row) : row :=
      map (fun kv => (merge_rename overlap "_x" (fst kv), snd kv)) r in
    let rename_r (r : row) : row :=
      map (fun kv => (merge_rename overlap "_y" (fst kv), snd kv))
          (filter (fun kv => negb (String.eqb (fst kv) key)) r) in
    Ok {| columns :=
            (map (merge_rename overlap "_x") (columns left)
             ++ map (merge_rename overlap "_y")
                  (filter (fun c => negb (String.eqb c key)) (columns right)))%list;
          rows :=
            flat_map
              (fun l =>
                 match filter (fun r => key_eqb (get l key) (get r key)) (rows right) with
                 | [] => [rename_l l]
                 | matches => map (fun r => (rename_l l ++ rename_r r)%list) matches
                 end)
              (rows left) |}.

(** [pd.concat(dfs, ignore_index=True)]: the rows one table after the
    other, under the union of the columns in order of first appearance. *)
Definition concat (dfs : list DataFrame) : DataFrame :=
  {| columns :=
       fold_left (fun acc df => (acc ++ filter (fun c => negb (mem c acc)) (columns df))%list)
                 dfs [];
     rows := flat_map rows dfs |}.

(** [Series.dropna().values]. *)
Definition dropna (vs : list cell) : list cell := filter notna vs.

(** [str.replace(old, new)] of Python for a non-empty [old]: every
    occurrence, left to right, without overlap. [skip] counts the
    characters of a replaced occurrence still to pass over. *)
Fixpoint str_replace_from (skip : nat) (old new s : string) : string :=
  match s with
  | EmptyString => EmptyString
  | String a s' =>
      match skip with
      | S k => str_replace_from k old new s'
      | O =>
          if String.prefix old s
          then new ++ str_replace_from (String.length old - 1) old new s'
          else String a (str_replace_from 0 old new s')
      end
  end.

Definition str_replace (old new s : string) : string := str_replace_from 0 old new s.

(** The string holds no dot. *)
Fixpoint no_dot (s : string) : bool :=
  match s with
  | EmptyString => true
  | String a s' => negb (Ascii.eqb a ".") && no_dot s'
  end.

(** [Series.str.replace(old, new, regex=False)] on one cell of a column
    of texts: a value that is not a string becomes missing. (On a column
    that holds no text at all, pandas raises [AttributeError] at [.str];
    the tables here carry no column types, and that case is outside this
    model.) *)
Definition cell_str_replace (old new : string) (v : cell) : cell :=
  match v with
  | Str s => Str (str_replace old new s)
  | _ => NaN
  end.

(** [s.split(sep)] for a one-character separator. *)
Fixpoint str_split (sep : ascii) (s : string) : list string :=
  match s with
  | EmptyString => [EmptyString]
  | String a s' =>
      match str_split sep s' with
      | [] => [EmptyString]
      | w :: ws => if Ascii.eqb a sep then EmptyString :: w :: ws else String a w :: ws
      end
  end.

(** The numbers of an array of floats, or [None] when one is not a
    number ([TypeError] when one is a string). *)
Fixpoint numbers (vs : list cell) : result (option (list Q)) :=
  match vs with
  | [] => Ok (Some [])
  | Str _ :: _ => Raise TypeError
  | NaN :: vs' => _ <- numbers vs' ;; Ok None
  | Num q :: vs' =>
      r <- numbers vs' ;;
      Ok (match r with Some qs => Some (q :: qs) | None => None end)
  end.

Definition Qsum (qs : list Q) : Q := fold_right Qplus 0%Q qs.

(** [np.mean(values)] for a non-empty array: the sum over the length, and
    not-a-number as soon as one value is. *)
Definition np_mean (vs : list cell) : result cell :=
  r <- numbers vs ;;
  Ok (match r with
      | Some qs => Num (Qsum qs / inject_Z (Z.of_nat (List.length qs)))
      | None => NaN
      end).

(** [np.median(values)] for a non-empty array: the middle value of the
    sorted array, the mean of the two middle ones when the length is even,
    and not-a-number as soon as one value is. *)
Definition np_median (vs : list cell) : result cell :=
  r <- numbers vs ;;
  Ok (match r with
      | Some qs =>
          let s := sorted Qle_bool qs in
          let n := List.length s in
          if Nat.even n
          then Num ((nth (n / 2 - 1) s 0 + nth (n / 2) s 0) / 2)%Q
          else Num (nth (n / 2) s 0%Q)
      | None => NaN
      end).

(** A column name that is not [filename], also with a suffix of a merge. *)
Definition apart_from_filename (c : string) : Prop :=
  c <> "filename" /\ c ++ "_x" <> "filename" /\ c ++ "_y" <> "filename".

(** The table holds no row whose [filename] is [AVERAGE]. *)
Definition no_average (df : DataFrame) : Prop :=
  Forall (fun r => get r "filename" <> Str "AVERAGE") (rows df).

End Pandas.

(** The files [pd.read_csv] can read: a path that exists maps to its
    table. *)
Definition csv_store : Type := string -> option Pandas.DataFrame.

(** [df['track_id'] = df['filename'].str.replace('.csv', '').str.replace('.wav', '')],
    shared by both plotting scripts. *)
Definition add_track_id (df : Pandas.DataFrame) : Pandas.result Pandas.DataFrame :=
  if Pandas.has_column df "filename"
  then Pandas.Ok
         (Pandas.assign df "track_id"
            (fun r => Pandas.cell_str_replace ".wav" EmptyString
                        (Pandas.cell_str_replace ".csv" EmptyString
                           (Pandas.get r "filename"))))
  else Pandas.Raise (Pandas.KeyError "filename").

(** What the plotting methods draw, without coordinates and styling: the
    scatter of one model, and the median and mean lines of one group of
    one model. *)
Inductive drawing : Type :=
| Scatter (model : string) (y_data : list Pandas.cell)
| MedianLine (group model : string) (median : Pandas.cell)
| MeanLine (group model : string) (mean : Pandas.cell).

(** The values a drawing places on the vertical axis. *)
Definition drawn_values (d : drawing) : list Pandas.cell :=
  match d with
  | Scatter _ y_data => y_data
  | MedianLine _ _ median => [median]
  | MeanLine _ _ mean => [mean]
  end.

(** A Python dictionary with string keys, in insertion order. *)
Definition dict (A : Type) : Type := list (string * A).

Definition dict_get {A : Type} (d : dict A) (k : string) : option A :=
  match find (fun kv => String.eqb (fst kv) k) d with
  | Some kv => Some (snd kv)
  | None => None
  end.

(** ** evaluate/plot_results.py *)

Module PlotResults.

Import Pandas.

Definition models : list string := ["librosa"; "crepe"; "basic_pitch"].

Definition conditions : list string :=
  ["clean"; "distortion_light"; "distortion_medium"; "distortion_heavy";
   "noise_5db"; "noise_15db"; "pitch_shift_25cents"; "pitch_shift_50cents"].

Definition manifests_dir : string := "MedleyDB-Pitch-Experiments/manifests".

(** The body of the two loops of [load_results] for one model and one
    condition: the table stored under [results[model][condition]]. The
    warning printed for a file that is not there is left out. *)
Definition load_condition (results_dir : string) (store : csv_store)
    (dist_manifest : option DataFrame) (model condition : string)
    : result (option DataFrame) :=
  if String.prefix "distortion_" condition then
    let level := nth 1 (str_split "_" condition) EmptyString in
    let file_path := joinpath results_dir (model ++ "_distortion.csv") in
    match store file_path, dist_manifest with
    | Some df, Some manifest =>
        df <- where_ne df "filename" "AVERAGE" ;;
        df <- add_track_id df ;;
        tags <- select manifest ["track_id"; "level_tag"] ;;
        df <- merge_left df tags "track_id" ;;
        df_level <- where_eq df "level_tag" level ;;
        if (0 <? len df_level)%nat
        then Ok (Some (drop df_level ["track_id"; "level_tag"]))
        else Ok None
    | _, _ => Ok None
    end
  else
    let file_path := joinpath results_dir (model ++ "_" ++ condition ++ ".csv") in
    match store file_path with
    | Some df =>
        df <- where_ne df "filename" "AVERAGE" ;;
        Ok (Some df)
    | None => Ok None
    end.

(** [ResultsPlotter.load_results()]: [{model: {condition: DataFrame}}]. *)
Definition load_results (results_dir : string) (store : csv_store)
    : result (dict (dict (option DataFrame))) :=
  let dist_manifest := store (joinpath manifests_dir "manifest_dist.csv") in
  mapM (fun model =>
          per_condition <-
            mapM (fun condition =>
                    df <- load_condition results_dir store dist_manifest model condition ;;
                    Ok (condition, df))
                 conditions ;;
          Ok (model, per_condition))
       models.

(** [results[model][condition]]; both keys are there in what
    [load_results] returns. *)
Definition lookup (results : dict (dict (option DataFrame))) (model condition : string)
    : option DataFrame :=
  match dict_get results model with
  | Some per_condition =>
      match dict_get per_condition condition with
      | Some df => df
      | None => None
      end
  | None => None
  end.

(** The first loop of [plot_metric]: the values handed to [ax.scatter]
    for each model, over all the conditions. The call of matplotlib
    itself is outside the model: on values among which a text stands it
    can raise, so the result is what is drawn for values that are numbers
    or not-a-number. *)
Definition scatter_of_model (metric : string) (results : dict (dict (option DataFrame)))
    (model : string) : result (list drawing) :=
  y_data <-
    mapM (fun condition =>
            match lookup results model condition with
            | Some df => if has_column df metric then values df metric else Ok []
            | None => Ok []
            end)
         conditions ;;
  let y_data := List.concat y_data in
  Ok (if (0 <? List.length y_data)%nat then [Scatter model y_data] else []).

(** The second loop of [plot_metric]: the median and mean lines of each
    condition and model. *)
Definition statistics_of (metric : string) (results : dict (dict (option DataFrame)))
    (condition model : string) : result (list drawing) :=
  match lookup results model condition with
  | Some df =>
      if has_column df metric then
        vs <- values df metric ;;
        if (0 <? List.length vs)%nat then
          median <- np_median vs ;;
          mean <- np_mean vs ;;
          Ok [MedianLine condition model median; MeanLine condition model mean]
        else Ok []
      else Ok []
  | None => Ok []
  end.

(** [ResultsPlotter.plot_metric(metric, results, output_path)]. *)
Definition plot_metric (metric : string) (results : dict (dict (option DataFrame)))
    : result (list drawing) :=
  scatters <- mapM (scatter_of_model metric results) models ;;
  lines <-
    mapM (fun condition => mapM (statistics_of metric results condition) models)
         conditions ;;
  Ok (List.concat scatters ++ List.concat (List.concat lines))%list.

End PlotResults.

(** ** evaluate/plot_additional_comparisons.py *)

Module PlotAdditionalComparisons.

Import Pandas.

Definition metrics : list string := ["OA"; "RPA"; "RCA"; "VR"].

Definition models : list string := ["librosa"; "crepe"; "basic_pitch"].

(** [AdditionalPlotter.load_manifests()]. *)
Definition load_manifests (manifests_dir : string) (store : csv_store) : dict DataFrame :=
  let add (name file : string) : dict DataFrame :=
    match store (joinpath manifests_dir file) with
    | Some df => [(name, df)]
    | None => []
    end in
  (add "distortion" "manifest_dist.csv"
   ++ add "noise" "manifest_noise.csv"
   ++ add "tuning" "manifest_tuning.csv")%list.

(** One of the blocks of [load_results_with_metadata]: the results file
    [file] read under the name [condition], with the constant columns
    [extra] and, when [manifest] names one, the columns [tags] of that
    manifest. The block is skipped when the file is not there or the
    manifest it needs is not loaded. *)
Definition load_block (results_dir : string) (store : csv_store) (manifests : dict DataFrame)
    (file condition : string) (extra : list (string * string))
    (manifest : option (string * list string)) : result (list DataFrame) :=
  let needed :=
    match manifest with
    | Some (name, _) => match dict_get manifests name with Some _ => true | None => false end
    | None => true
    end in
  match store (joinpath results_dir file) with
  | Some df =>
      if needed then
        df <- where_ne df "filename" "AVERAGE" ;;
        df <- add_track_id df ;;
        let df := assign df "condition" (fun _ => Str condition) in
        let df := fold_left (fun d kv => assign d (fst kv) (fun _ => Str (snd kv))) extra df in
        match manifest with
        | Some (name, tags) =>
            match dict_get manifests name with
            | Some m =>
                right <- select m ("track_id" :: tags) ;;
                df <- merge_left df right "track_id" ;;
                Ok [df]
            | None => Ok [df]
            end
        | None => Ok [df]
        end
      else Ok []
  | None => Ok []
  end.

(** The body of the loop of [load_results_with_metadata] for one model. *)
Definition load_model (results_dir : string) (store : csv_store) (manifests : dict DataFrame)
    (model : string) : result (option DataFrame) :=
  clean <- load_block results_dir store manifests (model ++ "_clean.csv") "clean" [] None ;;
  dist <- load_block results_dir store manifests (model ++ "_distortion.csv") "distortion" []
            (Some ("distortion", ["level_tag"; "class_tag"])) ;;
  noise <-
    mapM (fun snr =>
            load_block results_dir store manifests (model ++ "_noise_" ++ snr ++ ".csv")
              ("noise_" ++ snr) [("snr", snr)] (Some ("noise", ["noise_tag"; "class_tag"])))
         ["5db"; "15db"] ;;
  pitch <-
    mapM (fun cents =>
            load_block results_dir store manifests (model ++ "_pitch_shift_" ++ cents ++ ".csv")
              ("pitch_shift_" ++ cents) [] (Some ("tuning", ["class_tag"])))
         ["25cents"; "50cents"] ;;
  let model_results := (clean ++ dist ++ List.concat noise ++ List.concat pitch)%list in
  match model_results with
  | [] => Ok None
  | _ => Ok (Some (concat model_results))
  end.

(** [AdditionalPlotter.load_results_with_metadata(manifests)]:
    [{model: DataFrame}]. *)
Definition load_results_with_metadata (results_dir : string) (store : csv_store)
    (manifests : dict DataFrame) : result (dict (option DataFrame)) :=
  mapM (fun model =>
          df <- load_model results_dir store manifests model ;;
          Ok (model, df))
       models.

(** The values of one class of tracks that [plot_instrument_vocal] plots:
    [class_data[metric].dropna().values], or nothing when the class is
    empty or the metric is not a column. *)
Definition class_values (metric : string) (df_with_class : DataFrame) (class_type : string)
    : result (list cell) :=
  class_data <- where_eq df_with_class "class_tag" class_type ;;
  if (0 <? len class_data)%nat && has_column class_data metric
  then vs <- values class_data metric ;; Ok (dropna vs)
  else Ok [].

(** The body of the loop over the models of [plot_instrument_vocal], for
    one metric. *)
Definition instrument_vocal_of_model (metric : string) (results : dict (option DataFrame))
    (model : string) : result (list drawing) :=
  match dict_get results model with
  | Some (Some df) =>
      df_with_class <- where_notna df "class_tag" ;;
      if (len df_with_class =? 0)%nat then Ok []
      else
        y_data <- mapM (class_values metric df_with_class) ["instrument"; "vocal"] ;;
        let y_data := List.concat y_data in
        if (0 <? List.length y_data)%nat then
          lines <-
            mapM (fun class_type =>
                    vs <- class_values metric df_with_class class_type ;;
                    if (0 <? List.length vs)%nat then
                      median <- np_median vs ;;
                      mean <- np_mean vs ;;
                      Ok [MedianLine class_type model median; MeanLine class_type model mean]
                    else Ok [])
                 ["instrument"; "vocal"] ;;
          Ok (Scatter model y_data :: List.concat lines)
        else Ok []
  | _ => Ok []
  end.

(** [AdditionalPlotter.plot_instrument_vocal(results, output_dir)]: the
    drawings of each of the four figures. *)
Definition plot_instrument_vocal (results : dict (option DataFrame))
    : result (list (string * list drawing)) :=
  mapM (fun metric =>
          per_model <- mapM (instrument_vocal_of_model metric results) models ;;
          Ok (metric, List.concat per_model))
       metrics.

End PlotAdditionalComparisons.

(** A table one of the two loading methods returns: under some model and
    condition of [ResultsPlotter.load_results], or under some model of
    [AdditionalPlotter.load_results_with_metadata]. *)
Definition loaded (results_dir : string) (store : csv_store) (df : Pandas.DataFrame) : Prop :=
  (exists (results : dict (dict (option Pandas.DataFrame))) (model condition : string),
     PlotResults.load_results results_dir store = Pandas.Ok results /\
     PlotResults.lookup results model condition = Some df)
  \/
  (exists (manifests : dict Pandas.DataFrame) (results : dict (option Pandas.DataFrame))
          (model : string),
     PlotAdditionalComparisons.load_results_with_metadata results_dir store manifests
     = Pandas.Ok results /\
     dict_get results model = Some (Some df)).

(** The results hold [results[model][condition]], a table or [None], for
    every model and condition of [ResultsPlotter]. *)
Definition holds_every_condition (results : dict (dict (option Pandas.DataFrame))) : Prop :=
  forall model condition : string,
    In model PlotResults.models -> In condition PlotResults.conditions ->
    exists (per_condition : dict (option Pandas.DataFrame)) (table : option Pandas.DataFrame),
      dict_get results model = Some per_condition /\
      dict_get per_condition condition = Some table.

(** The results hold [results[model]], a table or [None], for every model
    of [AdditionalPlotter]. *)
Definition holds_every_model (results : dict (option Pandas.DataFrame)) : Prop :=
  forall model : string,
    In model PlotAdditionalComparisons.models -> dict_get results model <> None.

(** No block of [load_results_with_metadata] is read for the model: each
    of its six report files is missing, or the manifest it is merged with
    was not loaded. *)
Definition nothing_to_load (results_dir : string) (store : csv_store)
    (manifests : dict Pandas.DataFrame) (model : string) : Prop :=
  store (joinpath results_dir (model ++ "_clean.csv")) = None /\
  (store (joinpath results_dir (model ++ "_distortion.csv")) = None \/
   dict_get manifests "distortion" = None) /\
  (forall snr : string, In snr ["5db"; "15db"] ->
     store (joinpath results_dir (model ++ "_noise_" ++ snr ++ ".csv")) = None \/
     dict_get manifests "noise" = None) /\
  (forall cents : string, In cents ["25cents"; "50cents"] ->
     store (joinpath results_dir (model ++ "_pitch_shift_" ++ cents ++ ".csv")) = None \/
     dict_get manifests "tuning" = None).

(** ** Concrete inputs

    The file systems, evaluators and result files the examples below run
    the scripts on. *)

(** One row of a per-condition report. *)
Definition report_row (filename : string) (oa rpa rca vr : Pandas.cell) : Pandas.row :=
  [("filename", Pandas.Str filename); ("OA", oa); ("RPA", rpa); ("RCA", rca); ("VR", vr)].

(** A report of two files and the AVERAGE row. The second file has no
    voiced ground-truth frame: its RPA, RCA and VR are undefined, and the
    AVERAGE row leaves them out of its means. *)
Definition example_report : Pandas.DataFrame :=
  {| Pandas.columns := ["filename"; "OA"; "RPA"; "RCA"; "VR"];
     Pandas.rows :=
       [ report_row "track1.csv" (Pandas.Num (9 # 10)) (Pandas.Num (8 # 10))
           (Pandas.Num (85 # 100)) (Pandas.Num 1);
         report_row "track2.csv" (Pandas.Num (1 # 2)) Pandas.NaN Pandas.NaN Pandas.NaN;
         report_row "AVERAGE" (Pandas.Num (7 # 10)) (Pandas.Num (8 # 10))
           (Pandas.Num (85 # 100)) (Pandas.Num 1) ] |}.

(** What [load_results] keeps of [example_report]. *)
Definition example_report_loaded : Pandas.DataFrame :=
  {| Pandas.columns := ["filename"; "OA"; "RPA"; "RCA"; "VR"];
     Pandas.rows :=
       [ report_row "track1.csv" (Pandas.Num (9 # 10)) (Pandas.Num (8 # 10))
           (Pandas.Num (85 # 100)) (Pandas.Num 1);
         report_row "track2.csv" (Pandas.Num (1 # 2)) Pandas.NaN Pandas.NaN Pandas.NaN ] |}.

(** A results directory that holds the report of librosa on the clean
    condition, and nothing else. *)
Definition example_store : csv_store :=
  fun path =>
    if String.eqb path "results/metrics/librosa_clean.csv" then Some example_report else None.

(** A tuning manifest that classes both tracks as vocal, and a store that
    holds it next to the report of librosa on the clean condition and on
    the pitch shift of 25 cents. *)
Definition example_tuning_manifest : Pandas.DataFrame :=
  {| Pandas.columns := ["track_id"; "class_tag"];
     Pandas.rows :=
       [ [("track_id", Pandas.Str "track1"); ("class_tag", Pandas.Str "vocal")];
         [("track_id", Pandas.Str "track2"); ("class_tag", Pandas.Str "vocal")] ] |}.

Definition example_store_with_manifest : csv_store :=
  fun path =>
    if String.eqb path "results/metrics/librosa_pitch_shift_25cents.csv"
    then Some example_report
    else if String.eqb path "MedleyDB-Pitch-Experiments/manifests/manifest_tuning.csv"
    then Some example_tuning_manifest
    else example_store path.

(** What [load_results_with_metadata] returns on the example with a tuning
    manifest. *)
Definition example_results_with_manifest : dict (option Pandas.DataFrame) :=
  match PlotAdditionalComparisons.load_results_with_metadata "results/metrics"
          example_store_with_manifest
          (PlotAdditionalComparisons.load_manifests "MedleyDB-Pitch-Experiments/manifests"
             example_store_with_manifest) with
  | Pandas.Ok results => results
  | Pandas.Raise _ => []
  end.

(** A data set with every required directory in place. *)
Definition example_dataset : filesystem :=
  fun path =>
    if existsb (String.eqb path) (map fst CheckDataset.required)
    then Dir ["track1.wav"; "track1.csv"]
    else Missing.

(** The same data set below a directory that cannot be entered: each
    required directory is in place, and [os.stat] raises for it. *)
Definition example_dataset_unreachable : filesystem :=
  fun path => Unreachable (example_dataset path).

(** A data set in which the pitch directory of the experiments is a file
    and the audio of the distortion is not there. *)
Definition example_dataset_incomplete : filesystem :=
  fun path =>
    if String.eqb path "MedleyDB-Pitch-Experiments/pitch" then File 10
    else if String.eqb path "MedleyDB-Pitch-Experiments/distortion/audio" then Missing
    else example_dataset path.

(** The same data set next to a directory the check does not ask for. *)
Definition example_dataset_with_extra : filesystem :=
  fun path =>
    if String.eqb path "MedleyDB-Pitch/notes" then Dir ["readme.txt"]
    else example_dataset path.

(** A distortion manifest: the first track distorted lightly, the second
    heavily; and a store that holds it next to the distortion report of
    librosa. *)
Definition example_distortion_manifest : Pandas.DataFrame :=
  {| Pandas.columns := ["track_id"; "level_tag"; "class_tag"];
     Pandas.rows :=
       [ [("track_id", Pandas.Str "track1"); ("level_tag", Pandas.Str "light");
          ("class_tag", Pandas.Str "vocal")];
         [("track_id", Pandas.Str "track2"); ("level_tag", Pandas.Str "heavy");
          ("class_tag", Pandas.Str "instrument")] ] |}.

Definition example_store_with_distortion : csv_store :=
  fun path =>
    if String.eqb path "results/metrics/librosa_distortion.csv"
    then Some example_report
    else if String.eqb path "MedleyDB-Pitch-Experiments/manifests/manifest_dist.csv"
    then Some example_distortion_manifest
    else example_store path.

(** A results directory whose report of crepe on the noise at 5 dB has
    lost its [filename] column. *)
Definition example_store_without_filename : csv_store :=
  fun path =>
    if String.eqb path "results/metrics/crepe_noise_5db.csv"
    then Some {| Pandas.columns := ["OA"; "RPA"; "RCA"; "VR"];
                 Pandas.rows := [[("OA", Pandas.Num 1); ("RPA", Pandas.Num 1);
                                  ("RCA", Pandas.Num 1); ("VR", Pandas.Num 1)]] |}
    else example_store path.

(** A results directory that holds a file and a directory with one file. *)
Definition example_tree : filesystem :=
  fun path =>
    if String.eqb path "top" then Dir ["b.csv"; "a"]
    else if String.eqb path "top/b.csv" then File 12
    else if String.eqb path "top/a" then Dir ["x.csv"]
    else if String.eqb path "top/a/x.csv" then File 3
    else Missing.

(** A file system with one prediction file for the clean condition, an
    empty prediction directory for the distortion condition, and no other
    prediction directory. *)
Definition example_fs : filesystem :=
  fun path =>
    if String.eqb path "results/predictions/basic_pitch_normalized/clean"
    then Dir ["track1.csv"; "notes.txt"]
    else if String.eqb path "results/predictions/basic_pitch_normalized/distortion"
    then Dir []
    else Missing.

(** The same file system, with prediction directories that are not
    there and cannot be reached either: the directory above them cannot
    be entered. *)
Definition example_fs_unreachable : filesystem :=
  fun path =>
    if String.prefix "results/predictions/" path then Unreachable Missing
    else example_fs path.

(** A file system in which each of the six prediction directories holds
    one prediction file. *)
Definition example_fs_complete : filesystem :=
  fun path =>
    if existsb (String.eqb path) EvaluateBasicPitch.prediction_dirs
    then Dir ["track1.csv"]
    else Missing.

(** A directory that lists two entries and lets neither be looked at
    (it can be read and cannot be entered). *)
Definition example_tree_unreachable : filesystem :=
  fun path =>
    if String.eqb path "top" then Dir ["f.csv"; "g"]
    else if String.eqb path "top/f.csv" then Unreachable (File 12)
    else if String.eqb path "top/g" then Unreachable (Dir [])
    else Missing.

(** An evaluator whose every evaluation fails with an [Exception]. *)
Definition evaluate_failing (evaluator : EvaluateBasicPitch.PitchEvaluator)
    (c : EvaluateBasicPitch.config) (fs : filesystem)
    : EvaluateBasicPitch.outcome * filesystem :=
  (EvaluateBasicPitch.Raises (EvaluateBasicPitch.AnException "no ground truth"), fs).

(** An evaluator interrupted from the keyboard. *)
Definition evaluate_interrupted (evaluator : EvaluateBasicPitch.PitchEvaluator)
    (c : EvaluateBasicPitch.config) (fs : filesystem)
    : EvaluateBasicPitch.outcome * filesystem :=
  (EvaluateBasicPitch.Raises (EvaluateBasicPitch.ABaseException "KeyboardInterrupt"), fs).

(** ** The evaluation engine (src.evaluation)

    The engine itself is not among the scripts above, which only call it.
    Its definitions below follow the specification, sections 3 and 4,
    over the real numbers. *)

Module MetricComputer.

Local Open Scope R_scope.

(** Modelled from the spec: the ComparisonFrame of section 3, one per
    ground-truth frame: the ground-truth frequency and the matched
    prediction frequency, [None] when no prediction frame was matched. *)
Record ComparisonFrame : Type := {
  gt_freq : R;
  pred_freq : option R
}.

(** Modelled from the spec: a metric value of section 3, a number or
    explicitly undefined. *)
Inductive metric : Type :=
| Undefined
| Value (r : R).

(** Modelled from the spec: the Frequency/Cents Converter of section 4.1,
    [cents = 1200 * log2(freq / reference)]. *)
Definition hz_to_cents (reference freq : R) : R :=
  1200 * (ln (freq / reference) / ln 2).

(** Modelled from the spec: the fold of section 4.4, to the representative
    of a cents difference modulo 1200 in [-600, 600). *)
Definition fold_cents (d : R) : R :=
  d - 1200 * IZR (Int_part ((d + 600) / 1200)).

(** Modelled from the spec: the Voicing Classifier of section 4.3. Ground
    truth is voiced when its frequency is positive; the prediction is
    voiced when a match was found and its frequency is positive. *)
Definition gt_voiced (f : ComparisonFrame) : bool :=
  if Rlt_dec 0 (gt_freq f) then true else false.

(** Modelled from the spec: the other half of the Voicing Classifier of
    section 4.3, for the prediction side of a frame. *)
Definition pred_voiced (f : ComparisonFrame) : bool :=
  match pred_freq f with
  | Some p => if Rlt_dec 0 p then true else false
  | None => false
  end.

(** Modelled from the spec: the cents difference between the matched
    prediction and the ground truth of a frame where both are voiced. *)
Definition cents_difference (reference : R) (f : ComparisonFrame) : R :=
  match pred_freq f with
  | Some p => hz_to_cents reference p - hz_to_cents reference (gt_freq f)
  | None => 0
  end.

(** Modelled from the spec: the tolerance rule of section 4.4, shared by
    RPA and RCA: the absolute value of the difference is at most the
    tolerance. *)
Definition within_tolerance (tolerance d : R) : bool :=
  if Rle_dec (Rabs d) tolerance then true else false.

(** Modelled from the spec: the frames RPA counts as correct (section
    4.4): voiced on both sides and within tolerance. *)
Definition rpa_correct (reference tolerance : R) (f : ComparisonFrame) : bool :=
  gt_voiced f && pred_voiced f
  && within_tolerance tolerance (cents_difference reference f).

(** Modelled from the spec: the frames RCA counts as correct (section
    4.4): as for RPA, on the folded difference. *)
Definition rca_correct (reference tolerance : R) (f : ComparisonFrame) : bool :=
  gt_voiced f && pred_voiced f
  && within_tolerance tolerance (fold_cents (cents_difference reference f)).

(** Modelled from the spec: the frames OA counts as correct: both sides
    unvoiced, or both voiced and within tolerance by the RPA rule. *)
Definition oa_correct (reference tolerance : R) (f : ComparisonFrame) : bool :=
  (negb (gt_voiced f) && negb (pred_voiced f)) || rpa_correct reference tolerance f.

(** Modelled from the spec: the count of the frames that satisfy [p]. *)
Definition count (p : ComparisonFrame -> bool) (frames : list ComparisonFrame) : nat :=
  List.length (filter p frames).

(** Modelled from the spec: a ratio of section 4.4; a denominator of zero
    gives the undefined value. *)
Definition ratio (numerator denominator : nat) : metric :=
  match denominator with
  | O => Undefined
  | S _ => Value (INR numerator / INR denominator)
  end.

(** Modelled from the spec: Voicing Recall (section 4.4). *)
Definition VR (frames : list ComparisonFrame) : metric :=
  ratio (count (fun f => gt_voiced f && pred_voiced f) frames) (count gt_voiced frames).

(** Modelled from the spec: Raw Pitch Accuracy (section 4.4). *)
Definition RPA (reference tolerance : R) (frames : list ComparisonFrame) : metric :=
  ratio (count (rpa_correct reference tolerance) frames) (count gt_voiced frames).

(** Modelled from the spec: Raw Chroma Accuracy (section 4.4). *)
Definition RCA (reference tolerance : R) (frames : list ComparisonFrame) : metric :=
  ratio (count (rca_correct reference tolerance) frames) (count gt_voiced frames).

(** Modelled from the spec: Overall Accuracy (section 4.4), over all the
    frames. *)
Definition OA (reference tolerance : R) (frames : list ComparisonFrame) : metric :=
  ratio (count (oa_correct reference tolerance) frames) (List.length frames).

(** The condition of octave invariance on one frame: where the ground
    truth is voiced, a prediction is matched and its frequency is twice,
    or half, the ground-truth frequency. *)
Definition octave_off (f : ComparisonFrame) : Prop :=
  gt_voiced f = true ->
  exists p : R, pred_freq f = Some p /\ (p = 2 * gt_freq f \/ p = gt_freq f / 2).

(** Frames of the examples: ground truth at 440 Hz with the prediction an
    octave above; ground truth at 440 Hz with the prediction 50 cents
    above; an unvoiced frame with no prediction. *)
Definition frame_octave_up : ComparisonFrame :=
  {| gt_freq := 440; pred_freq := Some (2 * 440) |}.

Definition frame_quarter_tone_up : ComparisonFrame :=
  {| gt_freq := 440; pred_freq := Some (440 * Rpower 2 (50 / 1200)) |}.

Definition frame_unvoiced : ComparisonFrame :=
  {| gt_freq := 0; pred_freq := None |}.

(** The comparison frames of the scenario of section 8: ground truth
    440, 0, 880 Hz against predictions 440, 0, 440 Hz. *)
Definition scenario_frames : list ComparisonFrame :=
  [ {| gt_freq := 440; pred_freq := Some 440 |};
    {| gt_freq := 0; pred_freq := Some 0 |};
    {| gt_freq := 880; pred_freq := Some 440 |} ].

End MetricComputer.
(** * Properties *)

(** ** format_size *)

Section FormatSizeFacts.

Import ViewResults.
Local Open Scope Q_scope.

Example format_size_0 : format_size 0 = Some "0.00 B".
Proof. reflexivity. Qed.

Example format_size_1023 : format_size 1023 = Some "1023.00 B".
Proof. reflexivity. Qed.

Example format_size_1536 : format_size 1536 = Some "1.50 KB".
Proof. reflexivity. Qed.

Example format_size_tie : format_size 1152 = Some "1.12 KB".
Proof. reflexivity. Qed.

Example format_size_pb : format_size (1024 ^ 5) = Some "1.00 PB".
Proof. reflexivity. Qed.

Example format_size_big : format_size (3000 * 1024 ^ 5) = Some "3000.00 PB".
Proof. reflexivity. Qed.

(** Above 2^53 bytes the conversion to a float rounds: one byte more than
    65 * 2^47 is printed as 8.12 PB, where the exact quotient would round
    to 8.13 PB. *)
Example format_size_rounds_the_bytes :
  format_size (65 * 2 ^ 47 + 1) = Some "8.12 PB"
  /\ fmt2f (inject_Z (65 * 2 ^ 47 + 1) / inject_Z (1024 ^ 5)) = "8.13"%string.
Proof. split; reflexivity. Qed.

Lemma round_half_even_error (q : Q) :
  Qabs (inject_Z (round_half_even q) - q) <= 1 # 2.
Proof.
  unfold round_half_even. cbv zeta.
  pose proof (Qfloor_le q) as Hlo.
  pose proof (Qlt_floor q) as Hhi.
  rewrite inject_Z_plus in Hhi.
  change (inject_Z 1) with 1 in Hhi.
  destruct (Qcompare_spec (q - inject_Z (Qfloor q)) (1 # 2)) as [He | Hl | Hg];
    [destruct (Z.even (Qfloor q)) | | ];
    rewrite ?inject_Z_plus; change (inject_Z 1) with 1;
    generalize dependent (inject_Z (Qfloor q)); intros f; intros;
    apply Qabs_case; intros; Lqa.lra.
Qed.

Lemma round_half_even_nonneg (q : Q) : 0 <= q -> (0 <= round_half_even q)%Z.
Proof.
  intros Hq. unfold round_half_even. cbv zeta.
  assert (Hfl : (0 <= Qfloor q)%Z).
  { change 0%Z with (Qfloor 0). apply Qfloor_resp_le. exact Hq. }
  destruct (q - inject_Z (Qfloor q) ?= 1 # 2); [destruct (Z.even (Qfloor q))| |]; lia.
Qed.

(** [str(n)] reads back as [n]. *)
Lemma decimal_str_of_N (n : N) : decimal (str_of_N n) = Some n.
Proof.
  unfold decimal, str_of_N.
  rewrite NilZero.usu.
  - cbn [option_map]. rewrite DecimalN.Unsigned.of_to. reflexivity.
  - destruct n as [|p]; [discriminate|]. apply DecimalPos.Unsigned.to_uint_nonnil.
Qed.

(** The two decimals are two digits that read back as the number. *)
Lemma two_digits_reads (n : Z) :
  (0 <= n < 100)%Z ->
  String.length (two_digits n) = 2%nat /\ decimal (two_digits n) = Some (Z.to_N n).
Proof.
  intros H.
  assert (Hn : exists k, (k < 100)%nat /\ n = Z.of_nat k).
  { exists (Z.to_nat n). split; lia. }
  destruct Hn as (k & Hk & ->).
  do 100 (destruct k as [|k]; [split; reflexivity|]).
  lia.
Qed.

(** What [format] writes for a value that is not negative: an integer
    part, a dot and two decimals that together read as a number within
    half a hundredth of the value. *)
Lemma fmt2f_reads (v : Q) :
  0 <= v ->
  exists (int_part frac : string) (i f : N),
    fmt2f v = (int_part ++ "." ++ frac)%string /\
    decimal int_part = Some i /\
    String.length frac = 2%nat /\ decimal frac = Some f /\
    Qabs (inject_Z (Z.of_N i) + inject_Z (Z.of_N f) / 100 - v) <= 1 # 200.
Proof.
  intros Hv.
  pose (r := round_half_even (v * 100)).
  assert (Hr : (0 <= r)%Z).
  { apply round_half_even_nonneg. Lqa.lra. }
  assert (Hmod : (0 <= r mod 100 < 100)%Z) by (apply Z.mod_pos_bound; lia).
  destruct (two_digits_reads (r mod 100) Hmod) as [Hlen Hread].
  exists (str_of_N (Z.to_N (r / 100))), (two_digits (r mod 100)),
         (Z.to_N (r / 100)), (Z.to_N (r mod 100)).
  split; [|split; [apply decimal_str_of_N | split; [exact Hlen | split; [exact Hread|]]]].
  - unfold fmt2f. destruct (Qlt_le_dec v 0) as [Hneg | _].
    + exfalso. apply (Qlt_not_le _ _ Hneg Hv).
    + assert (Habs : Qabs v = v).
      { destruct v as [a b]. unfold Qabs. rewrite Z.abs_eq; [reflexivity|].
        unfold Qle in Hv. simpl in Hv. lia. }
      rewrite Habs. reflexivity.
  - rewrite !Z2N.id by (try apply Z.div_pos; lia).
    assert (Hsplit : inject_Z (r / 100) + inject_Z (r mod 100) / 100 == inject_Z r / 100).
    { rewrite (Z.div_mod r 100) at 3 by lia.
      rewrite inject_Z_plus, inject_Z_mult. change (inject_Z 100) with 100. field. }
    rewrite Hsplit.
    pose proof (round_half_even_error (v * 100)) as Herr. fold r in Herr.
    generalize dependent (inject_Z r). intros x _ Herr.
    unfold Qdiv; change (/ 100) with (1 # 100).
    revert Herr. apply Qabs_case; intros; apply Qabs_case; intros; Lqa.lra.
Qed.

Lemma divide_times_lt (k : nat) : forall x : Q,
  divide_times k x < 1024 <-> x < inject_Z (1024 ^ Z.of_nat (S k)).
Proof.
  induction k as [|k IH]; intros x.
  - simpl divide_times. change (inject_Z (1024 ^ Z.of_nat 1)) with 1024. tauto.
  - simpl divide_times. rewrite IH.
    replace (Z.of_nat (S (S k))) with (Z.succ (Z.of_nat (S k))) by lia.
    rewrite Z.pow_succ_r by lia.
    rewrite inject_Z_mult.
    change (inject_Z 1024) with 1024.
    generalize (inject_Z (1024 ^ Z.of_nat (S k))); intros y.
    unfold Qdiv; change (/ 1024) with (1 # 1024).
    split; intros; Lqa.lra.
Qed.

Lemma divide_times_value (k : nat) : forall x : Q,
  divide_times k x == x / inject_Z (1024 ^ Z.of_nat k).
Proof.
  induction k as [|k IH]; intros x.
  - simpl. field.
  - simpl divide_times. rewrite IH.
    replace (Z.of_nat (S k)) with (Z.succ (Z.of_nat k)) by lia.
    rewrite Z.pow_succ_r by lia.
    rewrite inject_Z_mult.
    change (inject_Z 1024) with 1024.
    assert (Hpos : 0 < inject_Z (1024 ^ Z.of_nat k)).
    { change 0 with (inject_Z 0). rewrite <- Zlt_Qlt. apply Z.pow_pos_nonneg; lia. }
    field. Lqa.lra.
Qed.

Lemma divide_times_nonneg (k : nat) : forall x : Q, 0 <= x -> 0 <= divide_times k x.
Proof.
  induction k as [|k IH]; intros x Hx; simpl.
  - exact Hx.
  - apply IH. unfold Qdiv; change (/ 1024) with (1 # 1024). Lqa.lra.
Qed.

(** The loop on a float: the unit is the first at which the value,
    divided that many times, is below 1024. *)
Lemma format_size_loop_unit (units : list string) : forall x : Q,
  exists k : nat,
    (k <= List.length units)%nat /\
    format_size_loop units (Float x)
      = Some (fmt2f (divide_times k x) ++ " " ++ nth k (units ++ ["PB"]) EmptyString)%string /\
    (forall j, (j < k)%nat -> ~ divide_times j x < 1024) /\
    ((k < List.length units)%nat -> divide_times k x < 1024).
Proof.
  induction units as [|u units IH]; intros x.
  - exists 0%nat. simpl. split; [lia|]. split; [reflexivity|]. split; intros; lia.
  - cbn [format_size_loop value to_float]. destruct (Qlt_le_dec x 1024) as [Hlt | Hge].
    + exists 0%nat. simpl. split; [lia|]. split; [reflexivity|].
      split; [intros; lia | intros _; exact Hlt].
    + destruct (IH (x / 1024)) as (k & Hk & Heq & Hbelow & Hthis).
      exists (S k). simpl. split; [lia|]. split; [exact Heq|]. split.
      * intros [|j] Hj; simpl.
        -- apply Qle_not_lt; exact Hge.
        -- apply Hbelow. lia.
      * intros Hlt. apply Hthis. lia.
Qed.

(** *** The conversion of the byte count to a float *)

Lemma round_to_53_bits_small (m : Z) :
  (0 <= m < 2 ^ 53)%Z -> round_to_53_bits m = m.
Proof.
  intros [Hlo Hhi]. unfold round_to_53_bits. cbv zeta.
  destruct (Z.leb_spec (Z.log2 m - 52) 0) as [_ | Hbig]; [reflexivity|].
  exfalso.
  assert (Hpos : (0 < m)%Z).
  { destruct (Z.eq_dec m 0) as [-> | Hne]; [|lia]. cbn in Hbig. lia. }
  apply (Z.log2_lt_pow2 m 53 Hpos) in Hhi. lia.
Qed.

(** Above 53 bits the rounding moves the integer by at most its 2^53-th
    part, and not below 2^53 nor above the next power of two. *)
Lemma round_to_53_bits_large (m : Z) :
  (2 ^ 53 <= m)%Z ->
  (2 ^ 53 <= round_to_53_bits m)%Z /\
  (Z.abs (round_to_53_bits m - m) * 2 ^ 53 <= m)%Z /\
  (round_to_53_bits m <= 2 ^ (Z.log2 m + 1))%Z /\
  exists q r : Z,
    (m = q * 2 ^ (Z.log2 m - 52) + r)%Z /\
    (0 <= r < 2 ^ (Z.log2 m - 52))%Z /\
    (round_to_53_bits m = (q * 2 ^ (Z.log2 m - 52))%Z
     \/ round_to_53_bits m = ((q + 1) * 2 ^ (Z.log2 m - 52))%Z
        /\ (2 ^ (Z.log2 m - 53) <= r)%Z).
Proof.
  intros Hm.
  assert (Hpos : (0 < m)%Z).
  { assert (0 < 2 ^ 53)%Z by (apply Z.pow_pos_nonneg; lia). lia. }
  assert (HL : (53 <= Z.log2 m)%Z) by (apply Z.log2_le_pow2; [exact Hpos | exact Hm]).
  pose proof (Z.log2_spec m Hpos) as [Hlow Hhigh].
  unfold round_to_53_bits. cbv zeta.
  set (L := Z.log2 m) in *.
  destruct (Z.leb_spec (L - 52) 0) as [Hsmall | _]; [lia|].
  assert (HP : (2 ^ (L - 52) = 2 * 2 ^ (L - 52 - 1))%Z).
  { rewrite <- Z.pow_succ_r by lia. f_equal. lia. }
  assert (HL2 : (2 ^ L = 2 ^ 52 * 2 ^ (L - 52))%Z).
  { rewrite <- Z.pow_add_r by lia. f_equal. lia. }
  assert (HL3 : (2 ^ Z.succ L = 2 ^ 53 * 2 ^ (L - 52))%Z).
  { rewrite <- Z.pow_add_r by lia. f_equal. lia. }
  assert (HL4 : (2 ^ (L + 1) = 2 ^ 53 * 2 ^ (L - 52))%Z).
  { rewrite <- Z.pow_add_r by lia. f_equal. lia. }
  assert (Hhalf : (0 < 2 ^ (L - 52 - 1))%Z) by (apply Z.pow_pos_nonneg; lia).
  replace (L - 53)%Z with (L - 52 - 1)%Z by lia.
  pose proof (Z.div_mod m (2 ^ (L - 52))) as Hdm.
  pose proof (Z.mod_pos_bound m (2 ^ (L - 52))) as Hr.
  set (P := (2 ^ (L - 52))%Z) in *.
  set (half := (2 ^ (L - 52 - 1))%Z) in *.
  set (q := (m / P)%Z) in *. set (r := (m mod P)%Z) in *.
  assert (HdmP : (m = P * q + r)%Z) by (apply Hdm; lia).
  assert (HrP : (0 <= r < P)%Z) by (apply Hr; lia).
  clear Hdm Hr.
  rewrite HL2 in Hlow. rewrite HL3 in Hhigh. rewrite HL4.
  change (2 ^ 52)%Z with 4503599627370496%Z in *.
  change (2 ^ 53)%Z with 9007199254740992%Z in *.
  assert (Hq : (4503599627370496 <= q < 9007199254740992)%Z) by nia.
  destruct ((half <? r)%Z || (r =? half)%Z && Z.odd q) eqn:Hup.
  - assert (Hrh : (half <= r)%Z).
    { apply orb_true_iff in Hup. destruct Hup as [Hup | Hup].
      - apply Z.ltb_lt in Hup. lia.
      - apply andb_true_iff in Hup. destruct Hup as [Hup _]. apply Z.eqb_eq in Hup. lia. }
    split; [nia|]. split; [|split; [nia|]].
    + rewrite Z.abs_eq by nia. nia.
    + exists q, r. split; [lia|]. split; [exact HrP|]. right. split; [reflexivity | exact Hrh].
  - assert (Hrh : (r <= half)%Z).
    { apply orb_false_iff in Hup. destruct Hup as [Hup _]. apply Z.ltb_ge in Hup. exact Hup. }
    split; [nia|]. split; [|split; [nia|]].
    + rewrite Z.abs_neq by nia. nia.
    + exists q, r. split; [lia|]. split; [exact HrP|]. left. reflexivity.
Qed.

(** The byte counts that convert: all below 2^1024 - 2^970. *)
Lemma round_to_53_bits_no_overflow (m : Z) :
  (0 <= m < 2 ^ 1024 - 2 ^ 970)%Z -> (round_to_53_bits m < 2 ^ 1024)%Z.
Proof.
  intros [Hlo Hhi].
  assert (H1024 : (0 < 2 ^ 970)%Z) by (apply Z.pow_pos_nonneg; lia).
  destruct (Z.lt_ge_cases m (2 ^ 53)) as [Hsmall | Hlarge].
  { rewrite round_to_53_bits_small by lia. lia. }
  assert (Hpos : (0 < m)%Z).
  { assert (0 < 2 ^ 53)%Z by (apply Z.pow_pos_nonneg; lia). lia. }
  destruct (round_to_53_bits_large m Hlarge) as (_ & _ & Hle & q & r & Hm & Hr & Hcases).
  assert (HL : (Z.log2 m < 1024)%Z) by (apply Z.log2_lt_pow2; [exact Hpos | lia]).
  destruct (Z.lt_ge_cases (Z.log2 m) 1023) as [Hbelow | Htop].
  - assert (2 ^ (Z.log2 m + 1) <= 2 ^ 1023)%Z by (apply Z.pow_le_mono_r; lia).
    assert (2 ^ 1023 < 2 ^ 1024)%Z by (apply Z.pow_lt_mono_r; lia).
    lia.
  - assert (E : Z.log2 m = 1023%Z) by lia.
    rewrite E in Hm, Hr, Hcases.
    change (1023 - 52)%Z with 971%Z in *. change (1023 - 53)%Z with 970%Z in *.
    assert (HP : (2 ^ 971 = 2 * 2 ^ 970)%Z) by reflexivity.
    assert (HT : (2 ^ 1024 = 9007199254740992 * 2 ^ 971)%Z) by reflexivity.
    rewrite HT in *. rewrite HP in *.
    set (half := (2 ^ 970)%Z) in *.
    destruct Hcases as [-> | [-> Hrh]]; nia.
Qed.

Lemma float_of_int_exact (n : Z) :
  (0 <= n < 2 ^ 53)%Z -> float_of_int n = Some (inject_Z n).
Proof.
  intros Hn. unfold float_of_int. cbv zeta.
  rewrite Z.abs_eq by lia. rewrite round_to_53_bits_small by exact Hn.
  assert (2 ^ 53 < 2 ^ 1024)%Z by (apply Z.pow_lt_mono_r; lia).
  destruct (Z.ltb_spec n (2 ^ 1024)) as [_ | Hge]; [|lia].
  do 2 f_equal. destruct (Z.eq_dec n 0) as [-> | Hne]; [reflexivity|].
  rewrite Z.sgn_pos by lia. lia.
Qed.

Lemma float_of_int_rounded (n : Z) :
  (2 ^ 53 <= n < 2 ^ 1024 - 2 ^ 970)%Z ->
  exists x : Z,
    float_of_int n = Some (inject_Z x) /\
    (2 ^ 53 <= x)%Z /\ (Z.abs (x - n) * 2 ^ 53 <= n)%Z.
Proof.
  intros [Hlo Hhi].
  assert (Hpos : (0 < n)%Z).
  { assert (0 < 2 ^ 53)%Z by (apply Z.pow_pos_nonneg; lia). lia. }
  exists (round_to_53_bits n).
  destruct (round_to_53_bits_large n Hlo) as (H53 & Herr & _).
  split; [|split; assumption].
  unfold float_of_int. cbv zeta. rewrite Z.abs_eq by lia.
  pose proof (round_to_53_bits_no_overflow n (conj (Z.lt_le_incl _ _ Hpos) Hhi)) as Hno.
  destruct (Z.ltb_spec (round_to_53_bits n) (2 ^ 1024)) as [_ | Hge]; [|lia].
  rewrite Z.sgn_pos by lia. do 2 f_equal. lia.
Qed.

(** The first byte count that does not convert. *)
Lemma float_of_int_overflow : float_of_int (2 ^ 1024 - 2 ^ 970) = None.
Proof. vm_compute. reflexivity. Qed.

(** What the conversion gives for a byte count that converts: the count
    itself below 2^53; above, an integer that is 2^53 or more and within
    the 2^53-th part of the count. *)
Lemma float_of_int_spec (n : Z) :
  (0 <= n < 2 ^ 1024 - 2 ^ 970)%Z ->
  exists x : Z,
    float_of_int n = Some (inject_Z x) /\
    ((n < 2 ^ 53)%Z -> x = n) /\
    ((2 ^ 53 <= n)%Z -> (2 ^ 53 <= x)%Z) /\
    (Z.abs (x - n) * 2 ^ 53 <= n)%Z.
Proof.
  intros [Hlo Hhi].
  destruct (Z.lt_ge_cases n (2 ^ 53)) as [Hsmall | Hlarge].
  - exists n. split; [apply float_of_int_exact; lia|].
    split; [reflexivity|]. split; [lia|].
    rewrite Z.sub_diag. cbn [Z.abs Z.mul]. exact Hlo.
  - destruct (float_of_int_rounded n (conj Hlarge Hhi)) as (x & Hx & H53 & Herr).
    exists x. split; [exact Hx|]. split; [lia|]. split; [intros _; exact H53 | exact Herr].
Qed.

Lemma string_app_assoc (a b c : string) : ((a ++ b) ++ c = a ++ (b ++ c))%string.
Proof.
  induction a as [|x a IH]; [reflexivity|].
  cbn [append]. rewrite IH. reflexivity.
Qed.

(** A float that is the byte count, or is 2^53 or more like the count,
    stands on the same side of every threshold up to 2^53 as the count. *)
Lemma threshold_transfer (n x t : Z) :
  ((n < 2 ^ 53)%Z -> x = n) -> ((2 ^ 53 <= n)%Z -> (2 ^ 53 <= x)%Z) ->
  (t <= 2 ^ 53)%Z ->
  inject_Z x < inject_Z t <-> (n < t)%Z.
Proof.
  intros Hsmall Hlarge Ht. rewrite <- Zlt_Qlt.
  destruct (Z.lt_ge_cases n (2 ^ 53)) as [H | H].
  - rewrite (Hsmall H). tauto.
  - specialize (Hlarge H). lia.
Qed.

Lemma pow_1024_le (j : nat) : (j <= 4)%nat -> (1024 ^ Z.of_nat (S j) <= 2 ^ 53)%Z.
Proof.
  intros Hj.
  assert (E : (1024 ^ Z.of_nat (S j) <= 1024 ^ 5)%Z) by (apply Z.pow_le_mono_r; lia).
  assert (E' : (1024 ^ 5 <= 2 ^ 53)%Z) by (vm_compute; discriminate).
  lia.
Qed.

(** The distance of the digits from the quotient of the byte count, given
    their distance from the quotient of the float. *)
Lemma shown_close (s X N T : Q) :
  0 < T -> 0 <= N ->
  Qabs (X - N) * inject_Z (2 ^ 53) <= N ->
  Qabs (s - X / T) <= 1 # 200 ->
  Qabs (s - N / T) <= (1 # 200) + N / T / inject_Z (2 ^ 53).
Proof.
  intros HT HN Herr Hs.
  change (inject_Z (2 ^ 53)) with (9007199254740992 # 1) in *.
  assert (Hti : 0 < / T) by (apply Qinv_lt_0_compat; exact HT).
  unfold Qdiv in *. change (/ (9007199254740992 # 1)) with (1 # 9007199254740992).
  assert (Hup : (X - N) * / T <= N * (1 # 9007199254740992) * / T).
  { apply Qmult_le_compat_r; [|apply Qlt_le_weak; exact Hti].
    revert Herr. apply Qabs_case; intros; Lqa.lra. }
  assert (Hdown : (N - X) * / T <= N * (1 # 9007199254740992) * / T).
  { apply Qmult_le_compat_r; [|apply Qlt_le_weak; exact Hti].
    revert Herr. apply Qabs_case; intros; Lqa.lra. }
  assert (E1 : (X - N) * / T == X * / T - N * / T) by ring.
  assert (E2 : (N - X) * / T == N * / T - X * / T) by ring.
  assert (E3 : N * (1 # 9007199254740992) * / T == N * / T * (1 # 9007199254740992)) by ring.
  rewrite E1, E3 in Hup. rewrite E2, E3 in Hdown.
  clear E1 E2 E3 Herr.
  set (u := X * / T) in *. set (w := N * / T) in *. clearbody u w.
  revert Hs. apply Qabs_case; intros; apply Qabs_case; intros; Lqa.lra.
Qed.




End FormatSizeFacts.

(** ** print_tree *)

Section PrintTreeFacts.

Import ViewResults.

(** A file system that never ends: every path names a directory that
    holds one directory. *)
Example print_tree_endless :
  print_tree (fun _ => Dir ["d"]) "results" EmptyString 4 0
  = [Iterdir "results"; Print "└── d";
     Iterdir "results/d"; Print "    └── d";
     Iterdir "results/d/d"; Print "        └── d";
     Iterdir "results/d/d/d"; Print "            └── d"].
Proof. reflexivity. Qed.

(** Entries that are listed and cannot be looked at: [is_file()] raises
    in the sort, and the level prints nothing. *)
Example print_tree_unreachable_entries :
  print_tree example_tree_unreachable "top" EmptyString 4 0 = [Iterdir "top"].
Proof. reflexivity. Qed.

Lemma in_for_until_raise {A : Type} (body : A -> list event * bool) (l : list A) (e : event) :
  In e (for_until_raise body l) -> exists a : A, In a l /\ In e (fst (body a)).
Proof.
  induction l as [|a l IH]; cbn [for_until_raise]; [intros []|].
  destruct (snd (body a)).
  - intros H. exists a. split; [left; reflexivity | exact H].
  - intros H. apply in_app_or in H. destruct H as [H | H].
    + exists a. split; [left; reflexivity | exact H].
    + destruct (IH H) as (b & Hb & He). exists b. split; [right; exact Hb | exact He].
Qed.

Lemma print_tree_at_max_depth (fs : filesystem) (directory prefix : string)
    (max_depth current_depth : nat) :
  max_depth <= current_depth ->
  print_tree fs directory prefix max_depth current_depth = [].
Proof.
  intros Hle. simp print_tree.
  destruct (le_lt_dec max_depth current_depth) as [Hge | Hlt]; [reflexivity | lia].
Qed.

Lemma print_tree_lists_below (fs : filesystem) (directory prefix : string)
    (max_depth current_depth : nat) (p : string) :
  In (Iterdir p) (print_tree fs directory prefix max_depth current_depth) ->
  exists names : list string,
    p = fold_left joinpath names directory /\
    current_depth + List.length names < max_depth.
Proof.
  funelim (print_tree fs directory prefix max_depth current_depth).
  - intros [].
  - intros [Hhere | Hbelow].
    + injection Hhere as Hp. subst p. exists []. simpl. split; [reflexivity | lia].
    + destruct (iterdir fs directory) as [names|]; [|destruct Hbelow].
      destruct (sorted_entries fs directory names) as [entries|]; [|destruct Hbelow].
      apply in_for_until_raise in Hbelow. destruct Hbelow as ([i name] & _ & Hin).
      destruct (is_dir fs (joinpath directory name)) as [[|]|];
        cbn [fst] in Hin.
      * destruct Hin as [Hprint | Hin]; [discriminate Hprint|].
        destruct (H names entries (i, name) i name true p Hin) as (rest & -> & Hlen).
        exists (name :: rest). simpl. split; [reflexivity | lia].
      * destruct Hin as [Hprint | []]. discriminate Hprint.
      * destruct Hin as [Hprint | []]. discriminate Hprint.
Qed.


End PrintTreeFacts.

(** ** check_dataset *)

Section CheckDatasetFacts.

Import CheckDataset.

(** Where [os.stat] answers, the flag of [check_directory] tells whether
    a directory stands at the path. *)
Lemma check_directory_answer (fs : filesystem) (path : string) :
  path_exists fs path <> PermissionError ->
  exists total wav csv : nat,
    check_directory fs path = Answer (negb (missing fs path), total, wav, csv).
Proof.
  unfold check_directory, path_exists, is_dir, missing.
  destruct (fs path); cbn [behind negb]; intros H; try congruence; eauto.
Qed.

Lemma check_directory_raises (fs : filesystem) (path : string) :
  path_exists fs path = PermissionError -> check_directory fs path = PermissionError.
Proof. unfold check_directory. intros ->. reflexivity. Qed.

Lemma statuses_app (l1 l2 : list string) :
  statuses (l1 ++ l2) = (statuses l1 ++ statuses l2)%list.
Proof.
  induction l1 as [|line l1 IH]; [reflexivity|].
  cbn [app statuses]. destruct (status_of line); rewrite IH; reflexivity.
Qed.

(** One round of the loop, for a directory that can be looked at: one
    more line, which reads as the status of the directory under its
    relative path. *)
Lemma check_experiment_status (fs : filesystem) (st : state) (e : string * string) :
  In e experiments ->
  path_exists fs ("MedleyDB-Pitch-Experiments/" ++ fst e) <> PermissionError ->
  exists (st' : state) (line : string),
    check_experiment fs st e = Answer st' /\
    stdout st' = (stdout st ++ [line])%list /\
    status_of line
    = Some (negb (missing fs ("MedleyDB-Pitch-Experiments/" ++ fst e)), fst e) /\
    all_ok st' = all_ok st && negb (missing fs ("MedleyDB-Pitch-Experiments/" ++ fst e)).
Proof.
  intros Hin Hreach. destruct e as [rel_path desc]. cbn [fst] in *.
  destruct (check_directory_answer fs _ Hreach) as (total & wav & csv & Hcheck).
  unfold check_experiment. rewrite Hcheck.
  destruct (missing fs ("MedleyDB-Pitch-Experiments/" ++ rel_path)); cbn [negb].
  - eexists. eexists. split; [reflexivity|].
    split; [reflexivity|]. split; [|cbn; rewrite andb_false_r; reflexivity].
    unfold experiments in Hin.
    repeat (destruct Hin as [E | Hin]; [injection E as <- <-; reflexivity|]).
    destruct Hin.
  - destruct (0 <? wav)%nat; [|destruct (0 <? csv)%nat];
      (eexists; eexists; split; [reflexivity|];
       split; [reflexivity|]; split; [|cbn; rewrite andb_true_r; reflexivity];
       unfold experiments in Hin;
       repeat (destruct Hin as [E | Hin]; [injection E as <- <-; reflexivity|]);
       destruct Hin).
Qed.

(** The loop, over directories that can all be looked at: it runs to its
    end, and what it prints reads as the status of each, in order. *)
Lemma check_experiments_statuses (fs : filesystem) (exps : list (string * string)) :
  incl exps experiments ->
  (forall e, In e exps ->
     path_exists fs ("MedleyDB-Pitch-Experiments/" ++ fst e) <> PermissionError) ->
  forall st : state,
    exists (st' : state) (lines : list string),
      check_experiments fs exps st = Done st' /\
      stdout st' = (stdout st ++ lines)%list /\
      statuses lines
      = map (fun e => (negb (missing fs ("MedleyDB-Pitch-Experiments/" ++ fst e)), fst e)) exps /\
      all_ok st'
      = all_ok st
        && forallb (fun e => negb (missing fs ("MedleyDB-Pitch-Experiments/" ++ fst e))) exps.
Proof.
  induction exps as [|e exps IH]; intros Hincl Hreach st.
  - exists st, []. cbn. rewrite app_nil_r, andb_true_r. auto.
  - destruct (check_experiment_status fs st e) as (st1 & line & Hstep & Hout & Hstatus & Hok).
    { apply Hincl. left. reflexivity. }
    { apply Hreach. left. reflexivity. }
    destruct (IH (fun x Hx => Hincl x (or_intror Hx)) (fun x Hx => Hreach x (or_intror Hx)) st1)
      as (st' & lines & Hloop & Hout' & Hstatuses & Hok').
    exists st', (line :: lines). cbn [check_experiments]. rewrite Hstep.
    split; [exact Hloop|]. split; [|split].
    + rewrite Hout', Hout, <- app_assoc. reflexivity.
    + cbn [statuses map]. rewrite Hstatus, Hstatuses. reflexivity.
    + rewrite Hok', Hok. cbn [forallb]. rewrite andb_assoc. reflexivity.
Qed.

Lemma forallb_of_map {A B : Type} (f : B -> bool) (g : A -> B) (l : list A) :
  forallb f (map g l) = forallb (fun x => f (g x)) l.
Proof.
  induction l as [|x l IH]; [reflexivity|]. cbn [map forallb]. rewrite IH. reflexivity.
Qed.


Example check_dataset_complete : snd (main example_dataset) = 0%Z.
Proof. reflexivity. Qed.

(** Seven directories are missing, and each of the eight is reported. *)
Example check_dataset_incomplete :
  main (fun path => if String.eqb path "MedleyDB-Pitch-Experiments/pitch"
                    then Dir ["track1.csv"] else Missing)
  = ([ str_repeat "=" 70; "数据集结构检查"; str_repeat "=" 70; EmptyString;
       "【MedleyDB-Pitch】"; str_repeat "-" 70;
       "✗ audio/         缺失";
       "✗ pitch/         缺失";
       EmptyString; "【MedleyDB-Pitch-Experiments】"; str_repeat "-" 70;
       "✗ distortion/audio               缺失";
       "✗ noise/5db/audio                缺失";
       "✗ noise/15db/audio               缺失";
       "✗ pitch_shift/25cents/audio      缺失";
       "✗ pitch_shift/50cents/audio      缺失";
       "✓ pitch                          存在 - 1 个CSV文件";
       EmptyString; str_repeat "=" 70;
       "✗ 发现缺失的目录！"; EmptyString; "请检查上述标记为 ✗ 的目录。" ],
     1%Z).
Proof. reflexivity. Qed.



End CheckDatasetFacts.

(** ** The batch driver *)

Section BatchDriverFacts.

Import EvaluateBasicPitch.

Variable evaluate : PitchEvaluator -> config -> filesystem -> outcome * filesystem.

Lemma condition_body_shape (evaluator : PitchEvaluator) (exp_name : string) (c : config)
    (fs : filesystem) :
  body_shape evaluator exp_name c
    (fst (fst (condition_body evaluate evaluator exp_name c fs)))
    (snd (fst (condition_body evaluate evaluator exp_name c fs))).
Proof.
  unfold condition_body.
  destruct (path_exists fs (prediction_dir c)) as [[|]|].
  - destruct (List.length (glob_suffix fs (prediction_dir c) ".csv") =? 0)%nat.
    { apply ShapeSkipped. right. reflexivity. }
    destruct (evaluate evaluator c fs) as [[|[message | message]] fs']; cbn [fst snd app].
    + apply ShapeEvaluated.
    + apply ShapeCaught.
    + apply ShapeEscaped.
  - apply ShapeSkipped. left. reflexivity.
  - apply ShapeDenied.
Qed.

Lemma for_each_condition_cons (evaluator : PitchEvaluator) (exp_name : string) (c : config)
    (rest : list (string * config)) (fs : filesystem) :
  for_each_condition evaluate evaluator ((exp_name, c) :: rest) fs
  = match condition_body evaluate evaluator exp_name c fs with
    | (events, Some e, fs') => (events, Some e, fs')
    | (events, None, fs') =>
        ((events ++ fst (fst (for_each_condition evaluate evaluator rest fs')))%list,
         snd (fst (for_each_condition evaluate evaluator rest fs')),
         snd (for_each_condition evaluate evaluator rest fs'))
    end.
Proof.
  cbn [for_each_condition].
  destruct (condition_body evaluate evaluator exp_name c fs) as [[events [e|]] fs'];
    [reflexivity|].
  destruct (for_each_condition evaluate evaluator rest fs') as [[events' r] fs''].
  reflexivity.
Qed.

Lemma conditions_handled_app (t1 t2 : list event) :
  conditions_handled (t1 ++ t2) = (conditions_handled t1 ++ conditions_handled t2)%list.
Proof.
  induction t1 as [|e t1 IH]; [reflexivity|].
  cbn [app conditions_handled]. destruct (condition_of e); rewrite IH; reflexivity.
Qed.

Lemma evaluators_called_app (t1 t2 : list event) :
  evaluators_called (t1 ++ t2) = (evaluators_called t1 ++ evaluators_called t2)%list.
Proof.
  induction t1 as [|e t1 IH]; [reflexivity|].
  destruct e; cbn [app evaluators_called]; rewrite IH; reflexivity.
Qed.

Lemma evaluators_constructed_app (t1 t2 : list event) :
  evaluators_constructed (t1 ++ t2)
  = (evaluators_constructed t1 ++ evaluators_constructed t2)%list.
Proof.
  induction t1 as [|e t1 IH]; [reflexivity|].
  destruct e; cbn [app evaluators_constructed]; rewrite IH; reflexivity.
Qed.

Lemma configs_called_app (t1 t2 : list event) :
  configs_called (t1 ++ t2) = (configs_called t1 ++ configs_called t2)%list.
Proof.
  induction t1 as [|e t1 IH]; [reflexivity|].
  destruct e; cbn [app configs_called]; rewrite IH; reflexivity.
Qed.

Lemma calls_app (t1 t2 : list event) :
  calls (t1 ++ t2) = (calls t1 ++ calls t2)%list.
Proof.
  induction t1 as [|e t1 IH]; [reflexivity|].
  destruct e; cbn [app calls]; rewrite IH; reflexivity.
Qed.

Lemma configs_called_calls (t : list event) : configs_called t = map snd (calls t).
Proof.
  induction t as [|e t IH]; [reflexivity|].
  destruct e; cbn [configs_called calls map snd]; rewrite IH; reflexivity.
Qed.

(** Each way through the body handles the condition once, unless the
    look at its prediction directory raises; it constructs no evaluator,
    and calls [evaluate] at most once, on the evaluator of the loop and
    with the configuration of the condition. *)
Lemma body_shape_trace (evaluator : PitchEvaluator) (exp_name : string) (c : config)
    (events : list event) (r : option raised) :
  body_shape evaluator exp_name c events r ->
  (conditions_handled events = [exp_name]
   \/ events = [] /\ r = Some (permission_error (prediction_dir c))) /\
  evaluators_constructed events = [] /\
  (calls events = [] \/ calls events = [(evaluator, c)]).
Proof.
  intros [report [-> | ->] | n | n message | n message |]; cbn; auto.
Qed.

Lemma for_each_condition_trace (evaluator : PitchEvaluator) (exps : list (string * config)) :
  forall fs : filesystem,
    evaluators_constructed (fst (fst (for_each_condition evaluate evaluator exps fs))) = [] /\
    Forall (fun call => fst call = evaluator /\ In (snd call) (map snd exps))
      (calls (fst (fst (for_each_condition evaluate evaluator exps fs)))).
Proof.
  induction exps as [|[exp_name c] rest IH]; intros fs.
  - cbn. auto.
  - rewrite for_each_condition_cons.
    pose proof (condition_body_shape evaluator exp_name c fs) as Hshape.
    destruct (condition_body evaluate evaluator exp_name c fs) as [[events r] fs'].
    cbn [fst snd] in Hshape.
    destruct (body_shape_trace _ _ _ _ _ Hshape) as (_ & Hnew & Hcalled).
    assert (Hhere : Forall (fun call => fst call = evaluator
                                        /\ In (snd call) (map snd ((exp_name, c) :: rest)))
                      (calls events)).
    { destruct Hcalled as [-> | ->]; [constructor|].
      constructor; [|constructor]. cbn. auto. }
    destruct r as [e|]; cbn [fst snd]; [auto|].
    destruct (IH fs') as [IHnew IHcalled].
    rewrite evaluators_constructed_app, calls_app, Hnew, IHnew.
    split; [reflexivity|]. apply Forall_app. split; [exact Hhere|].
    eapply Forall_impl; [|exact IHcalled].
    intros call [Hev Hin]. split; [exact Hev | right; exact Hin].
Qed.

(** The loop on prediction directories that can be looked at and that
    [evaluate] leaves as they are, with an [evaluate] that raises nothing
    but instances of [Exception]: it runs to its end, handles every
    condition in order, and calls [evaluate] for those whose directory
    holds a CSV file. *)
Lemma for_each_condition_runs (evaluator : PitchEvaluator) (fs : filesystem)
    (dirs : list string) :
  (forall ev c fs0 fs1 message, evaluate ev c fs0 <> (Raises (ABaseException message), fs1)) ->
  (forall ev c fs0 path, In path dirs -> snd (evaluate ev c fs0) path = fs0 path) ->
  (forall path, In path dirs -> reachable fs path) ->
  forall (exps : list (string * config)) (fs0 : filesystem),
    (forall e, In e exps -> In (prediction_dir (snd e)) dirs) ->
    (forall path, In path dirs -> fs0 path = fs path) ->
    snd (fst (for_each_condition evaluate evaluator exps fs0)) = None /\
    conditions_handled (fst (fst (for_each_condition evaluate evaluator exps fs0)))
    = map fst exps /\
    calls (fst (fst (for_each_condition evaluate evaluator exps fs0)))
    = map (fun e => (evaluator, snd e))
          (filter (fun e => holds_csv fs (prediction_dir (snd e))) exps) /\
    forall path, In path dirs ->
      snd (for_each_condition evaluate evaluator exps fs0) path = fs path.
Proof.
  intros Hexc Hkeep Hreach.
  induction exps as [|[exp_name c] rest IH]; intros fs0 Hdirs Hagree.
  - cbn. auto.
  - rewrite for_each_condition_cons.
    assert (Hin : In (prediction_dir c) dirs) by exact (Hdirs (exp_name, c) (or_introl eq_refl)).
    assert (Hnode : fs0 (prediction_dir c) = fs (prediction_dir c)) by (apply Hagree, Hin).
    pose proof (Hreach _ Hin) as Hr.
    cbn [filter snd map fst].
    unfold condition_body, holds_csv, glob_suffix, reachable, path_exists in *.
    rewrite Hnode.
    assert (Hrest : forall fs1 : filesystem,
              (forall path, In path dirs -> fs1 path = fs path) ->
              snd (fst (for_each_condition evaluate evaluator rest fs1)) = None /\
              conditions_handled (fst (fst (for_each_condition evaluate evaluator rest fs1)))
              = map fst rest /\
              calls (fst (fst (for_each_condition evaluate evaluator rest fs1)))
              = map (fun e => (evaluator, snd e))
                    (filter (fun e =>
                               negb (List.length
                                       match fs (prediction_dir (snd e)) with
                                       | Dir names => filter (fun n => endswith n ".csv") names
                                       | _ => []
                                       end =? 0)%nat) rest) /\
              forall path, In path dirs ->
                snd (for_each_condition evaluate evaluator rest fs1) path = fs path).
    { intros fs1 H1. apply IH; [intros e He; apply Hdirs; right; exact He | exact H1]. }
    destruct (fs (prediction_dir c)) as [| size | names | | | hidden];
      try (cbn [List.length Nat.eqb negb fst snd];
           destruct (Hrest fs0 Hagree) as (H1 & H2 & H3 & H4);
           rewrite conditions_handled_app, calls_app, H2, H3; cbn; auto; fail).
    + destruct (List.length (filter (fun n => endswith n ".csv") names) =? 0)%nat eqn:Hlen;
        cbn [negb].
      * destruct (Hrest fs0 Hagree) as (H1 & H2 & H3 & H4).
        cbn [fst snd]. rewrite conditions_handled_app, calls_app, H2, H3. cbn. auto.
      * assert (Hafter : forall path, In path dirs ->
                  snd (evaluate evaluator c fs0) path = fs path).
        { intros path Hpath. rewrite Hkeep by exact Hpath. apply Hagree, Hpath. }
        destruct (evaluate evaluator c fs0) as [[|[message | message]] fs1] eqn:E;
          cbn [snd] in Hafter.
        -- destruct (Hrest fs1 Hafter) as (H1 & H2 & H3 & H4).
           cbn [fst snd]. rewrite conditions_handled_app, calls_app, H2, H3. cbn. auto.
        -- destruct (Hrest fs1 Hafter) as (H1 & H2 & H3 & H4).
           cbn [fst snd]. rewrite conditions_handled_app, calls_app, H2, H3. cbn. auto.
        -- exfalso. exact (Hexc _ _ _ _ _ E).
    + exfalso. apply Hr. reflexivity.
Qed.

(** When [evaluate] raises nothing but instances of [Exception] and the
    prediction directories can be looked at throughout, the loop runs to
    its end and handles every condition, in order. *)
Lemma for_each_condition_completes (evaluator : PitchEvaluator) (dirs : list string) :
  (forall ev c fs0 fs1 message, evaluate ev c fs0 <> (Raises (ABaseException message), fs1)) ->
  (forall ev c fs0 path,
     In path dirs -> reachable fs0 path -> reachable (snd (evaluate ev c fs0)) path) ->
  forall (exps : list (string * config)) (fs : filesystem),
    (forall e, In e exps -> In (prediction_dir (snd e)) dirs) ->
    (forall path, In path dirs -> reachable fs path) ->
    snd (fst (for_each_condition evaluate evaluator exps fs)) = None /\
    conditions_handled (fst (fst (for_each_condition evaluate evaluator exps fs)))
    = map fst exps.
Proof.
  intros Hexc Hkeep. induction exps as [|[exp_name c] rest IH]; intros fs Hdirs Hreach.
  - cbn. auto.
  - rewrite for_each_condition_cons.
    assert (Hin : In (prediction_dir c) dirs) by exact (Hdirs (exp_name, c) (or_introl eq_refl)).
    assert (Hrest : forall fs1 : filesystem,
              (forall path, In path dirs -> reachable fs1 path) ->
              snd (fst (for_each_condition evaluate evaluator rest fs1)) = None /\
              conditions_handled (fst (fst (for_each_condition evaluate evaluator rest fs1)))
              = map fst rest).
    { intros fs1 H1. apply IH; [intros e He; apply Hdirs; right; exact He | exact H1]. }
    pose proof (Hreach _ Hin) as Hr. unfold reachable in Hr.
    unfold condition_body.
    destruct (path_exists fs (prediction_dir c)) as [[|]|]; [| |congruence].
    + destruct (List.length (glob_suffix fs (prediction_dir c) ".csv") =? 0)%nat.
      { destruct (Hrest fs Hreach) as [H1 H2].
        cbn [fst snd map]. rewrite conditions_handled_app, H2. auto. }
      assert (Hafter : forall path, In path dirs ->
                reachable (snd (evaluate evaluator c fs)) path).
      { intros path Hpath. apply Hkeep; [exact Hpath | apply Hreach, Hpath]. }
      destruct (evaluate evaluator c fs) as [[|[message | message]] fs1] eqn:E;
        cbn [snd] in Hafter.
      * destruct (Hrest fs1 Hafter) as [H1 H2].
        cbn [fst snd map]. rewrite conditions_handled_app, H2. auto.
      * destruct (Hrest fs1 Hafter) as [H1 H2].
        cbn [fst snd map]. rewrite conditions_handled_app, H2. auto.
      * exfalso. exact (Hexc _ _ _ _ _ E).
    + destruct (Hrest fs Hreach) as [H1 H2].
      cbn [fst snd map]. rewrite conditions_handled_app, H2. auto.
Qed.


(** C2. A condition whose prediction directory is found not to exist, or
    is found and holds no CSV file, is reported as skipped by one print,
    [evaluate] is not called for it and the file system is left as it
    was, and the loop goes on with the conditions that remain. *)
Theorem skipped_condition_is_not_evaluated (evaluator : PitchEvaluator) (exp_name : string)
    (c : config) (rest : list (string * config)) (fs : filesystem) :
  path_exists fs (prediction_dir c) = Answer false
  \/ (path_exists fs (prediction_dir c) = Answer true
      /\ glob_suffix fs (prediction_dir c) ".csv" = []) ->
  exists report : event,
    (path_exists fs (prediction_dir c) = Answer false
     /\ report = PrintSkipNotFound exp_name (prediction_dir c)
     \/ path_exists fs (prediction_dir c) = Answer true
        /\ report = PrintSkipNoFiles exp_name (prediction_dir c)) /\
    condition_body evaluate evaluator exp_name c fs = ([report], None, fs) /\
    for_each_condition evaluate evaluator ((exp_name, c) :: rest) fs
    = (report :: fst (fst (for_each_condition evaluate evaluator rest fs)),
       snd (fst (for_each_condition evaluate evaluator rest fs)),
       snd (for_each_condition evaluate evaluator rest fs)).
Proof.
  intros Hskip.
  assert (Hbody : exists report : event,
            (path_exists fs (prediction_dir c) = Answer false
             /\ report = PrintSkipNotFound exp_name (prediction_dir c)
             \/ path_exists fs (prediction_dir c) = Answer true
                /\ report = PrintSkipNoFiles exp_name (prediction_dir c)) /\
            condition_body evaluate evaluator exp_name c fs = ([report], None, fs)).
  { unfold condition_body.
    destruct Hskip as [Hno | [Hyes Hempty]].
    - rewrite Hno. eauto.
    - rewrite Hyes, Hempty. cbn [List.length Nat.eqb]. eauto. }
  destruct Hbody as (report & Hreport & Hbody).
  exists report. split; [exact Hreport|]. split; [exact Hbody|].
  rewrite for_each_condition_cons, Hbody. reflexivity.
Qed.


End BatchDriverFacts.

(** *** The driver on the example file systems *)

Section BatchDriverExamples.

Import EvaluateBasicPitch.

(** Every evaluation fails: the one condition that has prediction files
    is evaluated, its error is printed, and the five others are handled
    after it. *)
Example main_with_a_failing_evaluation :
  main evaluate_failing example_fs
  = ([ NewEvaluator 50; PrintBanner;
       PrintEvaluating "clean" 1;
       CallEvaluate {| pitch_tolerance := 50 |}
         {| prediction_dir := "results/predictions/basic_pitch_normalized/clean";
            ground_truth_dir := "MedleyDB-Pitch/pitch";
            output_path := "results/metrics/basic_pitch_clean.csv" |};
       PrintError "clean" "no ground truth"; PrintTraceback;
       PrintSkipNoFiles "distortion" "results/predictions/basic_pitch_normalized/distortion";
       PrintSkipNotFound "noise_5db" "results/predictions/basic_pitch_normalized/noise/5db";
       PrintSkipNotFound "noise_15db" "results/predictions/basic_pitch_normalized/noise/15db";
       PrintSkipNotFound "pitch_shift_25cents"
         "results/predictions/basic_pitch_normalized/pitch_shift/25cents";
       PrintSkipNotFound "pitch_shift_50cents"
         "results/predictions/basic_pitch_normalized/pitch_shift/50cents";
       PrintComplete ],
     None, example_fs).
Proof. reflexivity. Qed.



(** The distortion condition of the example, whose prediction directory
    is empty, followed by the four conditions after it. *)
Lemma skipped_condition_is_not_evaluated_witness :
  exists report : event,
    (path_exists example_fs "results/predictions/basic_pitch_normalized/distortion"
     = Answer false
     /\ report = PrintSkipNotFound "distortion"
                   "results/predictions/basic_pitch_normalized/distortion"
     \/ path_exists example_fs "results/predictions/basic_pitch_normalized/distortion"
        = Answer true
        /\ report = PrintSkipNoFiles "distortion"
                      "results/predictions/basic_pitch_normalized/distortion") /\
    condition_body evaluate_failing {| pitch_tolerance := 50 |} "distortion"
      {| prediction_dir := "results/predictions/basic_pitch_normalized/distortion";
         ground_truth_dir := "MedleyDB-Pitch-Experiments/pitch";
         output_path := "results/metrics/basic_pitch_distortion.csv" |} example_fs
    = ([report], None, example_fs) /\
    for_each_condition evaluate_failing {| pitch_tolerance := 50 |}
      (("distortion",
        {| prediction_dir := "results/predictions/basic_pitch_normalized/distortion";
           ground_truth_dir := "MedleyDB-Pitch-Experiments/pitch";
           output_path := "results/metrics/basic_pitch_distortion.csv" |})
       :: skipn 2 experiments) example_fs
    = (report
         :: fst (fst (for_each_condition evaluate_failing {| pitch_tolerance := 50 |}
                        (skipn 2 experiments) example_fs)),
       snd (fst (for_each_condition evaluate_failing {| pitch_tolerance := 50 |}
                   (skipn 2 experiments) example_fs)),
       snd (for_each_condition evaluate_failing {| pitch_tolerance := 50 |}
              (skipn 2 experiments) example_fs)).
Proof.
  apply (skipped_condition_is_not_evaluated evaluate_failing {| pitch_tolerance := 50 |}
           "distortion"
           {| prediction_dir := "results/predictions/basic_pitch_normalized/distortion";
              ground_truth_dir := "MedleyDB-Pitch-Experiments/pitch";
              output_path := "results/metrics/basic_pitch_distortion.csv" |}
           (skipn 2 experiments) example_fs).
  right. split; reflexivity.
Defined.

(** C2, as stated, fails where the prediction directories cannot be
    reached: the directory of the first condition does not exist, and
    instead of the skip being reported the [PermissionError] of
    [pred_dir.exists()] ends the run: nothing is printed after the
    banner, and no condition is handled. *)
Lemma an_unreachable_directory_is_not_skipped :
  behind (example_fs_unreachable "results/predictions/basic_pitch_normalized/clean") = Missing /\
  main evaluate_failing example_fs_unreachable
  = ([NewEvaluator 50; PrintBanner],
     Some (permission_error "results/predictions/basic_pitch_normalized/clean"),
     example_fs_unreachable) /\
  conditions_handled (fst (fst (main evaluate_failing example_fs_unreachable))) = [].
Proof. split; [reflexivity|]. split; reflexivity. Qed.


End BatchDriverExamples.

(** ** Tables: what keeps the [filename] cells of the rows *)

Section PandasFacts.

Import Pandas.

Lemma bind_ok {A B : Type} (m : result A) (k : A -> result B) (b : B) :
  bind m k = Ok b -> exists a : A, m = Ok a /\ k a = Ok b.
Proof.
  destruct m as [a | e]; cbn [bind]; intros H; [eauto | discriminate].
Qed.

Lemma mapM_ok {A B : Type} (f : A -> result B) (l : list A) :
  forall bs : list B, mapM f l = Ok bs -> Forall2 (fun a b => f a = Ok b) l bs.
Proof.
  induction l as [|a l IH]; cbn [mapM]; intros bs H.
  - injection H as <-. constructor.
  - apply bind_ok in H. destruct H as (b & Hb & H).
    apply bind_ok in H. destruct H as (bs' & Hbs & H).
    injection H as <-. constructor; auto.
Qed.

Lemma get_cons (k c : string) (v : cell) (r : row) :
  get ((k, v) :: r) c = if String.eqb k c then v else get r c.
Proof.
  unfold get. cbn [find fst]. destruct (String.eqb k c); reflexivity.
Qed.

Lemma get_nil (c : string) : get [] c = NaN.
Proof. reflexivity. Qed.

Lemma get_set_other (r : row) (c k : string) (v : cell) :
  c <> k -> get (set r c v) k = get r k.
Proof.
  intros Hne. induction r as [|[k' w] r IH]; cbn [set].
  - rewrite get_cons. apply String.eqb_neq in Hne. rewrite Hne. reflexivity.
  - destruct (String.eqb k' c) eqn:E.
    + apply String.eqb_eq in E. subst k'. rewrite !get_cons.
      apply String.eqb_neq in Hne. rewrite Hne. reflexivity.
    + rewrite !get_cons, IH. reflexivity.
Qed.

(** Renaming the keys of a row by [f] keeps the cell read under [k] when
    [f] sends to [k] the key [k] and no other key of the row. *)
Lemma get_rename (f : string -> string) (k : string) (r : row) :
  (forall kv, In kv r -> String.eqb (f (fst kv)) k = String.eqb (fst kv) k) ->
  get (map (fun kv => (f (fst kv), snd kv)) r) k = get r k.
Proof.
  induction r as [|[k' w] r IH]; intros Hf; [reflexivity|].
  cbn [map fst snd]. rewrite !get_cons.
  pose proof (Hf (k', w) (or_introl eq_refl)) as Hk. cbn [fst] in Hk. rewrite Hk.
  rewrite IH; [reflexivity|]. intros kv Hin. apply Hf. right. exact Hin.
Qed.

(** Appending cells under other keys keeps the cell read under [k]. *)
Lemma get_app_other (r1 r2 : row) (k : string) :
  (forall kv, In kv r2 -> fst kv <> k) ->
  get (r1 ++ r2)%list k = get r1 k.
Proof.
  intros Hr2. induction r1 as [|[k' w] r1 IH]; cbn [app].
  - induction r2 as [|[k' w] r2 IH2]; [reflexivity|].
    rewrite get_cons.
    assert (Hne : k' <> k) by exact (Hr2 (k', w) (or_introl eq_refl)).
    apply String.eqb_neq in Hne. rewrite Hne.
    rewrite IH2; [reflexivity|]. intros kv Hin. apply Hr2. right. exact Hin.
  - rewrite !get_cons, IH. reflexivity.
Qed.

(** Dropping cells under other keys keeps the cell read under [k]. *)
Lemma get_filter_keys (p : string -> bool) (k : string) (r : row) :
  p k = true ->
  get (filter (fun kv : string * cell => p (fst kv)) r) k = get r k.
Proof.
  intros Hp. induction r as [|[k' w] r IH]; [reflexivity|].
  cbn [filter fst]. destruct (p k') eqn:E.
  - rewrite !get_cons, IH. reflexivity.
  - rewrite get_cons, IH.
    destruct (String.eqb k' k) eqn:Ek; [|reflexivity].
    apply String.eqb_eq in Ek. subst k'. congruence.
Qed.

Lemma where_ne_no_average (df df' : DataFrame) :
  where_ne df "filename" "AVERAGE" = Ok df' -> no_average df'.
Proof.
  unfold where_ne. destruct (has_column df "filename"); [|discriminate].
  intros H. injection H as <-. unfold no_average. cbn [rows].
  apply Forall_forall. intros r Hin. apply filter_In in Hin. destruct Hin as [_ Hne].
  intros E. rewrite E in Hne. discriminate.
Qed.

Lemma where_eq_no_average (df df' : DataFrame) (c s : string) :
  where_eq df c s = Ok df' -> no_average df -> no_average df'.
Proof.
  unfold where_eq. destruct (has_column df c); [|discriminate].
  intros H. injection H as <-. unfold no_average. cbn [rows].
  rewrite !Forall_forall. intros Hall r Hin. apply filter_In in Hin. apply Hall, Hin.
Qed.

Lemma assign_no_average (df : DataFrame) (c : string) (f : row -> cell) :
  c <> "filename" -> no_average df -> no_average (assign df c f).
Proof.
  intros Hc. unfold no_average, assign. cbn [rows].
  rewrite !Forall_forall. intros Hall r Hin.
  apply in_map_iff in Hin. destruct Hin as (r0 & <- & Hin).
  rewrite get_set_other by exact Hc. apply Hall, Hin.
Qed.

Lemma drop_no_average (df : DataFrame) (cs : list string) :
  mem "filename" cs = false -> no_average df -> no_average (drop df cs).
Proof.
  intros Hcs. unfold no_average, drop. cbn [rows].
  rewrite !Forall_forall. intros Hall r Hin.
  apply in_map_iff in Hin. destruct Hin as (r0 & <- & Hin).
  rewrite (get_filter_keys (fun k => negb (mem k cs))) by (rewrite Hcs; reflexivity).
  apply Hall, Hin.
Qed.

Lemma concat_no_average (dfs : list DataFrame) :
  Forall no_average dfs -> no_average (concat dfs).
Proof.
  intros Hall. unfold no_average, concat. cbn [rows].
  apply Forall_forall. intros r Hin. apply in_flat_map in Hin.
  destruct Hin as (df & Hdf & Hin).
  rewrite Forall_forall in Hall. specialize (Hall df Hdf).
  unfold no_average in Hall. rewrite Forall_forall in Hall. apply Hall, Hin.
Qed.

Lemma add_track_id_no_average (df df' : DataFrame) :
  add_track_id df = Ok df' -> no_average df -> no_average df'.
Proof.
  unfold add_track_id. destruct (has_column df "filename"); [|discriminate].
  intros H. injection H as <-. apply assign_no_average. discriminate.
Qed.

Lemma mem_In (c : string) (l : list string) : mem c l = true <-> In c l.
Proof.
  unfold mem. rewrite existsb_exists. split.
  - intros (x & Hin & E). apply String.eqb_eq in E. subst x. exact Hin.
  - intros Hin. exists c. split; [exact Hin | apply String.eqb_refl].
Qed.

Lemma select_shape (m right : DataFrame) (cs : list string) :
  select m cs = Ok right ->
  columns right = cs /\
  forall r, In r (rows right) -> forall kv, In kv r -> In (fst kv) cs.
Proof.
  unfold select. destruct (find _ cs); [discriminate|].
  intros H. injection H as <-. cbn [columns rows]. split; [reflexivity|].
  intros r Hin kv Hkv. apply in_map_iff in Hin. destruct Hin as (r0 & <- & _).
  apply in_map_iff in Hkv. destruct Hkv as (c & <- & Hc). exact Hc.
Qed.

Lemma merge_rename_filename (overlap : list string) (suffix k : string) :
  (forall c, In c overlap -> c <> "filename" /\ c ++ suffix <> "filename") ->
  String.eqb (merge_rename overlap suffix k) "filename" = String.eqb k "filename".
Proof.
  intros Hov. unfold merge_rename. destruct (mem k overlap) eqn:E; [|reflexivity].
  apply mem_In in E. destruct (Hov k E) as [H1 H2].
  apply String.eqb_neq in H1, H2. rewrite H1, H2. reflexivity.
Qed.

Lemma merge_left_no_average (left right df : DataFrame) (key : string) :
  (forall r, In r (rows right) -> forall kv, In kv r -> In (fst kv) (columns right)) ->
  (forall c, In c (columns right) -> apart_from_filename c) ->
  merge_left left right key = Ok df ->
  no_average left -> no_average df.
Proof.
  intros Hkeys Hcols. unfold merge_left.
  destruct (negb (has_column left key)); [discriminate|].
  destruct (negb (has_column right key)); [discriminate|].
  set (overlap := filter _ (columns left)).
  assert (Hov : forall c, In c overlap -> apart_from_filename c).
  { intros c Hin. apply filter_In in Hin. destruct Hin as [_ Hin].
    apply andb_true_iff in Hin. destruct Hin as [_ Hin]. apply mem_In in Hin.
    apply Hcols, Hin. }
  intros H. injection H as <-. unfold no_average. cbn [rows].
  rewrite !Forall_forall. intros Hall r Hin.
  apply in_flat_map in Hin. destruct Hin as (l & Hl & Hin).
  assert (Hleft : get (map (fun kv => (merge_rename overlap "_x" (fst kv), snd kv)) l)
                      "filename" = get l "filename").
  { apply get_rename. intros kv _. apply merge_rename_filename.
    intros c Hc. destruct (Hov c Hc) as (H1 & H2 & _). auto. }
  destruct (filter (fun r0 => key_eqb (get l key) (get r0 key)) (rows right))
    as [|m0 matches] eqn:Ematches.
  - destruct Hin as [<- | []]. rewrite Hleft. apply Hall, Hl.
  - match type of Hin with
    | In _ (_ :: map ?f matches) => change (In r (map f (m0 :: matches))) in Hin
    end.
    apply in_map_iff in Hin. destruct Hin as (m & <- & Hm).
    assert (Hmr : In m (rows right)).
    { assert (Hf : In m (filter (fun r0 => key_eqb (get l key) (get r0 key)) (rows right))).
      { rewrite Ematches. exact Hm. }
      apply filter_In in Hf. apply Hf. }
    rewrite get_app_other.
    + rewrite Hleft. apply Hall, Hl.
    + intros kv Hkv. apply in_map_iff in Hkv. destruct Hkv as (kv0 & <- & Hkv0).
      apply filter_In in Hkv0. destruct Hkv0 as [Hkv0 _]. cbn [fst].
      specialize (Hkeys m Hmr kv0 Hkv0).
      intros E. apply String.eqb_eq in E.
      rewrite merge_rename_filename in E.
      * apply String.eqb_eq in E. destruct (Hcols _ Hkeys) as (H1 & _). auto.
      * intros c Hc. destruct (Hov c Hc) as (H1 & _ & H3). auto.
Qed.

End PandasFacts.

(** ** The loading methods of the plotters *)

Section Loading.

Import Pandas.

Lemma dict_get_In {A : Type} (d : dict A) (k : string) (v : A) :
  dict_get d k = Some v -> In (k, v) d.
Proof.
  unfold dict_get. destruct (find _ d) as [[k' v']|] eqn:E; [|discriminate].
  intros H. injection H as <-. apply find_some in E. destruct E as [Hin Hk].
  cbn [fst] in Hk. apply String.eqb_eq in Hk. subst k'. exact Hin.
Qed.

Lemma Forall2_In_r {A B : Type} (P : A -> B -> Prop) (l : list A) (l' : list B) (b : B) :
  Forall2 P l l' -> In b l' -> exists a : A, In a l /\ P a b.
Proof.
  induction 1 as [|a b' l l' Hab _ IH]; intros Hin; [destruct Hin|].
  destruct Hin as [<- | Hin].
  - exists a. split; [left; reflexivity | exact Hab].
  - destruct (IH Hin) as (a' & Ha' & HP). exists a'. split; [right; exact Ha' | exact HP].
Qed.

Tactic Notation "bind_inv" hyp(H) ident(a) ident(Ha) :=
  apply bind_ok in H; destruct H as (a & Ha & H).

Lemma distortion_tags_apart (c : string) :
  In c ["track_id"; "level_tag"] -> apart_from_filename c.
Proof.
  intros [<- | [<- | []]]; unfold apart_from_filename; cbn; (split; [|split]); discriminate.
Qed.

Lemma load_condition_no_average (results_dir : string) (store : csv_store)
    (dist_manifest : option DataFrame) (model condition : string) (df : DataFrame) :
  PlotResults.load_condition results_dir store dist_manifest model condition = Ok (Some df) ->
  no_average df.
Proof.
  unfold PlotResults.load_condition.
  destruct (String.prefix "distortion_" condition).
  - destruct (store _) as [df0|]; [|discriminate].
    destruct dist_manifest as [manifest|]; [|discriminate].
    intros H.
    bind_inv H df1 Hdf1. bind_inv H df2 Hdf2. bind_inv H tags Htags.
    bind_inv H df3 Hdf3. bind_inv H df_level Hlevel.
    destruct (0 <? len df_level)%nat; [|discriminate H].
    injection H as <-.
    apply drop_no_average; [reflexivity|].
    apply (where_eq_no_average _ _ _ _ Hlevel).
    destruct (select_shape _ _ _ Htags) as [Hcols Hkeys].
    apply (merge_left_no_average df2 tags df3 "track_id").
    + rewrite Hcols. exact Hkeys.
    + rewrite Hcols. exact distortion_tags_apart.
    + exact Hdf3.
    + apply (add_track_id_no_average _ _ Hdf2).
      apply (where_ne_no_average _ _ Hdf1).
  - destruct (store _) as [df0|]; [|discriminate].
    intros H. bind_inv H df1 Hdf1. injection H as <-.
    apply (where_ne_no_average _ _ Hdf1).
Qed.

Lemma load_results_no_average (results_dir : string) (store : csv_store)
    (results : dict (dict (option DataFrame))) (model condition : string) (df : DataFrame) :
  PlotResults.load_results results_dir store = Ok results ->
  PlotResults.lookup results model condition = Some df ->
  no_average df.
Proof.
  unfold PlotResults.load_results, PlotResults.lookup.
  intros Hload Hlookup.
  destruct (dict_get results model) as [per_condition|] eqn:Emodel; [|discriminate].
  destruct (dict_get per_condition condition) as [odf|] eqn:Econd; [|discriminate].
  subst odf.
  apply dict_get_In in Emodel, Econd.
  apply mapM_ok in Hload.
  destruct (Forall2_In_r _ _ _ _ Hload Emodel) as (model' & _ & Hmodel).
  apply bind_ok in Hmodel. destruct Hmodel as (pc & Hpc & E). injection E as -> ->.
  apply mapM_ok in Hpc.
  destruct (Forall2_In_r _ _ _ _ Hpc Econd) as (condition' & _ & Hcond).
  apply bind_ok in Hcond. destruct Hcond as (odf & Hodf & E). injection E as -> ->.
  exact (load_condition_no_average _ _ _ _ _ _ Hodf).
Qed.

Lemma assign_constants_no_average (extra : list (string * string)) :
  (forall kv, In kv extra -> fst kv <> "filename") ->
  forall df : DataFrame,
    no_average df ->
    no_average (fold_left (fun d kv => assign d (fst kv) (fun _ => Str (snd kv))) extra df).
Proof.
  induction extra as [|kv extra IH]; intros Hextra df Hdf; cbn [fold_left]; [exact Hdf|].
  apply IH.
  - intros kv' Hin. apply Hextra. right. exact Hin.
  - apply assign_no_average; [|exact Hdf]. apply Hextra. left. reflexivity.
Qed.

Lemma load_block_no_average (results_dir : string) (store : csv_store)
    (manifests : dict DataFrame) (file condition : string) (extra : list (string * string))
    (manifest : option (string * list string)) (dfs : list DataFrame) :
  (forall kv, In kv extra -> fst kv <> "filename") ->
  (forall name tags, manifest = Some (name, tags) ->
     forall c, In c ("track_id" :: tags) -> apart_from_filename c) ->
  PlotAdditionalComparisons.load_block results_dir store manifests file condition extra manifest
  = Ok dfs ->
  Forall no_average dfs.
Proof.
  intros Hextra Htags. unfold PlotAdditionalComparisons.load_block.
  destruct (store _) as [df0|]; [|intros H; injection H as <-; constructor].
  match goal with |- context [if ?b then _ else _] => destruct b end;
    [|intros H; injection H as <-; constructor].
  intros H. bind_inv H df1 Hdf1. bind_inv H df2 Hdf2.
  assert (Hdf : no_average
            (fold_left (fun d kv => assign d (fst kv) (fun _ => Str (snd kv))) extra
               (assign df2 "condition" (fun _ => Str condition)))).
  { apply assign_constants_no_average; [exact Hextra|].
    apply assign_no_average; [discriminate|].
    apply (add_track_id_no_average _ _ Hdf2).
    apply (where_ne_no_average _ _ Hdf1). }
  destruct manifest as [[name tags]|].
  - destruct (dict_get manifests name) as [m|].
    + bind_inv H tagged Htagged. bind_inv H df3 Hdf3. injection H as <-.
      constructor; [|constructor].
      destruct (select_shape _ _ _ Htagged) as [Hcols Hkeys].
      refine (merge_left_no_average _ tagged df3 "track_id" _ _ Hdf3 Hdf).
      * rewrite Hcols. exact Hkeys.
      * rewrite Hcols. exact (Htags name tags eq_refl).
    + injection H as <-. constructor; [exact Hdf | constructor].
  - injection H as <-. constructor; [exact Hdf | constructor].
Qed.

Lemma tags_apart (tags : list string) :
  incl tags ["level_tag"; "class_tag"; "noise_tag"] ->
  forall c, In c ("track_id" :: tags) -> apart_from_filename c.
Proof.
  intros Hincl c [<- | Hin].
  - unfold apart_from_filename; cbn; (split; [|split]); discriminate.
  - apply Hincl in Hin. destruct Hin as [<- | [<- | [<- | []]]];
      unfold apart_from_filename; cbn; (split; [|split]); discriminate.
Qed.

Lemma mapM_Forall_concat {A : Type} (f : A -> result (list DataFrame)) (l : list A)
    (dfss : list (list DataFrame)) :
  (forall a dfs, f a = Ok dfs -> Forall no_average dfs) ->
  mapM f l = Ok dfss ->
  Forall no_average (List.concat dfss).
Proof.
  intros Hf H. apply mapM_ok in H.
  induction H as [|a dfs l dfss Ha _ IH]; cbn [List.concat]; [constructor|].
  apply Forall_app. split; [exact (Hf a dfs Ha) | exact IH].
Qed.

Lemma load_model_no_average (results_dir : string) (store : csv_store)
    (manifests : dict DataFrame) (model : string) (df : DataFrame) :
  PlotAdditionalComparisons.load_model results_dir store manifests model = Ok (Some df) ->
  no_average df.
Proof.
  unfold PlotAdditionalComparisons.load_model. intros H.
  bind_inv H clean Hclean. bind_inv H dist Hdist.
  bind_inv H noise Hnoise. bind_inv H pitch Hpitch.
  assert (Hall : Forall no_average (clean ++ dist ++ List.concat noise ++ List.concat pitch)).
  { repeat (apply Forall_app; split).
    - apply (load_block_no_average _ _ _ _ _ _ _ _ (fun kv (Hin : In kv []) => match Hin with end)
               (fun name tags (E : None = Some (name, tags)) => ltac:(discriminate E)) Hclean).
    - refine (load_block_no_average _ _ _ _ _ _ _ _ _ _ Hdist).
      + intros kv [].
      + intros name tags E. injection E as <- <-. apply tags_apart.
        intros c [<- | [<- | []]]; cbn; auto.
    - refine (mapM_Forall_concat _ _ _ _ Hnoise). intros snr dfs Hdfs.
      refine (load_block_no_average _ _ _ _ _ _ _ _ _ _ Hdfs).
      + intros kv [<- | []]. discriminate.
      + intros name tags E. injection E as <- <-. apply tags_apart.
        intros c [<- | [<- | []]]; cbn; auto.
    - refine (mapM_Forall_concat _ _ _ _ Hpitch). intros cents dfs Hdfs.
      refine (load_block_no_average _ _ _ _ _ _ _ _ _ _ Hdfs).
      + intros kv [].
      + intros name tags E. injection E as <- <-. apply tags_apart.
        intros c [<- | []]; cbn; auto. }
  destruct (clean ++ dist ++ List.concat noise ++ List.concat pitch)%list as [|d ds];
    [discriminate H|].
  injection H as <-. apply concat_no_average. exact Hall.
Qed.

Lemma load_results_with_metadata_no_average (results_dir : string) (store : csv_store)
    (manifests : dict DataFrame) (results : dict (option DataFrame)) (model : string)
    (df : DataFrame) :
  PlotAdditionalComparisons.load_results_with_metadata results_dir store manifests
  = Ok results ->
  dict_get results model = Some (Some df) ->
  no_average df.
Proof.
  unfold PlotAdditionalComparisons.load_results_with_metadata.
  intros Hload Hget. apply dict_get_In in Hget. apply mapM_ok in Hload.
  destruct (Forall2_In_r _ _ _ _ Hload Hget) as (model' & _ & Hmodel).
  apply bind_ok in Hmodel. destruct Hmodel as (odf & Hodf & E). injection E as -> ->.
  exact (load_model_no_average _ _ _ _ _ Hodf).
Qed.

(** C8. A table that [ResultsPlotter.load_results] or
    [AdditionalPlotter.load_results_with_metadata] returns, under any
    model and condition, holds no row whose [filename] is [AVERAGE]. *)
Theorem loaded_tables_hold_no_average_row (results_dir : string) (store : csv_store)
    (df : DataFrame) :
  loaded results_dir store df -> no_average df.
Proof.
  intros [(results & model & condition & Hload & Hlookup)
         | (manifests & results & model & Hload & Hget)].
  - exact (load_results_no_average _ _ _ _ _ _ Hload Hlookup).
  - exact (load_results_with_metadata_no_average _ _ _ _ _ _ Hload Hget).
Qed.

(** The report of the example, loaded by [load_results]. *)
Lemma loaded_tables_hold_no_average_row_witness :
  loaded "results/metrics" example_store example_report_loaded /\
  no_average example_report_loaded.
Proof.
  assert (Hloaded : loaded "results/metrics" example_store example_report_loaded).
  { left. eexists. exists "librosa", "clean". split; [vm_compute; reflexivity | reflexivity]. }
  split; [exact Hloaded|].
  exact (loaded_tables_hold_no_average_row "results/metrics" example_store
           example_report_loaded Hloaded).
Defined.

End Loading.

(** ** The means the plotters draw *)

Section Means.

Import Pandas.

Lemma numbers_dropna (vs : list cell) (r : option (list Q)) :
  numbers (dropna vs) = Ok r -> exists qs : list Q, r = Some qs.
Proof.
  revert r. induction vs as [|v vs IH]; intros r; cbn [dropna filter numbers].
  - intros H. injection H as <-. eauto.
  - destruct v as [|q|s]; cbn [notna numbers].
    + apply IH.
    + intros H. apply bind_ok in H. destruct H as (r' & Hr' & H).
      destruct (IH r' Hr') as (qs & ->). injection H as <-. eauto.
    + discriminate.
Qed.

(** The mean of what [dropna] leaves is a number. *)
Lemma np_mean_dropna_is_a_number (vs : list cell) (m : cell) :
  np_mean (dropna vs) = Ok m -> exists q : Q, m = Num q.
Proof.
  unfold np_mean. intros H. apply bind_ok in H. destruct H as (r & Hr & H).
  destruct (numbers_dropna vs r Hr) as (qs & ->). injection H as <-. eauto.
Qed.

Lemma numbers_nan (vs : list cell) (r : option (list Q)) :
  In NaN vs -> numbers vs = Ok r -> r = None.
Proof.
  revert r. induction vs as [|v vs IH]; intros r Hin; [destruct Hin|].
  destruct v as [|q|s]; cbn [numbers].
  - intros H. apply bind_ok in H. destruct H as (r' & _ & H). injection H as <-. reflexivity.
  - destruct Hin as [E | Hin]; [discriminate E|].
    intros H. apply bind_ok in H. destruct H as (r' & Hr' & H).
    rewrite (IH r' Hin Hr') in H. injection H as <-. reflexivity.
  - discriminate.
Qed.

(** The mean of an array that holds a not-a-number is not a number. *)
Lemma np_mean_of_nan (vs : list cell) (m : cell) :
  In NaN vs -> np_mean vs = Ok m -> m = NaN.
Proof.
  unfold np_mean. intros Hin H. apply bind_ok in H. destruct H as (r & Hr & H).
  rewrite (numbers_nan vs r Hin Hr) in H. injection H as <-. reflexivity.
Qed.

Lemma class_values_dropped (metric : string) (df : DataFrame) (class_type : string)
    (vs : list cell) :
  PlotAdditionalComparisons.class_values metric df class_type = Ok vs ->
  exists vs0 : list cell, vs = dropna vs0.
Proof.
  unfold PlotAdditionalComparisons.class_values. intros H.
  apply bind_ok in H. destruct H as (class_data & _ & H).
  destruct ((0 <? len class_data)%nat && has_column class_data metric).
  - apply bind_ok in H. destruct H as (vs0 & _ & H). injection H as <-. eauto.
  - injection H as <-. exists []. reflexivity.
Qed.

(** Every mean line of [plot_instrument_vocal] is drawn at a number: the
    undefined values are left out of the mean. *)
Lemma plot_instrument_vocal_means_are_numbers (results : dict (option DataFrame))
    (figures : list (string * list drawing)) :
  PlotAdditionalComparisons.plot_instrument_vocal results = Ok figures ->
  forall (metric : string) (drawings : list drawing),
    In (metric, drawings) figures ->
    forall (group model : string) (mean : cell),
      In (MeanLine group model mean) drawings -> exists q : Q, mean = Num q.
Proof.
  unfold PlotAdditionalComparisons.plot_instrument_vocal.
  intros Hplot metric drawings Hfig group model mean Hin.
  apply mapM_ok in Hplot.
  destruct (Forall2_In_r _ _ _ _ Hplot Hfig) as (metric' & _ & Hmetric).
  apply bind_ok in Hmetric. destruct Hmetric as (per_model & Hper & E).
  injection E as -> <-.
  apply in_concat in Hin. destruct Hin as (ds & Hds & Hin).
  apply mapM_ok in Hper.
  destruct (Forall2_In_r _ _ _ _ Hper Hds) as (model' & _ & Hmodel).
  unfold PlotAdditionalComparisons.instrument_vocal_of_model in Hmodel.
  destruct (dict_get results model') as [[df|]|];
    try (injection Hmodel as <-; destruct Hin).
  apply bind_ok in Hmodel. destruct Hmodel as (df_with_class & _ & Hmodel).
  destruct (len df_with_class =? 0)%nat; [injection Hmodel as <-; destruct Hin|].
  apply bind_ok in Hmodel. destruct Hmodel as (y_data & _ & Hmodel).
  destruct (0 <? List.length (List.concat y_data))%nat;
    [|injection Hmodel as <-; destruct Hin].
  apply bind_ok in Hmodel. destruct Hmodel as (lines & Hlines & Hmodel).
  injection Hmodel as <-.
  destruct Hin as [E | Hin]; [discriminate E|].
  apply in_concat in Hin. destruct Hin as (line & Hline & Hin).
  apply mapM_ok in Hlines.
  destruct (Forall2_In_r _ _ _ _ Hlines Hline) as (class_type & _ & Hclass).
  apply bind_ok in Hclass. destruct Hclass as (vs & Hvs & Hclass).
  destruct (0 <? List.length vs)%nat; [|injection Hclass as <-; destruct Hin].
  apply bind_ok in Hclass. destruct Hclass as (median & _ & Hclass).
  apply bind_ok in Hclass. destruct Hclass as (mean' & Hmean & Hclass).
  injection Hclass as <-.
  destruct Hin as [E | [E | []]]; [discriminate E|].
  injection E as _ _ <-.
  destruct (class_values_dropped _ _ _ _ Hvs) as (vs0 & ->).
  exact (np_mean_dropna_is_a_number vs0 mean' Hmean).
Qed.

(** On the same report, read for a pitch-shift condition whose manifest
    classes both tracks as vocal, [plot_instrument_vocal] draws the mean
    of RPA over the one file where it is defined. *)
Example plot_instrument_vocal_mean_leaves_nan_out :
  exists (results : dict (option DataFrame)) (figures : list (string * list drawing)),
    PlotAdditionalComparisons.load_results_with_metadata "results/metrics"
      example_store_with_manifest
      (PlotAdditionalComparisons.load_manifests "MedleyDB-Pitch-Experiments/manifests"
         example_store_with_manifest)
    = Ok results /\
    PlotAdditionalComparisons.plot_instrument_vocal results = Ok figures /\
    In ("RPA", [Scatter "librosa" [Num (8 # 10)];
                MedianLine "vocal" "librosa" (Num (8 # 10));
                MeanLine "vocal" "librosa" (Num (8 # 10))]) figures.
Proof.
  eexists. eexists.
  split; [vm_compute; reflexivity|].
  split; [vm_compute; reflexivity|].
  cbn. auto.
Qed.

(** C3. On the report of the example, whose second file has an undefined
    RPA, [plot_metric] draws the mean line of the condition at
    not-a-number: the undefined value is not left out of the mean. *)
Theorem plot_metric_mean_takes_nan :
  exists (results : dict (dict (option DataFrame))) (drawings : list drawing),
    PlotResults.load_results "results/metrics" example_store = Ok results /\
    PlotResults.lookup results "librosa" "clean" = Some example_report_loaded /\
    PlotResults.plot_metric "RPA" results = Ok drawings /\
    In (MeanLine "clean" "librosa" NaN) drawings.
Proof.
  eexists. eexists.
  split; [vm_compute; reflexivity|].
  split; [reflexivity|].
  split; [vm_compute; reflexivity|].
  cbn. auto.
Qed.

End Means.

(** ** The metric computer *)

Section MetricComputerFacts.

Import MetricComputer.
Local Open Scope R_scope.

Lemma ln_2_pos : 0 < ln 2.
Proof. rewrite <- ln_1. apply ln_increasing; Lra.lra. Qed.

(** An octave up is 1200 cents up. *)
Lemma hz_to_cents_double (reference freq : R) :
  0 < reference -> 0 < freq ->
  hz_to_cents reference (2 * freq) - hz_to_cents reference freq = 1200.
Proof.
  intros Href Hfreq. unfold hz_to_cents.
  assert (Hq : 0 < freq / reference) by (apply Rdiv_lt_0_compat; assumption).
  replace (2 * freq / reference) with (2 * (freq / reference)) by (field; Lra.lra).
  rewrite ln_mult by Lra.lra.
  pose proof ln_2_pos. field. Lra.lra.
Qed.

(** An octave down is 1200 cents down. *)
Lemma hz_to_cents_half (reference freq : R) :
  0 < reference -> 0 < freq ->
  hz_to_cents reference (freq / 2) - hz_to_cents reference freq = - 1200.
Proof.
  intros Href Hfreq.
  assert (Hhalf : 0 < freq / 2) by Lra.lra.
  pose proof (hz_to_cents_double reference (freq / 2) Href Hhalf) as H.
  replace (2 * (freq / 2)) with freq in H by field. Lra.lra.
Qed.

(** A frequency [c] cents above another: [freq * 2^(c/1200)]. *)
Lemma hz_to_cents_shift (reference freq c : R) :
  0 < reference -> 0 < freq ->
  hz_to_cents reference (freq * Rpower 2 (c / 1200)) - hz_to_cents reference freq = c.
Proof.
  intros Href Hfreq. unfold hz_to_cents, Rpower.
  assert (Hq : 0 < freq / reference) by (apply Rdiv_lt_0_compat; assumption).
  replace (freq * exp (c / 1200 * ln 2) / reference)
    with (freq / reference * exp (c / 1200 * ln 2)) by (field; Lra.lra).
  rewrite ln_mult by (try apply exp_pos; assumption).
  rewrite ln_exp. pose proof ln_2_pos. field. Lra.lra.
Qed.

(** The fold lands in [-600, 600) and differs from its argument by a
    whole number of octaves. *)
Lemma fold_cents_range (d : R) : - 600 <= fold_cents d < 600.
Proof.
  unfold fold_cents.
  destruct (base_Int_part ((d + 600) / 1200)) as [Hlo Hhi].
  set (k := IZR (Int_part ((d + 600) / 1200))) in *.
  split; Lra.lra.
Qed.

Lemma fold_cents_octaves (d : R) (k : Z) :
  - 600 <= d - 1200 * IZR k < 600 -> fold_cents d = d - 1200 * IZR k.
Proof.
  intros H. unfold fold_cents.
  rewrite <- (Int_part_spec ((d + 600) / 1200) k); [reflexivity|].
  split; Lra.lra.
Qed.

Lemma fold_cents_small (d : R) : - 600 <= d < 600 -> fold_cents d = d.
Proof.
  intros H. rewrite (fold_cents_octaves d 0); Lra.lra.
Qed.

Lemma fold_cents_octave_up : fold_cents 1200 = 0.
Proof. rewrite (fold_cents_octaves 1200 1); Lra.lra. Qed.

Lemma fold_cents_octave_down : fold_cents (- 1200) = 0.
Proof. rewrite (fold_cents_octaves (- 1200) (- 1)); Lra.lra. Qed.

Lemma within_tolerance_true (tolerance d : R) :
  within_tolerance tolerance d = true <-> Rabs d <= tolerance.
Proof.
  unfold within_tolerance. destruct (Rle_dec (Rabs d) tolerance); split;
    intros; try assumption; try reflexivity; try discriminate; contradiction.
Qed.

Lemma within_tolerance_false (tolerance d : R) :
  within_tolerance tolerance d = false <-> tolerance < Rabs d.
Proof.
  unfold within_tolerance. destruct (Rle_dec (Rabs d) tolerance); split;
    intros; try reflexivity; try discriminate; Lra.lra.
Qed.

Lemma gt_voiced_true (f : ComparisonFrame) : gt_voiced f = true <-> 0 < gt_freq f.
Proof.
  unfold gt_voiced. destruct (Rlt_dec 0 (gt_freq f)); split;
    intros; try assumption; try reflexivity; try discriminate; contradiction.
Qed.

Lemma pred_voiced_true (f : ComparisonFrame) :
  pred_voiced f = true <-> exists p : R, pred_freq f = Some p /\ 0 < p.
Proof.
  unfold pred_voiced. destruct (pred_freq f) as [p|].
  - destruct (Rlt_dec 0 p); split.
    + intros _. eauto.
    + reflexivity.
    + discriminate.
    + intros (p' & E & Hp). injection E as <-. contradiction.
  - split; [discriminate | intros (p & E & _); discriminate].
Qed.

Lemma count_ext (p q : ComparisonFrame -> bool) (frames : list ComparisonFrame) :
  Forall (fun f => p f = q f) frames -> count p frames = count q frames.
Proof.
  unfold count. induction 1 as [|f frames Hf _ IH]; [reflexivity|].
  cbn [filter]. rewrite Hf. destruct (q f); cbn [List.length]; congruence.
Qed.

Lemma count_pos (p : ComparisonFrame -> bool) (frames : list ComparisonFrame) :
  Exists (fun f => p f = true) frames -> (0 < count p frames)%nat.
Proof.
  unfold count. induction 1 as [f frames Hf | f frames _ IH]; cbn [filter].
  - rewrite Hf. cbn. lia.
  - destruct (p f); cbn [List.length]; lia.
Qed.

Lemma ratio_full (n : nat) : (0 < n)%nat -> ratio n n = Value 1.
Proof.
  intros Hn. destruct n as [|n]; [lia|]. unfold ratio. f_equal.
  field. apply not_0_INR. discriminate.
Qed.

(** On a frame one octave off, RCA counts the frame when, and only
    when, the ground truth is voiced. *)
Lemma rca_correct_octave_off (reference tolerance : R) (f : ComparisonFrame) :
  0 < reference -> 0 <= tolerance -> octave_off f ->
  rca_correct reference tolerance f = gt_voiced f.
Proof.
  intros Href Htol Hoct. unfold rca_correct.
  destruct (gt_voiced f) eqn:Hgt; [|reflexivity].
  destruct (Hoct Hgt) as (p & Hp & Hpitch).
  apply gt_voiced_true in Hgt.
  assert (Hpos : 0 < p) by (destruct Hpitch; subst p; Lra.lra).
  assert (Hpv : pred_voiced f = true) by (apply pred_voiced_true; eauto).
  rewrite Hpv. cbn [andb].
  apply within_tolerance_true. unfold cents_difference. rewrite Hp.
  destruct Hpitch as [-> | ->].
  - rewrite hz_to_cents_double by assumption.
    rewrite fold_cents_octave_up, Rabs_R0. exact Htol.
  - rewrite hz_to_cents_half by assumption.
    rewrite fold_cents_octave_down, Rabs_R0. exact Htol.
Qed.

(** C4, as amended. For a positive reference frequency and a
    non-negative tolerance, on frames of which one at least is voiced in
    the ground truth and where, at every frame voiced in the ground truth,
    the matched prediction is twice or half the ground-truth frequency,
    RCA is 1, whatever RPA is. *)
Theorem octave_errors_give_full_RCA (reference tolerance : R)
    (frames : list ComparisonFrame) :
  0 < reference -> 0 <= tolerance ->
  Exists (fun f => gt_voiced f = true) frames ->
  Forall octave_off frames ->
  RCA reference tolerance frames = Value 1.
Proof.
  intros Href Htol Hsome Hall. unfold RCA.
  rewrite (count_ext (rca_correct reference tolerance) gt_voiced).
  - apply ratio_full, count_pos, Hsome.
  - eapply Forall_impl; [|exact Hall].
    intros f Hf. apply rca_correct_octave_off; assumption.
Qed.

Lemma frame_octave_up_voiced : gt_voiced frame_octave_up = true.
Proof. apply gt_voiced_true. cbn. Lra.lra. Qed.

Lemma frame_octave_up_off : octave_off frame_octave_up.
Proof. intros _. exists (2 * 440). cbn. auto. Qed.

Lemma frame_unvoiced_unvoiced : gt_voiced frame_unvoiced = false.
Proof.
  unfold gt_voiced, frame_unvoiced. cbn.
  destruct (Rlt_dec 0 0) as [H | _]; [Lra.lra | reflexivity].
Qed.

(** A track of one frame an octave too high, and an unvoiced frame, at
    the default tolerance. *)
Lemma octave_errors_give_full_RCA_witness :
  RCA 10 50 [frame_octave_up; frame_unvoiced] = Value 1.
Proof.
  apply (octave_errors_give_full_RCA 10 50 [frame_octave_up; frame_unvoiced]).
  - Lra.lra.
  - Lra.lra.
  - apply Exists_cons_hd. exact frame_octave_up_voiced.
  - constructor; [exact frame_octave_up_off|].
    constructor; [|constructor].
    intros H. rewrite frame_unvoiced_unvoiced in H. discriminate H.
Defined.

(** C4, as stated, fails: a track with no frame voiced in the ground
    truth meets its condition and has RCA undefined; and with a negative
    tolerance a track that is an octave off has RCA 0. *)
Lemma octave_claim_fails_without_voiced_frame :
  (Forall octave_off [frame_unvoiced]
   /\ RCA 10 50 [frame_unvoiced] = Undefined
   /\ RCA 10 50 [frame_unvoiced] <> Value 1)
  /\
  (Forall octave_off [frame_octave_up]
   /\ RCA 10 (- 1) [frame_octave_up] <> Value 1).
Proof.
  split.
  - assert (Hrca : RCA 10 50 [frame_unvoiced] = Undefined).
    { unfold RCA, count. cbn [filter]. rewrite frame_unvoiced_unvoiced.
      unfold rca_correct. rewrite frame_unvoiced_unvoiced. reflexivity. }
    split; [|split; [exact Hrca | rewrite Hrca; discriminate]].
    constructor; [|constructor].
    intros H. rewrite frame_unvoiced_unvoiced in H. discriminate H.
  - split; [constructor; [exact frame_octave_up_off | constructor]|].
    assert (Hwrong : rca_correct 10 (- 1) frame_octave_up = false).
    { unfold rca_correct. rewrite frame_octave_up_voiced.
      replace (pred_voiced frame_octave_up) with true
        by (symmetry; apply pred_voiced_true; exists (2 * 440); cbn; split;
            [reflexivity | Lra.lra]).
      cbn [andb]. apply within_tolerance_false.
      pose proof (Rabs_pos (fold_cents (cents_difference 10 frame_octave_up))).
      Lra.lra. }
    unfold RCA, count. cbn [filter]. rewrite Hwrong, frame_octave_up_voiced.
    cbn [List.length ratio]. intros E. injection E as E.
    cbn [INR] in E. Lra.lra.
Qed.

(** C5. On a frame voiced on both sides, a cents difference whose
    absolute value is exactly the tolerance makes the frame correct for
    RPA and for RCA, and one strictly above the tolerance makes it
    incorrect for RPA; for RCA the same holds of the folded difference. *)
Theorem tolerance_boundary_is_inclusive (reference tolerance : R) (f : ComparisonFrame) :
  gt_voiced f = true -> pred_voiced f = true ->
  (Rabs (cents_difference reference f) = tolerance ->
   rpa_correct reference tolerance f = true /\ rca_correct reference tolerance f = true) /\
  (tolerance < Rabs (cents_difference reference f) ->
   rpa_correct reference tolerance f = false) /\
  (Rabs (fold_cents (cents_difference reference f)) = tolerance ->
   rca_correct reference tolerance f = true) /\
  (tolerance < Rabs (fold_cents (cents_difference reference f)) ->
   rca_correct reference tolerance f = false).
Proof.
  intros Hgt Hpred. unfold rpa_correct, rca_correct. rewrite Hgt, Hpred. cbn [andb].
  set (d := cents_difference reference f).
  split; [|split; [|split]].
  - intros Heq. split; apply within_tolerance_true; [Lra.lra|].
    pose proof (fold_cents_range d) as Hrange.
    destruct (Rlt_le_dec (Rabs d) 600) as [Hsmall | Hlarge].
    + rewrite fold_cents_small; [Lra.lra|].
      revert Hsmall. unfold Rabs. destruct (Rcase_abs d); intros; Lra.lra.
    + unfold Rabs. destruct (Rcase_abs (fold_cents d)); Lra.lra.
  - intros Hlt. apply within_tolerance_false. exact Hlt.
  - intros Heq. apply within_tolerance_true. Lra.lra.
  - intros Hlt. apply within_tolerance_false. exact Hlt.
Qed.

Lemma frame_quarter_tone_up_difference :
  cents_difference 10 frame_quarter_tone_up = 50.
Proof.
  unfold cents_difference, frame_quarter_tone_up. cbn [pred_freq gt_freq].
  apply hz_to_cents_shift; Lra.lra.
Qed.

(** A prediction exactly 50 cents above a ground truth of 440 Hz, at the
    default tolerance of 50 cents. *)
Lemma tolerance_boundary_is_inclusive_witness :
  Rabs (cents_difference 10 frame_quarter_tone_up) = 50 /\
  rpa_correct 10 50 frame_quarter_tone_up = true /\
  rca_correct 10 50 frame_quarter_tone_up = true.
Proof.
  assert (Hd : Rabs (cents_difference 10 frame_quarter_tone_up) = 50).
  { rewrite frame_quarter_tone_up_difference. apply Rabs_pos_eq. Lra.lra. }
  split; [exact Hd|].
  apply (tolerance_boundary_is_inclusive 10 50 frame_quarter_tone_up).
  - apply gt_voiced_true. cbn. Lra.lra.
  - apply pred_voiced_true. exists (440 * Rpower 2 (50 / 1200)). split; [reflexivity|].
    apply Rmult_lt_0_compat; [Lra.lra | apply exp_pos].
  - exact Hd.
Defined.

End MetricComputerFacts.

(** *** The scenario of the specification *)

Section Scenario.

Import MetricComputer.
Local Open Scope R_scope.

Lemma gt_voiced_false (f : ComparisonFrame) : gt_voiced f = false <-> gt_freq f <= 0.
Proof.
  unfold gt_voiced. destruct (Rlt_dec 0 (gt_freq f)); split;
    intros; try reflexivity; try discriminate; Lra.lra.
Qed.

Lemma pred_voiced_false (f : ComparisonFrame) (p : R) :
  pred_freq f = Some p -> p <= 0 -> pred_voiced f = false.
Proof.
  intros Hp Hle. unfold pred_voiced. rewrite Hp.
  destruct (Rlt_dec 0 p); [Lra.lra | reflexivity].
Qed.

Lemma hz_to_cents_same (reference freq : R) :
  hz_to_cents reference freq - hz_to_cents reference freq = 0.
Proof. Lra.lra. Qed.

(** With a tolerance of 50 cents: both voiced frames are predicted
    voiced, the third is an octave too low, so that RPA is 1/2 and RCA is
    1, and OA, which follows the RPA rule, is 2/3. *)
Example scenario_metrics :
  VR scenario_frames = Value 1 /\
  RPA 10 50 scenario_frames = Value (1 / 2) /\
  RCA 10 50 scenario_frames = Value 1 /\
  OA 10 50 scenario_frames = Value (2 / 3).
Proof.
  set (f1 := {| gt_freq := 440; pred_freq := Some 440 |}).
  set (f2 := {| gt_freq := 0; pred_freq := Some 0 |}).
  set (f3 := {| gt_freq := 880; pred_freq := Some 440 |}).
  assert (G1 : gt_voiced f1 = true) by (apply gt_voiced_true; cbn; Lra.lra).
  assert (G2 : gt_voiced f2 = false) by (apply gt_voiced_false; cbn; Lra.lra).
  assert (G3 : gt_voiced f3 = true) by (apply gt_voiced_true; cbn; Lra.lra).
  assert (P1 : pred_voiced f1 = true)
    by (apply pred_voiced_true; exists 440; cbn; split; [reflexivity | Lra.lra]).
  assert (P2 : pred_voiced f2 = false)
    by (apply (pred_voiced_false f2 0); [reflexivity | Lra.lra]).
  assert (P3 : pred_voiced f3 = true)
    by (apply pred_voiced_true; exists 440; cbn; split; [reflexivity | Lra.lra]).
  assert (D1 : cents_difference 10 f1 = 0) by (cbn; Lra.lra).
  assert (D3 : cents_difference 10 f3 = - 1200).
  { unfold cents_difference. cbn [f3 pred_freq gt_freq].
    replace 440 with (880 / 2) by Lra.lra. apply hz_to_cents_half; Lra.lra. }
  assert (T1 : within_tolerance 50 (cents_difference 10 f1) = true).
  { apply within_tolerance_true. rewrite D1, Rabs_R0. Lra.lra. }
  assert (T1' : within_tolerance 50 (fold_cents (cents_difference 10 f1)) = true).
  { apply within_tolerance_true. rewrite D1, fold_cents_small, Rabs_R0; Lra.lra. }
  assert (T3 : within_tolerance 50 (cents_difference 10 f3) = false).
  { apply within_tolerance_false. rewrite D3. unfold Rabs.
    destruct (Rcase_abs (- 1200)); Lra.lra. }
  assert (T3' : within_tolerance 50 (fold_cents (cents_difference 10 f3)) = true).
  { apply within_tolerance_true. rewrite D3, fold_cents_octave_down, Rabs_R0. Lra.lra. }
  unfold VR, RPA, RCA, OA, count, scenario_frames, oa_correct, rpa_correct, rca_correct.
  fold f1 f2 f3. cbn [filter].
  rewrite G1, G2, G3, P1, P2, P3, T1, T1', T3, T3'.
  cbn [andb orb negb List.length ratio INR].
  repeat split; f_equal; Lra.lra.
Qed.

End Scenario.

(** * Further properties of the scripts *)

(** ** format_size: whole numbers of a unit *)

Section FormatSizeWhole.

Import ViewResults.
Local Open Scope Q_scope.

Lemma round_half_even_comp (x y : Q) :
  x == y -> round_half_even x = round_half_even y.
Proof.
  intros E. unfold round_half_even. cbv zeta.
  rewrite (Qfloor_comp x y E).
  assert (Ec : Qcompare (x - inject_Z (Qfloor y)) (1 # 2)
               = Qcompare (y - inject_Z (Qfloor y)) (1 # 2)).
  { apply Qcompare_comp; [rewrite E; reflexivity | reflexivity]. }
  rewrite Ec. reflexivity.
Qed.

Lemma round_half_even_whole (z : Z) : round_half_even (inject_Z z) = z.
Proof.
  unfold round_half_even. cbv zeta. rewrite Qfloor_Z.
  assert (Ec : Qcompare (inject_Z z - inject_Z z) (1 # 2) = Lt).
  { rewrite <- Qlt_alt. generalize (inject_Z z). intros q. Lqa.lra. }
  rewrite Ec. reflexivity.
Qed.

Lemma fmt2f_comp (x y : Q) : x == y -> fmt2f x = fmt2f y.
Proof.
  intros E. unfold fmt2f.
  assert (Er : round_half_even (Qabs x * 100) = round_half_even (Qabs y * 100)).
  { apply round_half_even_comp. rewrite E. reflexivity. }
  rewrite Er.
  destruct (Qlt_le_dec x 0) as [Hx | Hx], (Qlt_le_dec y 0) as [Hy | Hy];
    try reflexivity; exfalso; rewrite E in Hx; Lqa.lra.
Qed.

(** A whole, non-negative number is printed with its digits and [.00]. *)
Lemma fmt2f_whole (n : Z) :
  (0 <= n)%Z -> fmt2f (inject_Z n) = (str_of_N (Z.to_N n) ++ ".00")%string.
Proof.
  intros Hn. unfold fmt2f.
  destruct (Qlt_le_dec (inject_Z n) 0) as [Hneg | _].
  { exfalso. change 0 with (inject_Z 0) in Hneg. rewrite <- Zlt_Qlt in Hneg. lia. }
  assert (Er : round_half_even (Qabs (inject_Z n) * 100) = (n * 100)%Z).
  { rewrite <- (round_half_even_whole (n * 100)). apply round_half_even_comp.
    rewrite inject_Z_mult. rewrite Qabs_pos; [reflexivity|].
    change 0 with (inject_Z 0). rewrite <- Zle_Qle. exact Hn. }
  rewrite Er, Z.div_mul, Z.mod_mul by lia. reflexivity.
Qed.

(** An integer of at most 53 bits times a power of two is a float: its
    conversion is exact. *)
Lemma round_to_53_bits_scaled (n a : Z) :
  (0 <= n < 2 ^ 53)%Z -> (0 <= a)%Z ->
  round_to_53_bits (n * 2 ^ a) = (n * 2 ^ a)%Z.
Proof.
  intros [Hn0 Hn] Ha.
  assert (Hpa : (0 < 2 ^ a)%Z) by (apply Z.pow_pos_nonneg; lia).
  destruct (Z.lt_ge_cases (n * 2 ^ a) (2 ^ 53)) as [Hsmall | Hlarge].
  { apply round_to_53_bits_small. split; [nia | exact Hsmall]. }
  assert (H53 : (0 < 2 ^ 53)%Z) by (apply Z.pow_pos_nonneg; lia).
  assert (Hpos : (0 < n)%Z) by nia.
  destruct (round_to_53_bits_large _ Hlarge) as (_ & _ & _ & q & r & Hm & Hr & Hcases).
  assert (HL : Z.log2 (n * 2 ^ a) = (a + Z.log2 n)%Z) by (apply Z.log2_mul_pow2; lia).
  assert (Hln : (Z.log2 n < 53)%Z) by (apply Z.log2_lt_pow2; lia).
  assert (HlN : (53 <= Z.log2 (n * 2 ^ a))%Z) by (apply Z.log2_le_pow2; [nia | exact Hlarge]).
  rewrite HL in *.
  set (e := (a + Z.log2 n - 52)%Z) in *.
  assert (Hsplit : (2 ^ a = 2 ^ (a - e) * 2 ^ e)%Z).
  { rewrite <- Z.pow_add_r by lia. f_equal. lia. }
  assert (Hpe : (0 < 2 ^ e)%Z) by (apply Z.pow_pos_nonneg; lia).
  assert (Hhalf : (0 < 2 ^ (a + Z.log2 n - 53))%Z) by (apply Z.pow_pos_nonneg; lia).
  rewrite Hsplit in Hm.
  assert (Er : r = 0%Z).
  { set (M := (n * 2 ^ (a - e))%Z) in *.
    assert (E : (r = (M - q) * 2 ^ e)%Z) by (unfold M; lia).
    assert (M - q = 0)%Z by nia. nia. }
  destruct Hcases as [E | [_ Hup]]; [|lia].
  rewrite E. rewrite Hsplit. lia.
Qed.

Lemma format_size_of_a_float (n : Z) :
  float_of_int n = Some (inject_Z n) ->
  format_size n = format_size_loop ["B"; "KB"; "MB"; "GB"; "TB"] (Float (inject_Z n)).
Proof.
  intros Hfloat. unfold format_size. cbn [format_size_loop value to_float].
  rewrite Hfloat. reflexivity.
Qed.

(** A whole number of one of the units is printed as that number with
    [.00] and the unit: whole bytes below 1024 in B, and [n] times the
    [k]-th power of 1024, for [n] from 1 to 1023 (from 1 to 2^53 - 1 for
    PB), in the [k]-th unit. *)
Theorem format_size_whole_units (n : Z) (k : nat) :
  (k <= 5)%nat -> (0 <= n < 2 ^ 53)%Z ->
  ((k < 5)%nat -> (n < 1024)%Z) ->
  ((0 < k)%nat -> (1 <= n)%Z) ->
  format_size (n * 1024 ^ Z.of_nat k)
  = Some (str_of_N (Z.to_N n) ++ ".00 " ++ nth k unit_names EmptyString)%string.
Proof.
  intros Hk [Hn Hn53] Hsmall Hlarge.
  set (x := (n * 1024 ^ Z.of_nat k)%Z).
  assert (Hpow : forall j : nat, (0 < 1024 ^ Z.of_nat j)%Z).
  { intros j. apply Z.pow_pos_nonneg; lia. }
  assert (Hfloat : float_of_int x = Some (inject_Z x)).
  { assert (Ex : x = (n * 2 ^ (10 * Z.of_nat k))%Z).
    { unfold x. change 1024%Z with (2 ^ 10)%Z. rewrite <- Z.pow_mul_r by lia. reflexivity. }
    unfold float_of_int. cbv zeta.
    pose proof (Hpow k) as Hp.
    rewrite Z.abs_eq by (unfold x; nia).
    assert (Hr : round_to_53_bits x = x).
    { rewrite Ex. apply round_to_53_bits_scaled; lia. }
    rewrite Hr.
    assert (Hx : (x < 2 ^ 1024)%Z).
    { assert (1024 ^ Z.of_nat k <= 1024 ^ 5)%Z by (apply Z.pow_le_mono_r; lia).
      assert (E : (2 ^ 53 * 1024 ^ 5 < 2 ^ 1024)%Z) by (vm_compute; reflexivity).
      unfold x. nia. }
    destruct (Z.ltb_spec x (2 ^ 1024)) as [_ | Hge]; [|lia].
    do 2 f_equal. destruct (Z.eq_dec x 0) as [-> | Hne]; [reflexivity|].
    assert (Hx0 : (0 <= x)%Z) by (unfold x; nia).
    rewrite Z.sgn_pos by lia. lia. }
  rewrite (format_size_of_a_float x Hfloat).
  destruct (format_size_loop_unit ["B"; "KB"; "MB"; "GB"; "TB"] (inject_Z x))
    as (k' & Hk' & Heq & Hbelow & Hthis).
  cbn [List.length] in Hk', Hthis.
  assert (Ek : k' = k).
  { destruct (Nat.lt_trichotomy k' k) as [Hlt | [E | Hgt]]; [exfalso | exact E | exfalso].
    - assert (Hd : divide_times k' (inject_Z x) < 1024) by (apply Hthis; lia).
      apply divide_times_lt in Hd. rewrite <- Zlt_Qlt in Hd.
      assert (Hmono : (1024 ^ Z.of_nat (S k') <= 1024 ^ Z.of_nat k)%Z)
        by (apply Z.pow_le_mono_r; lia).
      pose proof (Hpow k). unfold x in Hd. nia.
    - apply (Hbelow k Hgt). apply divide_times_lt. rewrite <- Zlt_Qlt.
      replace (Z.of_nat (S k)) with (Z.succ (Z.of_nat k)) by lia.
      rewrite Z.pow_succ_r by lia.
      pose proof (Hpow k). assert (n < 1024)%Z by (apply Hsmall; lia).
      unfold x. nia. }
  subst k'. rewrite Heq.
  assert (Ev : divide_times k (inject_Z x) == inject_Z n).
  { rewrite divide_times_value. unfold x. rewrite inject_Z_mult.
    assert (Hp : 0 < inject_Z (1024 ^ Z.of_nat k)).
    { change 0 with (inject_Z 0). rewrite <- Zlt_Qlt. apply Hpow. }
    field. Lqa.lra. }
  rewrite (fmt2f_comp _ _ Ev), (fmt2f_whole n Hn).
  rewrite string_app_assoc. reflexivity.
Qed.

(** Three times 1024 * 1024 bytes. *)
Lemma format_size_whole_units_witness : format_size (3 * 1024 ^ 2) = Some "3.00 MB".
Proof. apply (format_size_whole_units 3 2); lia. Defined.

(** From 2^53 units on the digits are those of the float: 2^53 + 1 PB are
    printed as 2^53 PB. *)
Example format_size_past_53_bits :
  format_size ((2 ^ 53 + 1) * 1024 ^ 5) = Some "9007199254740992.00 PB".
Proof. vm_compute. reflexivity. Qed.

End FormatSizeWhole.

(** ** print_tree: indentation and order *)

Section PrintTreeLines.

Import ViewResults.

Lemma prefix_app (p s : string) : String.prefix p (p ++ s) = true.
Proof.
  induction p as [|a p IH]; cbn.
  - destruct s; reflexivity.
  - destruct (ascii_dec a a) as [_ | Hne]; [exact IH | congruence].
Qed.

Lemma prefix_app_l (p q : string) : forall l : string,
  String.prefix (p ++ q) l = true -> String.prefix p l = true.
Proof.
  induction p as [|a p IH]; intros l H; destruct l as [|b l]; cbn in *;
    try reflexivity; try discriminate.
  destruct (ascii_dec a b); [apply IH; exact H | discriminate].
Qed.

(** Every line [print_tree] prints starts with the prefix it was called
    with: the lines of a subtree stay under the indentation of its
    directory. *)
Theorem print_tree_lines_keep_prefix (fs : filesystem) (directory prefix : string)
    (max_depth current_depth : nat) (line : string) :
  In (Print line) (print_tree fs directory prefix max_depth current_depth) ->
  String.prefix prefix line = true.
Proof.
  funelim (print_tree fs directory prefix max_depth current_depth).
  - intros [].
  - intros [Hhere | Hbelow]; [discriminate Hhere|].
    destruct (iterdir fs directory) as [names|]; [|destruct Hbelow].
    destruct (sorted_entries fs directory names) as [entries|]; [|destruct Hbelow].
    apply in_for_until_raise in Hbelow. destruct Hbelow as ([i name] & _ & Hin).
    destruct (is_dir fs (joinpath directory name)) as [[|]|]; cbn [fst] in Hin;
      (destruct Hin as [Hprint | Hin]; [injection Hprint as <-; apply prefix_app|]);
      try (destruct Hin).
    apply (prefix_app_l prefix
             (if (i =? List.length entries - 1)%nat then "    " else "│   ")).
    exact (H names entries (i, name) i name true line Hin).
Qed.

(** The lines printed under a directory that holds one subdirectory. *)
Lemma print_tree_lines_keep_prefix_witness :
  String.prefix ">> " ">> └── d" = true.
Proof.
  apply (print_tree_lines_keep_prefix (fun _ => Dir ["d"]) "results" ">> " 2 0 ">> └── d").
  vm_compute. auto.
Defined.

Lemma insert_sorted_perm {A : Type} (leb : A -> A -> bool) (x : A) (l : list A) :
  Permutation (insert_sorted leb x l) (x :: l).
Proof.
  induction l as [|y l IH]; cbn [insert_sorted]; [reflexivity|].
  destruct (leb x y); [reflexivity|].
  rewrite IH. apply perm_swap.
Qed.

(** [sorted] returns its argument rearranged. *)
Lemma sorted_perm {A : Type} (leb : A -> A -> bool) (l : list A) :
  Permutation (sorted leb l) l.
Proof.
  induction l as [|x l IH]; cbn [sorted fold_right]; [reflexivity|].
  rewrite insert_sorted_perm. constructor. exact IH.
Qed.

(** The keys [sorted] computes: one for each name, in order, each with
    the answer of [is_file()]; and none when an [is_file()] raises. *)
Lemma entry_keys_answer (fs : filesystem) (directory : string) (names : list string) :
  Forall (fun name => is_file fs (joinpath directory name) <> PermissionError) names ->
  exists keys : list (bool * string),
    entry_keys fs directory names = Answer keys /\
    map snd keys = names /\
    Forall (fun key => is_file fs (joinpath directory (snd key)) = Answer (fst key)) keys.
Proof.
  induction 1 as [|name names Hname _ IH]; cbn [entry_keys].
  - exists []. split; [reflexivity|]. split; [reflexivity | constructor].
  - destruct IH as (keys & -> & Hnames & Hkeys).
    destruct (is_file fs (joinpath directory name)) as [file|] eqn:Hfile; [|congruence].
    exists ((file, name) :: keys). split; [reflexivity|].
    split; [cbn [map snd]; rewrite Hnames; reflexivity|].
    constructor; [exact Hfile | exact Hkeys].
Qed.

Lemma entry_keys_raises (fs : filesystem) (directory : string) (names : list string) :
  Exists (fun name => is_file fs (joinpath directory name) = PermissionError) names ->
  entry_keys fs directory names = PermissionError.
Proof.
  induction 1 as [name names Hname | name names _ IH]; cbn [entry_keys].
  - rewrite Hname. reflexivity.
  - rewrite IH. destruct (is_file fs (joinpath directory name)); reflexivity.
Qed.

Lemma entry_keys_cases (fs : filesystem) (directory : string) (names : list string) :
  Forall (fun name => is_file fs (joinpath directory name) <> PermissionError) names
  \/ Exists (fun name => is_file fs (joinpath directory name) = PermissionError) names.
Proof.
  induction names as [|name names [IH | IH]].
  - left. constructor.
  - destruct (is_file fs (joinpath directory name)) as [file|] eqn:Hfile.
    + left. constructor; [rewrite Hfile; discriminate | exact IH].
    + right. apply Exists_cons_hd. exact Hfile.
  - right. apply Exists_cons_tl. exact IH.
Qed.

Lemma insert_sorted_false_first (x : bool * string) (l : list (bool * string)) :
  false_first l -> false_first (insert_sorted key_leb x l).
Proof.
  intros (others & files & -> & Hothers & Hfiles).
  induction Hothers as [|y others Hy Hothers IH]; cbn [app].
  - (* only files are left *)
    destruct (fst x) eqn:Hx.
    + exists [], (insert_sorted key_leb x files).
      split; [reflexivity|]. split; [constructor|].
      eapply Permutation_Forall; [symmetry; apply insert_sorted_perm|].
      constructor; assumption.
    + exists [x], files. split; [|split; [constructor; [exact Hx | constructor] | exact Hfiles]].
      destruct Hfiles as [|f files Hf Hfiles]; [reflexivity|].
      cbn [insert_sorted]. unfold key_leb at 1. rewrite Hx, Hf. reflexivity.
  - cbn [insert_sorted].
    destruct (key_leb x y) eqn:Hleb.
    + assert (Hx : fst x = false).
      { unfold key_leb in Hleb. rewrite Hy in Hleb.
        destruct (fst x); [discriminate | reflexivity]. }
      exists (x :: y :: others), files.
      split; [reflexivity|]. split; [|exact Hfiles].
      constructor; [exact Hx|]. constructor; assumption.
    + destruct IH as (others' & files' & E & Hothers' & Hfiles').
      exists (y :: others'), files'. rewrite E.
      split; [reflexivity|]. split; [constructor; assumption | exact Hfiles'].
Qed.

Lemma sorted_false_first (keys : list (bool * string)) : false_first (sorted key_leb keys).
Proof.
  induction keys as [|x keys IH]; cbn [sorted fold_right].
  - exists [], []. repeat constructor.
  - apply insert_sorted_false_first. exact IH.
Qed.

(** What [sorted_entries] returns when every entry can be looked at: the
    names rearranged, the regular files last. *)
Lemma sorted_entries_answer (fs : filesystem) (directory : string) (names : list string) :
  Forall (fun name => is_file fs (joinpath directory name) <> PermissionError) names ->
  exists entries : list string,
    sorted_entries fs directory names = Answer entries /\
    Permutation entries names /\
    files_last fs directory entries.
Proof.
  intros Hnames.
  destruct (entry_keys_answer fs directory names Hnames) as (keys & Hkeys & Hsnd & Hfile).
  exists (map snd (sorted key_leb keys)).
  split; [unfold sorted_entries; rewrite Hkeys; reflexivity|].
  pose proof (sorted_perm key_leb keys) as Hperm.
  split; [rewrite <- Hsnd; apply Permutation_map; exact Hperm|].
  assert (Hsorted : Forall (fun key => is_file fs (joinpath directory (snd key))
                                       = Answer (fst key)) (sorted key_leb keys)).
  { eapply Permutation_Forall; [symmetry; exact Hperm | exact Hfile]. }
  destruct (sorted_false_first keys) as (others & files & E & Hothers & Hfiles).
  rewrite E in *. apply Forall_app in Hsorted. destruct Hsorted as [Hso Hsf].
  exists (map snd others), (map snd files).
  split; [apply map_app|]. split; apply Forall_map.
  - rewrite Forall_forall in *. intros key Hin.
    rewrite (Hso key Hin), (Hothers key Hin). reflexivity.
  - rewrite Forall_forall in *. intros key Hin.
    rewrite (Hsf key Hin), (Hfiles key Hin). reflexivity.
Qed.

Lemma printed_app (t1 t2 : list event) :
  printed (t1 ++ t2) = (printed t1 ++ printed t2)%list.
Proof.
  induction t1 as [|e t1 IH]; [reflexivity|].
  destruct e; cbn [app printed]; rewrite IH; reflexivity.
Qed.

(** A loop whose rounds do not raise and print one line each. *)
Lemma printed_for_until_raise {A : Type} (body : A -> list event * bool)
    (line : A -> string) (l : list A) :
  (forall a, In a l -> snd (body a) = false /\ printed (fst (body a)) = [line a]) ->
  printed (for_until_raise body l) = map line l.
Proof.
  induction l as [|a l IH]; intros Hbody; [reflexivity|].
  cbn [for_until_raise map].
  destruct (Hbody a (or_introl eq_refl)) as [-> Hline].
  rewrite printed_app, Hline, IH; [reflexivity|].
  intros b Hb. apply Hbody. right. exact Hb.
Qed.

Lemma in_enumerate_from {A : Type} (l : list A) : forall (start i : nat) (a : A),
  In (i, a) (enumerate_from start l) -> In a l.
Proof.
  induction l as [|x l IH]; intros start i a; cbn [enumerate_from]; [intros []|].
  intros [E | H]; [injection E as _ <-; left; reflexivity | right; exact (IH _ _ _ H)].
Qed.

(** An entry that [is_file()] answers for is one that [is_dir()] answers
    for: both call [os.stat]. *)
Lemma is_dir_answers (fs : filesystem) (p : string) :
  is_file fs p <> PermissionError -> is_dir fs p <> PermissionError.
Proof.
  unfold is_file, is_dir. destruct (fs p); congruence.
Qed.



Example print_tree_example_tree :
  printed (print_tree example_tree "top" EmptyString 4 0)
  = ["├── a"; "│   └── x.csv"; "└── b.csv"].
Proof. reflexivity. Qed.


End PrintTreeLines.

(** ** check_dataset: counts, and what the check looks at *)

Section CheckDatasetMore.

Import CheckDataset.

Lemma substring_end (s : string) : substring (String.length s) 0 s = EmptyString.
Proof. induction s as [|a s IH]; cbn; [reflexivity | exact IH]. Qed.

Lemma endswith_empty (s : string) : endswith s EmptyString = true.
Proof.
  unfold endswith. cbn [String.length]. rewrite Nat.sub_0_r, substring_end. reflexivity.
Qed.

Lemma endswith_wav_not_csv (s : string) :
  endswith s ".wav" = true -> endswith s ".csv" = false.
Proof.
  unfold endswith. cbn [String.length]. intros H.
  apply andb_true_iff in H. destruct H as [Hlen Hsub].
  apply String.eqb_eq in Hsub. rewrite Hlen, Hsub. reflexivity.
Qed.

Lemma filter_disjoint_length {A : Type} (p q : A -> bool) (l : list A) :
  (forall x, p x = true -> q x = false) ->
  List.length (filter p l) + List.length (filter q l) <= List.length l.
Proof.
  intros Hpq. induction l as [|x l IH]; cbn [filter List.length]; [lia|].
  destruct (p x) eqn:Hp.
  - rewrite (Hpq x Hp). cbn [List.length]. lia.
  - destruct (q x); cbn [List.length]; lia.
Qed.

(** The counts of [check_directory], when it returns: WAV and CSV files
    are counted apart and both among the entries, so that together they
    never exceed the total; and a path that is not a directory has all
    three counts 0. *)
Theorem check_directory_counts (fs : filesystem) (path : string)
    (ok : bool) (total wav csv : nat) :
  check_directory fs path = Answer (ok, total, wav, csv) ->
  wav + csv <= total /\
  (ok = false -> total = 0 /\ wav = 0 /\ csv = 0).
Proof.
  unfold check_directory.
  destruct (path_exists fs path) as [[|]|]; [| |discriminate].
  - destruct (is_dir fs path) as [[|]|]; [| |discriminate].
    + intros E. injection E as <- <- <- <-. split; [|discriminate].
      unfold glob_suffix. destruct (fs path); cbn [List.length]; try lia.
      rewrite (filter_ext (fun n => endswith n EmptyString) (fun _ => true))
        by (intros n; apply endswith_empty).
      rewrite (forallb_filter_id (fun _ => true) entries) by (apply forallb_forall; reflexivity).
      apply filter_disjoint_length. exact endswith_wav_not_csv.
    + intros E. injection E as <- <- <- <-. auto.
  - intros E. injection E as <- <- <- <-. auto.
Qed.

(** A directory of the example, which holds one WAV file and one CSV
    file. *)
Lemma check_directory_counts_witness :
  check_directory example_dataset "MedleyDB-Pitch/audio" = Answer (true, 2, 1, 1) /\
  1 + 1 <= 2 /\ (true = false -> 2 = 0 /\ 1 = 0 /\ 1 = 0).
Proof.
  split; [reflexivity|].
  apply (check_directory_counts example_dataset "MedleyDB-Pitch/audio" true 2 1 1).
  reflexivity.
Defined.

Lemma check_directory_agree (fs1 fs2 : filesystem) (path : string) :
  fs1 path = fs2 path -> check_directory fs1 path = check_directory fs2 path.
Proof.
  intros E. unfold check_directory, path_exists, is_dir, glob_suffix. rewrite E. reflexivity.
Qed.

Lemma check_experiments_agree (fs1 fs2 : filesystem) (exps : list (string * string)) :
  (forall e, In e exps ->
     fs1 ("MedleyDB-Pitch-Experiments/" ++ fst e) = fs2 ("MedleyDB-Pitch-Experiments/" ++ fst e)) ->
  forall st : state,
    check_experiments fs1 exps st = check_experiments fs2 exps st.
Proof.
  induction exps as [|e exps IH]; intros Hagree st; cbn [check_experiments]; [reflexivity|].
  assert (E : check_experiment fs1 st e = check_experiment fs2 st e).
  { destruct e as [rel_path desc]. unfold check_experiment.
    rewrite (check_directory_agree fs1 fs2 ("MedleyDB-Pitch-Experiments/" ++ rel_path)
               (Hagree (rel_path, desc) (or_introl eq_refl))).
    reflexivity. }
  rewrite E. destruct (check_experiment fs2 st e) as [st'|]; [|reflexivity].
  apply IH. intros e' Hin. apply Hagree. right. exact Hin.
Qed.

(** [main] looks at the eight required paths and at nothing else: on two
    file systems that give the same at each of them (what stands there,
    and whether it can be reached) it prints the same lines and exits
    with the same status. *)
Theorem check_dataset_looks_at_required_only (fs1 fs2 : filesystem) :
  (forall path label : string, In (path, label) required -> fs1 path = fs2 path) ->
  main fs1 = main fs2.
Proof.
  intros Hagree. unfold main.
  rewrite (check_directory_agree fs1 fs2 "MedleyDB-Pitch/audio")
    by (apply (Hagree _ "audio/"); left; reflexivity).
  rewrite (check_directory_agree fs1 fs2 "MedleyDB-Pitch/pitch")
    by (apply (Hagree _ "pitch/"); right; left; reflexivity).
  destruct (check_directory fs2 "MedleyDB-Pitch/audio")
    as [[[[audio_ok audio_total] audio_wav] x]|]; [|reflexivity].
  destruct (check_directory fs2 "MedleyDB-Pitch/pitch")
    as [[[[pitch_ok pitch_total] y] pitch_csv]|]; [|reflexivity].
  rewrite (check_experiments_agree fs1 fs2 experiments); [reflexivity|].
  intros e Hin. apply (Hagree _ (fst e)). right. right.
  change (In ((fun e => ("MedleyDB-Pitch-Experiments/" ++ fst e, fst e)) e)
             (map (fun e => ("MedleyDB-Pitch-Experiments/" ++ fst e, fst e)) experiments)).
  apply in_map. exact Hin.
Qed.

(** A directory outside the required ones changes nothing. *)
Lemma check_dataset_looks_at_required_only_witness :
  main example_dataset = main example_dataset_with_extra.
Proof.
  apply (check_dataset_looks_at_required_only example_dataset example_dataset_with_extra).
  intros path label Hin. unfold required in Hin.
  repeat (destruct Hin as [E | Hin]; [injection E as <- _; reflexivity|]).
  destruct Hin.
Defined.

(** The same directories below a directory that cannot be entered are
    not the same to the check: what the two file systems give at the
    required paths differs, and so does what [main] does. *)
Example check_dataset_unreachable_differs :
  example_dataset "MedleyDB-Pitch/audio" <> example_dataset_unreachable "MedleyDB-Pitch/audio"
  /\ main example_dataset <> main example_dataset_unreachable.
Proof. split; discriminate. Qed.

End CheckDatasetMore.

(** ** The batch driver: what is evaluated, and how a run ends *)

Section BatchDriverMore.

Import EvaluateBasicPitch.

Variable evaluate : PitchEvaluator -> config -> filesystem -> outcome * filesystem.

Lemma last_app_nonempty {A : Type} (l1 l2 : list A) (d : A) :
  l2 <> [] -> last (l1 ++ l2) d = last l2 d.
Proof.
  intros Hne. induction l1 as [|x l1 IH]; [reflexivity|].
  cbn [app]. destruct (l1 ++ l2)%list as [|y l] eqn:E.
  - apply app_eq_nil in E. destruct E as [_ E]. contradiction.
  - exact IH.
Qed.

(** How each way through the body ends: the closing banner is not
    printed in it, and an exception that leaves it is either one that is
    not an instance of [Exception], after the call of [evaluate] that
    raised it, or the [PermissionError] of the look at the prediction
    directory, with nothing done. *)
Lemma body_shape_end (evaluator : PitchEvaluator) (exp_name : string) (c : config)
    (events : list event) (r : option raised) :
  body_shape evaluator exp_name c events r ->
  ~ In PrintComplete events /\
  (forall e, r = Some e ->
     (exists message, e = ABaseException message)
     /\ last events PrintBanner = CallEvaluate evaluator c
     \/ e = permission_error (prediction_dir c) /\ events = []).
Proof.
  intros [report [-> | ->] | n | n message | n message |]; cbn;
    (split; [intuition discriminate|]);
    intros e E; try discriminate E; injection E as <-; eauto.
Qed.

Lemma for_each_condition_order (evaluator : PitchEvaluator) (exps : list (string * config)) :
  forall fs : filesystem,
    (exists rest : list string,
       map fst exps
       = (conditions_handled (fst (fst (for_each_condition evaluate evaluator exps fs)))
          ++ rest)%list) /\
    subsequence (configs_called (fst (fst (for_each_condition evaluate evaluator exps fs))))
                (map snd exps).
Proof.
  induction exps as [|[exp_name c] rest IH]; intros fs.
  - cbn. split; [exists []; reflexivity | constructor].
  - rewrite for_each_condition_cons.
    pose proof (condition_body_shape evaluate evaluator exp_name c fs) as Hshape.
    destruct (condition_body evaluate evaluator exp_name c fs) as [[events r] fs'].
    cbn [fst snd] in Hshape.
    destruct (body_shape_trace _ _ _ _ _ Hshape) as (Hhandled & _ & Hcalls).
    assert (Hconfigs : configs_called events = [] \/ configs_called events = [c]).
    { rewrite configs_called_calls. destruct Hcalls as [-> | ->]; cbn; auto. }
    cbn [map fst snd].
    destruct r as [e|]; cbn [fst snd].
    + split.
      * destruct Hhandled as [-> | [-> _]];
          [exists (map fst rest) | exists (exp_name :: map fst rest)]; reflexivity.
      * destruct Hconfigs as [-> | ->]; [constructor|].
        apply SubTake. constructor.
    + destruct Hhandled as [Hhandled | [_ E]]; [|discriminate E].
      destruct (IH fs') as [[rest' Hrest] Hsub].
      rewrite conditions_handled_app, configs_called_app, Hhandled.
      split; [exists rest'; cbn [app]; rewrite Hrest; reflexivity|].
      destruct Hconfigs as [-> | ->]; cbn [app].
      * apply SubSkip. exact Hsub.
      * apply SubTake. exact Hsub.
Qed.

(** In every run, also one that an interrupt ends early, [main] handles
    the conditions in the configured order, from the first one on without
    a gap, and calls [evaluate] at most once for each, with the
    configuration of that condition, in the same order. *)
Theorem conditions_in_order_each_at_most_once (fs : filesystem) :
  (exists rest : list string,
     map fst experiments
     = (conditions_handled (fst (fst (main evaluate fs))) ++ rest)%list) /\
  subsequence (configs_called (fst (fst (main evaluate fs)))) (map snd experiments).
Proof.
  unfold main.
  destruct (for_each_condition_order {| pitch_tolerance := 50 |} experiments fs)
    as [[rest Hrest] Hsub].
  destruct (for_each_condition evaluate {| pitch_tolerance := 50 |} experiments fs)
    as [[events r] fs'].
  cbn [fst snd] in Hrest, Hsub.
  destruct r as [e|]; cbn [fst snd conditions_handled condition_of configs_called].
  - split; [exists rest; exact Hrest | exact Hsub].
  - rewrite conditions_handled_app, configs_called_app. cbn. rewrite !app_nil_r.
    split; [exists rest; exact Hrest | exact Hsub].
Qed.

Lemma for_each_condition_end (evaluator : PitchEvaluator) (exps : list (string * config)) :
  forall fs : filesystem,
    ~ In PrintComplete (fst (fst (for_each_condition evaluate evaluator exps fs))) /\
    (forall e, snd (fst (for_each_condition evaluate evaluator exps fs)) = Some e ->
       (exists (message : string) (c : config),
          e = ABaseException message /\
          last (fst (fst (for_each_condition evaluate evaluator exps fs))) PrintBanner
          = CallEvaluate evaluator c)
       \/
       (exists c : config,
          In c (map snd exps) /\
          e = permission_error (prediction_dir c) /\
          path_exists (snd (for_each_condition evaluate evaluator exps fs)) (prediction_dir c)
          = PermissionError)).
Proof.
  induction exps as [|[exp_name c] rest IH]; intros fs.
  - cbn. split; [tauto | discriminate].
  - rewrite for_each_condition_cons.
    pose proof (condition_body_shape evaluate evaluator exp_name c fs) as Hshape.
    assert (Hdenied : snd (fst (condition_body evaluate evaluator exp_name c fs))
                      = Some (permission_error (prediction_dir c)) ->
                      fst (fst (condition_body evaluate evaluator exp_name c fs)) = [] ->
                      path_exists (snd (condition_body evaluate evaluator exp_name c fs))
                        (prediction_dir c) = PermissionError).
    { unfold condition_body.
      destruct (path_exists fs (prediction_dir c)) as [[|]|] eqn:Hexists;
        [| discriminate | intros _ _; exact Hexists].
      destruct (List.length (glob_suffix fs (prediction_dir c) ".csv") =? 0)%nat;
        [discriminate|].
      destruct (evaluate evaluator c fs) as [[|[message | message]] fs1]; discriminate. }
    destruct (condition_body evaluate evaluator exp_name c fs) as [[events r] fs'].
    cbn [fst snd] in Hshape, Hdenied.
    destruct (body_shape_end _ _ _ _ _ Hshape) as (Hnot & Hend).
    destruct r as [e|]; cbn [fst snd map].
    + split; [exact Hnot|]. intros e' E. injection E as <-.
      destruct (Hend e eq_refl) as [[[message Hbase] Hlast] | [He Hevents]].
      * left. exists message, c. auto.
      * right. exists c. split; [left; reflexivity|]. split; [exact He|].
        subst e. apply Hdenied; [reflexivity | exact Hevents].
    + destruct (IH fs') as [IHnot IHend].
      split.
      * intros Hin. apply in_app_or in Hin. tauto.
      * intros e E.
        destruct (IHend e E) as [(message & c' & Hbase & Hlast) | (c' & Hin & He & Hx)].
        -- left. exists message, c'. split; [exact Hbase|].
           destruct (fst (fst (for_each_condition evaluate evaluator rest fs'))) as [|x l] eqn:El;
             [|rewrite last_app_nonempty by discriminate; exact Hlast].
           cbn in Hlast. discriminate Hlast.
        -- right. exists c'. split; [right; exact Hin | auto].
Qed.

(** How a run ends. Either [main] returns, and its last act is the
    closing banner. Or an exception leaves it, and the closing banner is
    not printed: an exception that is not an instance of [Exception],
    from the call of [evaluate] that is the last act of the run; or the
    [PermissionError] of the look at the prediction directory of one of
    the conditions, which cannot be reached when the run ends. *)
Theorem main_returns_or_is_interrupted (fs : filesystem) :
  (snd (fst (main evaluate fs)) = None ->
   last (fst (fst (main evaluate fs))) PrintBanner = PrintComplete) /\
  (forall e : raised,
     snd (fst (main evaluate fs)) = Some e ->
     ~ In PrintComplete (fst (fst (main evaluate fs))) /\
     ((exists (message : string) (c : config),
         e = ABaseException message /\
         last (fst (fst (main evaluate fs))) PrintBanner
         = CallEvaluate {| pitch_tolerance := 50 |} c)
      \/
      (exists c : config,
         In c (map snd experiments) /\
         e = permission_error (prediction_dir c) /\
         path_exists (snd (main evaluate fs)) (prediction_dir c) = PermissionError))).
Proof.
  unfold main.
  destruct (for_each_condition_end {| pitch_tolerance := 50 |} experiments fs) as [Hnot Hend].
  destruct (for_each_condition evaluate {| pitch_tolerance := 50 |} experiments fs)
    as [[events r] fs'].
  cbn [fst snd] in Hnot, Hend.
  destruct r as [e|]; cbn [fst snd].
  - split; [discriminate|]. intros e' E. injection E as <-.
    split.
    { intros [E | [E | Hin]]; [discriminate E | discriminate E | exact (Hnot Hin)]. }
    destruct (Hend e eq_refl) as [(message & c & Hbase & Hlast) | Hdenied];
      [left | right; exact Hdenied].
    exists message, c. split; [exact Hbase|].
    destruct events as [|x l]; [cbn in Hlast; discriminate Hlast|].
    exact Hlast.
  - split; [|discriminate]. intros _.
    change (NewEvaluator 50 :: PrintBanner :: (events ++ [PrintComplete])%list)
      with (([NewEvaluator 50; PrintBanner] ++ (events ++ [PrintComplete]))%list).
    rewrite app_assoc. apply last_last.
Qed.

(** When each configured prediction directory can be looked at and none
    holds a CSV file, [main] skips the six conditions, never calls
    [evaluate], leaves the file system as it found it, and returns
    normally. *)
Theorem no_predictions_no_evaluation (fs : filesystem) :
  (forall path : string,
     In path prediction_dirs -> reachable fs path /\ holds_csv fs path = false) ->
  configs_called (fst (fst (main evaluate fs))) = [] /\
  conditions_handled (fst (fst (main evaluate fs))) = map fst experiments /\
  snd (fst (main evaluate fs)) = None /\
  snd (main evaluate fs) = fs.
Proof.
  intros Hnone.
  assert (Hloop : forall exps : list (string * config),
            (forall e, In e exps -> In (prediction_dir (snd e)) prediction_dirs) ->
            for_each_condition evaluate {| pitch_tolerance := 50 |} exps fs
            = (fst (fst (for_each_condition evaluate {| pitch_tolerance := 50 |} exps fs)),
               None, fs) /\
            configs_called
              (fst (fst (for_each_condition evaluate {| pitch_tolerance := 50 |} exps fs))) = [] /\
            conditions_handled
              (fst (fst (for_each_condition evaluate {| pitch_tolerance := 50 |} exps fs)))
            = map fst exps).
  { induction exps as [|[exp_name c] rest IH]; intros Hdirs.
    - cbn. auto.
    - destruct IH as (IHrun & IHcalls & IHhandled).
      { intros e He. apply Hdirs. right. exact He. }
      destruct (Hnone _ (Hdirs (exp_name, c) (or_introl eq_refl))) as [Hreach Hcsv].
      cbn [snd] in Hreach, Hcsv.
      rewrite for_each_condition_cons.
      unfold condition_body. unfold reachable in Hreach. unfold holds_csv in Hcsv.
      apply negb_false_iff in Hcsv.
      destruct (path_exists fs (prediction_dir c)) as [[|]|]; [| |congruence].
      + rewrite Hcsv. rewrite IHrun at 1 2 3. cbn [fst snd map app].
        cbn [configs_called conditions_handled condition_of].
        rewrite IHcalls, IHhandled. auto.
      + rewrite IHrun at 1 2 3. cbn [fst snd map app].
        cbn [configs_called conditions_handled condition_of].
        rewrite IHcalls, IHhandled. auto. }
  destruct (Hloop experiments) as (Hrun & Hcalls & Hhandled).
  { intros e He. unfold prediction_dirs.
    apply (in_map (fun e => prediction_dir (snd e))). exact He. }
  unfold main. rewrite Hrun. cbn [fst snd configs_called conditions_handled condition_of].
  rewrite configs_called_app, conditions_handled_app, Hcalls, Hhandled.
  cbn. rewrite ?app_nil_r. auto.
Qed.


End BatchDriverMore.

Section BatchDriverMoreExamples.

Import EvaluateBasicPitch.

(** Nothing is there at all. *)
Lemma no_predictions_no_evaluation_witness :
  configs_called (fst (fst (main evaluate_interrupted (fun _ => Missing)))) = [] /\
  conditions_handled (fst (fst (main evaluate_interrupted (fun _ => Missing))))
  = map fst experiments /\
  snd (fst (main evaluate_interrupted (fun _ => Missing))) = None /\
  snd (main evaluate_interrupted (fun _ => Missing)) = (fun _ => Missing).
Proof.
  apply (no_predictions_no_evaluation evaluate_interrupted (fun _ => Missing)).
  intros path _. split; [discriminate | reflexivity].
Defined.


(** The prediction directories cannot be reached: the run ends at the
    look at the first one. *)
Example main_on_unreachable_predictions :
  snd (fst (main evaluate_failing example_fs_unreachable))
  = Some (permission_error "results/predictions/basic_pitch_normalized/clean").
Proof. reflexivity. Qed.

End BatchDriverMoreExamples.

(** ** load_results: what is stored under each key *)

Section LoadResultsMore.

Import Pandas.

Tactic Notation "bind_inv" hyp(H) ident(a) ident(Ha) :=
  apply bind_ok in H; destruct H as (a & Ha & H).

(** A dictionary built by [mapM] from one entry per key holds each key
    with the value computed for it. *)
Lemma mapM_dict {A : Type} (g : string -> result A) (keys : list string) :
  forall d : dict A,
    mapM (fun k => v <- g k ;; Ok (k, v)) keys = Ok d ->
    map fst d = keys /\
    forall k, In k keys -> exists v : A, g k = Ok v /\ dict_get d k = Some v.
Proof.
  induction keys as [|k0 keys IH]; intros d H; cbn [mapM] in H.
  - injection H as <-. split; [reflexivity | intros k []].
  - bind_inv H entry Hentry. bind_inv H d' Hd'. injection H as <-.
    bind_inv Hentry v0 Hv0. injection Hentry as <-.
    destruct (IH d' Hd') as [Hkeys Hget].
    split; [cbn [map fst]; rewrite Hkeys; reflexivity|].
    intros k Hin. unfold dict_get. cbn [find fst snd].
    destruct (String.eqb k0 k) eqn:E.
    + apply String.eqb_eq in E. subst k0. eauto.
    + destruct Hin as [E' | Hin]; [subst k0; rewrite String.eqb_refl in E; discriminate E|].
      exact (Hget k Hin).
Qed.

Lemma mapM_raises {A B : Type} (f : A -> result B) (l : list A) (a : A) (e : error) :
  In a l -> f a = Raise e -> exists e' : error, mapM f l = Raise e'.
Proof.
  induction l as [|x l IH]; intros Hin Ha; [destruct Hin|].
  cbn [mapM]. destruct (f x) as [y | e0] eqn:Ex; cbn [bind]; [|eauto].
  destruct Hin as [-> | Hin]; [congruence|].
  destruct (IH Hin Ha) as (e' & ->). cbn [bind]. eauto.
Qed.

(** What [load_results] stores under a model and a condition is what the
    body of its loops computes for them. *)
Lemma load_results_lookup (results_dir : string) (store : csv_store)
    (results : dict (dict (option DataFrame))) (model condition : string) :
  PlotResults.load_results results_dir store = Ok results ->
  In model PlotResults.models -> In condition PlotResults.conditions ->
  exists (per_condition : dict (option DataFrame)) (table : option DataFrame),
    dict_get results model = Some per_condition /\
    dict_get per_condition condition = Some table /\
    PlotResults.lookup results model condition = table /\
    PlotResults.load_condition results_dir store
      (store (joinpath PlotResults.manifests_dir "manifest_dist.csv")) model condition
    = Ok table.
Proof.
  unfold PlotResults.load_results. intros Hload Hmodel Hcondition.
  destruct (mapM_dict _ _ _ Hload) as [_ Hget].
  destruct (Hget model Hmodel) as (per_condition & Hper & Hgm).
  destruct (mapM_dict _ _ _ Hper) as [_ Hget'].
  destruct (Hget' condition Hcondition) as (table & Htable & Hgc).
  exists per_condition, table. unfold PlotResults.lookup. rewrite Hgm, Hgc.
  destruct table; auto.
Qed.

Lemma load_results_keys (results_dir : string) (store : csv_store)
    (results : dict (dict (option DataFrame))) :
  PlotResults.load_results results_dir store = Ok results ->
  map fst results = PlotResults.models /\
  Forall (fun entry => map fst (snd entry) = PlotResults.conditions) results /\
  holds_every_condition results.
Proof.
  intros Hload. split; [|split].
  - unfold PlotResults.load_results in Hload. apply (mapM_dict _ _ _ Hload).
  - unfold PlotResults.load_results in Hload. apply mapM_ok in Hload.
    induction Hload as [|model entry models results Hentry _ IH]; constructor; [|exact IH].
    bind_inv Hentry per_condition Hper. injection Hentry as <-.
    cbn [snd]. apply (mapM_dict _ _ _ Hper).
  - intros model condition Hmodel Hcondition.
    destruct (load_results_lookup _ _ _ _ _ Hload Hmodel Hcondition)
      as (per_condition & table & Hgm & Hgc & _).
    eauto.
Qed.

(** When [load_results] returns, [results[model][condition]] is there for
    each of the three models and eight conditions, a table or [None]:
    the keys of the result are the models, and under each of them the
    conditions, in order. *)
Theorem load_results_has_every_key (results_dir : string) (store : csv_store)
    (results : dict (dict (option DataFrame))) :
  PlotResults.load_results results_dir store = Ok results ->
  map fst results = PlotResults.models /\
  Forall (fun entry => map fst (snd entry) = PlotResults.conditions) results /\
  holds_every_condition results.
Proof. apply load_results_keys. Qed.

(** The results of the example. *)
Lemma load_results_has_every_key_witness :
  exists results : dict (dict (option DataFrame)),
    PlotResults.load_results "results/metrics" example_store = Ok results /\
    map fst results = PlotResults.models /\
    Forall (fun entry => map fst (snd entry) = PlotResults.conditions) results /\
    holds_every_condition results.
Proof.
  eexists. split; [vm_compute; reflexivity|].
  apply (load_results_has_every_key "results/metrics" example_store).
  vm_compute. reflexivity.
Defined.

Lemma lookup_some_keys (results_dir : string) (store : csv_store)
    (results : dict (dict (option DataFrame))) (model condition : string) (df : DataFrame) :
  PlotResults.load_results results_dir store = Ok results ->
  PlotResults.lookup results model condition = Some df ->
  In model PlotResults.models /\ In condition PlotResults.conditions.
Proof.
  intros Hload Hlookup.
  destruct (load_results_keys _ _ _ Hload) as (Hmodels & Hconditions & _).
  unfold PlotResults.lookup in Hlookup.
  destruct (dict_get results model) as [per_condition|] eqn:Em; [|discriminate Hlookup].
  destruct (dict_get per_condition condition) as [table|] eqn:Ec; [|discriminate Hlookup].
  apply dict_get_In in Em, Ec. split.
  - rewrite <- Hmodels. apply (in_map fst) in Em. exact Em.
  - rewrite Forall_forall in Hconditions. specialize (Hconditions _ Em). cbn [snd] in Hconditions.
    rewrite <- Hconditions. apply (in_map fst) in Ec. exact Ec.
Qed.

(** For a condition other than the distortion levels, what is stored is
    the report file of the model and condition with its [AVERAGE] rows
    taken out and every other row kept, in order, under the columns of
    the file; and [None] when the file is not there. *)
Theorem load_results_keeps_per_file_rows (results_dir : string) (store : csv_store)
    (results : dict (dict (option DataFrame))) (model condition : string) :
  PlotResults.load_results results_dir store = Ok results ->
  In model PlotResults.models -> In condition PlotResults.conditions ->
  String.prefix "distortion_" condition = false ->
  PlotResults.lookup results model condition
  = match store (joinpath results_dir (model ++ "_" ++ condition ++ ".csv")) with
    | Some df =>
        Some {| columns := columns df;
                rows := filter (fun r => negb (cell_is "AVERAGE" (get r "filename")))
                               (rows df) |}
    | None => None
    end.
Proof.
  intros Hload Hmodel Hcondition Hplain.
  destruct (load_results_lookup _ _ _ _ _ Hload Hmodel Hcondition)
    as (per_condition & table & _ & _ & -> & Hbody).
  unfold PlotResults.load_condition in Hbody. rewrite Hplain in Hbody.
  destruct (store (joinpath results_dir (model ++ "_" ++ condition ++ ".csv"))) as [df|].
  - bind_inv Hbody df' Hdf'. injection Hbody as <-.
    unfold where_ne in Hdf'. destruct (has_column df "filename"); [|discriminate Hdf'].
    injection Hdf' as <-. reflexivity.
  - injection Hbody as <-. reflexivity.
Qed.

(** The report of librosa on the clean condition, in the example. *)
Lemma load_results_keeps_per_file_rows_witness :
  exists results : dict (dict (option DataFrame)),
    PlotResults.load_results "results/metrics" example_store = Ok results /\
    PlotResults.lookup results "librosa" "clean"
    = match example_store (joinpath "results/metrics" ("librosa" ++ "_" ++ "clean" ++ ".csv")) with
      | Some df =>
          Some {| columns := columns df;
                  rows := filter (fun r => negb (cell_is "AVERAGE" (get r "filename")))
                                 (rows df) |}
      | None => None
      end.
Proof.
  eexists. split; [vm_compute; reflexivity|].
  apply (load_results_keeps_per_file_rows "results/metrics" example_store).
  - vm_compute. reflexivity.
  - left. reflexivity.
  - left. reflexivity.
  - reflexivity.
Defined.

Lemma distortion_table_shape (results_dir : string) (store : csv_store)
    (results : dict (dict (option DataFrame))) (model condition : string) (df : DataFrame) :
  PlotResults.load_results results_dir store = Ok results ->
  PlotResults.lookup results model condition = Some df ->
  String.prefix "distortion_" condition = true ->
  0 < len df /\
  has_column df "track_id" = false /\
  has_column df "level_tag" = false /\
  store (joinpath PlotResults.manifests_dir "manifest_dist.csv") <> None.
Proof.
  intros Hload Hlookup Hdist.
  destruct (lookup_some_keys _ _ _ _ _ _ Hload Hlookup) as [Hmodel Hcondition].
  destruct (load_results_lookup _ _ _ _ _ Hload Hmodel Hcondition)
    as (per_condition & table & _ & _ & Htable & Hbody).
  rewrite Hlookup in Htable. subst table.
  unfold PlotResults.load_condition in Hbody. rewrite Hdist in Hbody.
  destruct (store (joinpath results_dir (model ++ "_distortion.csv"))) as [df0|];
    [|discriminate Hbody].
  destruct (store (joinpath PlotResults.manifests_dir "manifest_dist.csv")) as [manifest|];
    [|discriminate Hbody].
  bind_inv Hbody df1 Hdf1. bind_inv Hbody df2 Hdf2. bind_inv Hbody tags Htags.
  bind_inv Hbody df3 Hdf3. bind_inv Hbody df_level Hlevel.
  destruct (0 <? len df_level)%nat eqn:Hlen; [|discriminate Hbody].
  injection Hbody as <-.
  split; [|split; [|split; [|discriminate]]].
  - apply Nat.ltb_lt in Hlen. unfold len, drop in *. cbn [rows]. rewrite length_map. exact Hlen.
  - unfold has_column, drop, mem. cbn [columns].
    apply not_true_is_false. intros H. apply existsb_exists in H.
    destruct H as (c & Hin & E). apply String.eqb_eq in E. subst c.
    apply filter_In in Hin. destruct Hin as [_ Hin]. discriminate Hin.
  - unfold has_column, drop, mem. cbn [columns].
    apply not_true_is_false. intros H. apply existsb_exists in H.
    destruct H as (c & Hin & E). apply String.eqb_eq in E. subst c.
    apply filter_In in Hin. destruct Hin as [_ Hin]. discriminate Hin.
Qed.

(** A table stored under a distortion level is never empty, and the two
    helper columns of the split, [track_id] and [level_tag], are gone from
    it. *)
Theorem distortion_tables_are_not_empty (results_dir : string) (store : csv_store)
    (results : dict (dict (option DataFrame))) (model condition : string) (df : DataFrame) :
  PlotResults.load_results results_dir store = Ok results ->
  PlotResults.lookup results model condition = Some df ->
  String.prefix "distortion_" condition = true ->
  0 < len df /\
  has_column df "track_id" = false /\
  has_column df "level_tag" = false.
Proof.
  intros Hload Hlookup Hdist.
  destruct (distortion_table_shape _ _ _ _ _ _ Hload Hlookup Hdist) as (H1 & H2 & H3 & _).
  auto.
Qed.

(** The lightly distorted track of the example. *)
Lemma distortion_tables_are_not_empty_witness :
  exists (results : dict (dict (option DataFrame))) (df : DataFrame),
    PlotResults.load_results "results/metrics" example_store_with_distortion = Ok results /\
    PlotResults.lookup results "librosa" "distortion_light" = Some df /\
    rows df = [report_row "track1.csv" (Num (9 # 10)) (Num (8 # 10)) (Num (85 # 100)) (Num 1)] /\
    0 < len df /\
    has_column df "track_id" = false /\
    has_column df "level_tag" = false.
Proof.
  eexists. eexists.
  split; [vm_compute; reflexivity|].
  split; [vm_compute; reflexivity|].
  split; [reflexivity|].
  eapply (distortion_tables_are_not_empty "results/metrics" example_store_with_distortion
            _ "librosa" "distortion_light").
  - vm_compute. reflexivity.
  - vm_compute. reflexivity.
  - reflexivity.
Defined.

(** Without the distortion manifest, nothing is stored under the three
    distortion levels, whatever the distortion reports hold. *)
Theorem no_manifest_no_distortion_tables (results_dir : string) (store : csv_store)
    (results : dict (dict (option DataFrame))) (model condition : string) :
  PlotResults.load_results results_dir store = Ok results ->
  store (joinpath PlotResults.manifests_dir "manifest_dist.csv") = None ->
  String.prefix "distortion_" condition = true ->
  PlotResults.lookup results model condition = None.
Proof.
  intros Hload Hmanifest Hdist.
  destruct (PlotResults.lookup results model condition) as [df|] eqn:Hlookup; [|reflexivity].
  destruct (distortion_table_shape _ _ _ _ _ _ Hload Hlookup Hdist)
    as (_ & _ & _ & Hthere).
  contradiction.
Qed.

(** The example has no distortion manifest. *)
Lemma no_manifest_no_distortion_tables_witness :
  exists results : dict (dict (option DataFrame)),
    PlotResults.load_results "results/metrics" example_store = Ok results /\
    PlotResults.lookup results "librosa" "distortion_light" = None.
Proof.
  eexists. split; [vm_compute; reflexivity|].
  apply (no_manifest_no_distortion_tables "results/metrics" example_store).
  - vm_compute. reflexivity.
  - reflexivity.
  - reflexivity.
Defined.

(** One report that is there without a [filename] column, for any model
    and any condition other than the distortion levels, makes the whole of
    [load_results] fail: no table is returned for any model. *)
Theorem report_without_filename_fails_the_load (results_dir : string) (store : csv_store)
    (model condition : string) (df : DataFrame) :
  In model PlotResults.models -> In condition PlotResults.conditions ->
  String.prefix "distortion_" condition = false ->
  store (joinpath results_dir (model ++ "_" ++ condition ++ ".csv")) = Some df ->
  has_column df "filename" = false ->
  exists e : error, PlotResults.load_results results_dir store = Raise e.
Proof.
  intros Hmodel Hcondition Hplain Hfile Hcolumn.
  assert (Hbody : PlotResults.load_condition results_dir store
                    (store (joinpath PlotResults.manifests_dir "manifest_dist.csv"))
                    model condition = Raise (KeyError "filename")).
  { unfold PlotResults.load_condition. rewrite Hplain, Hfile.
    unfold where_ne. rewrite Hcolumn. reflexivity. }
  destruct (mapM_raises
              (fun condition =>
                 df <- PlotResults.load_condition results_dir store
                         (store (joinpath PlotResults.manifests_dir "manifest_dist.csv"))
                         model condition ;;
                 Ok (condition, df))
              PlotResults.conditions condition (KeyError "filename") Hcondition)
    as (e' & He').
  { rewrite Hbody. reflexivity. }
  unfold PlotResults.load_results.
  apply (mapM_raises _ _ model e' Hmodel).
  cbv beta. rewrite He'. reflexivity.
Qed.

(** The report of crepe on the noise at 5 dB has no [filename] column. *)
Lemma report_without_filename_fails_the_load_witness :
  exists e : error,
    PlotResults.load_results "results/metrics" example_store_without_filename
    = Raise e.
Proof.
  apply (report_without_filename_fails_the_load "results/metrics"
           example_store_without_filename "crepe" "noise_5db"
           {| columns := ["OA"; "RPA"; "RCA"; "VR"];
              rows := [[("OA", Num 1); ("RPA", Num 1); ("RCA", Num 1); ("VR", Num 1)]] |}).
  - right. left. reflexivity.
  - do 4 right. left. reflexivity.
  - reflexivity.
  - reflexivity.
  - reflexivity.
Defined.

End LoadResultsMore.

(** ** plot_additional_comparisons: manifests, drawings and failures *)

Section AdditionalMore.

Import Pandas.

(** [load_manifests] holds each of the three manifests under its name
    exactly when its file is there, and holds nothing under any other
    name. *)
Theorem load_manifests_lookup (manifests_dir : string) (store : csv_store) :
  dict_get (PlotAdditionalComparisons.load_manifests manifests_dir store) "distortion"
  = store (joinpath manifests_dir "manifest_dist.csv") /\
  dict_get (PlotAdditionalComparisons.load_manifests manifests_dir store) "noise"
  = store (joinpath manifests_dir "manifest_noise.csv") /\
  dict_get (PlotAdditionalComparisons.load_manifests manifests_dir store) "tuning"
  = store (joinpath manifests_dir "manifest_tuning.csv") /\
  forall name : string,
    name <> "distortion" -> name <> "noise" -> name <> "tuning" ->
    dict_get (PlotAdditionalComparisons.load_manifests manifests_dir store) name = None.
Proof.
  unfold PlotAdditionalComparisons.load_manifests.
  destruct (store (joinpath manifests_dir "manifest_dist.csv")) as [d|],
           (store (joinpath manifests_dir "manifest_noise.csv")) as [n|],
           (store (joinpath manifests_dir "manifest_tuning.csv")) as [t|];
    (split; [reflexivity|]); (split; [reflexivity|]); (split; [reflexivity|]);
    intros name Hd Hn Ht;
    apply String.eqb_neq in Hd, Hn, Ht;
    rewrite String.eqb_sym in Hd; rewrite String.eqb_sym in Hn; rewrite String.eqb_sym in Ht;
    unfold dict_get; cbn [app find fst snd]; rewrite ?Hd, ?Hn, ?Ht; reflexivity.
Qed.

Lemma dropna_no_nan (vs : list cell) : ~ In NaN (dropna vs).
Proof.
  unfold dropna. intros H. apply filter_In in H. destruct H as [_ H]. discriminate H.
Qed.

(** The median of what [dropna] leaves is a number. *)
Lemma np_median_dropna_is_a_number (vs : list cell) (m : cell) :
  np_median (dropna vs) = Ok m -> exists q : Q, m = Num q.
Proof.
  unfold np_median. intros H. apply bind_ok in H. destruct H as (r & Hr & H).
  destruct (numbers_dropna vs r Hr) as (qs & ->).
  destruct (Nat.even (List.length (sorted Qle_bool qs))); injection H as <-; eauto.
Qed.

Lemma concat_no_nan (vss : list (list cell)) :
  Forall (fun vs => ~ In NaN vs) vss -> ~ In NaN (List.concat vss).
Proof.
  intros Hall Hin. apply in_concat in Hin. destruct Hin as (vs & Hvs & Hin).
  rewrite Forall_forall in Hall. exact (Hall vs Hvs Hin).
Qed.

(** On results that hold every model, nothing [plot_instrument_vocal]
    draws is at not-a-number: not a point of a scatter, not a median line,
    not a mean line. *)
Theorem plot_instrument_vocal_draws_no_nan (results : dict (option DataFrame))
    (figures : list (string * list drawing)) :
  holds_every_model results ->
  PlotAdditionalComparisons.plot_instrument_vocal results = Ok figures ->
  forall (metric : string) (drawings : list drawing) (d : drawing),
    In (metric, drawings) figures -> In d drawings -> ~ In NaN (drawn_values d).
Proof.
  unfold PlotAdditionalComparisons.plot_instrument_vocal.
  intros _ Hplot metric drawings d Hfig Hin.
  apply mapM_ok in Hplot.
  destruct (Forall2_In_r _ _ _ _ Hplot Hfig) as (metric' & _ & Hmetric).
  apply bind_ok in Hmetric. destruct Hmetric as (per_model & Hper & E).
  injection E as -> <-.
  apply in_concat in Hin. destruct Hin as (ds & Hds & Hin).
  apply mapM_ok in Hper.
  destruct (Forall2_In_r _ _ _ _ Hper Hds) as (model' & _ & Hmodel).
  unfold PlotAdditionalComparisons.instrument_vocal_of_model in Hmodel.
  destruct (dict_get results model') as [[df|]|];
    try (injection Hmodel as <-; destruct Hin).
  apply bind_ok in Hmodel. destruct Hmodel as (df_with_class & _ & Hmodel).
  destruct (len df_with_class =? 0)%nat; [injection Hmodel as <-; destruct Hin|].
  apply bind_ok in Hmodel. destruct Hmodel as (y_data & Hy & Hmodel).
  destruct (0 <? List.length (List.concat y_data))%nat;
    [|injection Hmodel as <-; destruct Hin].
  apply bind_ok in Hmodel. destruct Hmodel as (lines & Hlines & Hmodel).
  injection Hmodel as <-.
  destruct Hin as [<- | Hin].
  - (* the scatter *)
    cbn [drawn_values]. apply concat_no_nan.
    apply mapM_ok in Hy. clear - Hy.
    induction Hy as [|class_type vs l vss Hvs _ IH]; constructor; [|exact IH].
    destruct (class_values_dropped _ _ _ _ Hvs) as (vs0 & ->). apply dropna_no_nan.
  - (* the lines *)
    apply in_concat in Hin. destruct Hin as (line & Hline & Hin).
    apply mapM_ok in Hlines.
    destruct (Forall2_In_r _ _ _ _ Hlines Hline) as (class_type & _ & Hclass).
    apply bind_ok in Hclass. destruct Hclass as (vs & Hvs & Hclass).
    destruct (0 <? List.length vs)%nat; [|injection Hclass as <-; destruct Hin].
    apply bind_ok in Hclass. destruct Hclass as (median & Hmedian & Hclass).
    apply bind_ok in Hclass. destruct Hclass as (mean & Hmean & Hclass).
    injection Hclass as <-.
    destruct (class_values_dropped _ _ _ _ Hvs) as (vs0 & ->).
    destruct (np_median_dropna_is_a_number vs0 median Hmedian) as (q1 & ->).
    destruct (np_mean_dropna_is_a_number vs0 mean Hmean) as (q2 & ->).
    destruct Hin as [<- | [<- | []]]; cbn [drawn_values]; intros [E | []]; discriminate E.
Qed.

(** The scatter of RPA for the example with a tuning manifest: the one
    file with a defined RPA. *)
Lemma plot_instrument_vocal_draws_no_nan_witness :
  ~ In NaN (drawn_values (Scatter "librosa" [Num (8 # 10)])).
Proof.
  refine (plot_instrument_vocal_draws_no_nan example_results_with_manifest
            (match PlotAdditionalComparisons.plot_instrument_vocal
                     example_results_with_manifest with
             | Ok figures => figures
             | Raise _ => []
             end)
            _ _ "RPA"
            [Scatter "librosa" [Num (8 # 10)];
             MedianLine "vocal" "librosa" (Num (8 # 10));
             MeanLine "vocal" "librosa" (Num (8 # 10))]
            (Scatter "librosa" [Num (8 # 10)]) _ _).
  - intros model [<- | [<- | [<- | []]]]; vm_compute; discriminate.
  - vm_compute. reflexivity.
  - vm_compute. right. left. reflexivity.
  - left. reflexivity.
Defined.

End AdditionalMore.

(** ** The track identifier of a report row *)

Section TrackId.

Import Pandas.

Lemma get_set_same (r : row) (c : string) (v : cell) : get (set r c v) c = v.
Proof.
  induction r as [|[k w] r IH]; cbn [set].
  - rewrite get_cons, String.eqb_refl. reflexivity.
  - destruct (String.eqb k c) eqn:E; rewrite get_cons, E; [reflexivity | exact IH].
Qed.

Lemma prefix_dot_no_dot (a : ascii) (s tail : string) :
  Ascii.eqb a "." = false -> String.prefix (String "." tail) (String a s) = false.
Proof.
  intros Ha. cbn [String.prefix].
  destruct (ascii_dec "." a) as [E | _]; [|reflexivity].
  subst a. discriminate Ha.
Qed.

(** A string without a dot is left as it is by the two replacements. *)
Lemma str_replace_no_dot (tail s : string) :
  no_dot s = true -> str_replace (String "." tail) EmptyString s = s.
Proof.
  unfold str_replace. induction s as [|a s IH]; cbn [no_dot str_replace_from]; [reflexivity|].
  intros H. apply andb_true_iff in H. destruct H as [Ha Hs].
  apply negb_true_iff in Ha. rewrite (prefix_dot_no_dot a s tail Ha), (IH Hs). reflexivity.
Qed.

Lemma str_replace_csv_suffix (s : string) :
  no_dot s = true -> str_replace ".csv" EmptyString (s ++ ".csv") = s.
Proof.
  unfold str_replace. induction s as [|a s IH]; cbn [no_dot append str_replace_from].
  - reflexivity.
  - intros H. apply andb_true_iff in H. destruct H as [Ha Hs].
    apply negb_true_iff in Ha.
    rewrite (prefix_dot_no_dot a (s ++ ".csv") "csv" Ha), (IH Hs). reflexivity.
Qed.

Lemma str_replace_csv_keeps_wav (s : string) :
  no_dot s = true -> str_replace ".csv" EmptyString (s ++ ".wav") = s ++ ".wav".
Proof.
  unfold str_replace. induction s as [|a s IH]; cbn [no_dot append str_replace_from].
  - reflexivity.
  - intros H. apply andb_true_iff in H. destruct H as [Ha Hs].
    apply negb_true_iff in Ha.
    rewrite (prefix_dot_no_dot a (s ++ ".wav") "csv" Ha), (IH Hs). reflexivity.
Qed.

Lemma str_replace_wav_suffix (s : string) :
  no_dot s = true -> str_replace ".wav" EmptyString (s ++ ".wav") = s.
Proof.
  unfold str_replace. induction s as [|a s IH]; cbn [no_dot append str_replace_from].
  - reflexivity.
  - intros H. apply andb_true_iff in H. destruct H as [Ha Hs].
    apply negb_true_iff in Ha.
    rewrite (prefix_dot_no_dot a (s ++ ".wav") "wav" Ha), (IH Hs). reflexivity.
Qed.

(** The track identifier both plotting scripts derive from a file name:
    for a name without a dot followed by [.csv] or by [.wav], or with no
    extension at all, it is that name; and the file name of the row stays
    as it was. *)
Theorem track_id_is_the_name_without_extension (df df' : DataFrame) :
  add_track_id df = Ok df' ->
  Forall2
    (fun r r' =>
       forall name : string,
         no_dot name = true ->
         get r "filename" = Str (name ++ ".csv")
         \/ get r "filename" = Str (name ++ ".wav")
         \/ get r "filename" = Str name ->
         get r' "track_id" = Str name /\ get r' "filename" = get r "filename")
    (rows df) (rows df').
Proof.
  unfold add_track_id. destruct (has_column df "filename"); [|discriminate].
  intros H. injection H as <-. unfold assign. cbn [rows].
  induction (rows df) as [|r l IH]; cbn [map]; constructor; [|exact IH].
  intros name Hname Hfile.
  split; [|apply get_set_other; discriminate].
  rewrite get_set_same.
  destruct Hfile as [-> | [-> | ->]]; cbn [cell_str_replace]; f_equal.
  - rewrite (str_replace_csv_suffix name Hname). apply str_replace_no_dot. exact Hname.
  - rewrite (str_replace_csv_keeps_wav name Hname). apply str_replace_wav_suffix. exact Hname.
  - rewrite (str_replace_no_dot "csv" name Hname). apply str_replace_no_dot. exact Hname.
Qed.

(** The rows of the example report: [track1.csv] gives [track1]. *)
Lemma track_id_is_the_name_without_extension_witness :
  Forall2
    (fun r r' =>
       forall name : string,
         no_dot name = true ->
         get r "filename" = Str (name ++ ".csv")
         \/ get r "filename" = Str (name ++ ".wav")
         \/ get r "filename" = Str name ->
         get r' "track_id" = Str name /\ get r' "filename" = get r "filename")
    (rows example_report)
    (rows (assign example_report "track_id"
             (fun r => cell_str_replace ".wav" EmptyString
                         (cell_str_replace ".csv" EmptyString (get r "filename")))))
  /\ map (fun r => get r "track_id")
         (rows (assign example_report "track_id"
                  (fun r => cell_str_replace ".wav" EmptyString
                              (cell_str_replace ".csv" EmptyString (get r "filename")))))
     = [Str "track1"; Str "track2"; Str "AVERAGE"].
Proof.
  split; [|reflexivity].
  apply (track_id_is_the_name_without_extension example_report). reflexivity.
Defined.

End TrackId.

(** ** plot_instrument_vocal without class tags *)

Section WithoutClassTags.

Import Pandas.

Lemma mapM_first_raise {A B : Type} (f : A -> result (list B)) (e0 : error) (l : list A) :
  (forall a, In a l -> f a = Ok [] \/ f a = Raise e0) ->
  (exists a, In a l /\ f a = Raise e0) ->
  mapM f l = Raise e0.
Proof.
  induction l as [|x l IH]; intros Hall (a & Hin & Ha); [destruct Hin|].
  cbn [mapM]. destruct (Hall x (or_introl eq_refl)) as [Hx | Hx]; rewrite Hx; cbn [bind];
    [|reflexivity].
  destruct Hin as [-> | Hin]; [congruence|].
  rewrite IH; [reflexivity | intros b Hb; apply Hall; right; exact Hb | eauto].
Qed.

Lemma instrument_vocal_without_class_tag (results : dict (option DataFrame)) :
  (exists (model : string) (df : DataFrame),
     In model PlotAdditionalComparisons.models /\ dict_get results model = Some (Some df)) ->
  (forall (model : string) (df : DataFrame),
     In model PlotAdditionalComparisons.models ->
     dict_get results model = Some (Some df) -> has_column df "class_tag" = false) ->
  PlotAdditionalComparisons.plot_instrument_vocal results = Raise (KeyError "class_tag").
Proof.
  intros (model & df & Hmodel & Hdf) Hnone.
  assert (Hfirst : mapM (PlotAdditionalComparisons.instrument_vocal_of_model "OA" results)
                     PlotAdditionalComparisons.models = Raise (KeyError "class_tag")).
  { apply mapM_first_raise.
    - intros m Hm. unfold PlotAdditionalComparisons.instrument_vocal_of_model.
      destruct (dict_get results m) as [[d|]|] eqn:E; [right | left; reflexivity..].
      unfold where_notna. rewrite (Hnone m d Hm E). reflexivity.
    - exists model. split; [exact Hmodel|].
      unfold PlotAdditionalComparisons.instrument_vocal_of_model. rewrite Hdf.
      unfold where_notna. rewrite (Hnone model df Hmodel Hdf). reflexivity. }
  unfold PlotAdditionalComparisons.plot_instrument_vocal, PlotAdditionalComparisons.metrics.
  cbn [mapM]. rewrite Hfirst. reflexivity.
Qed.

(** [plot_instrument_vocal] needs the column [class_tag]: on results that
    hold every model, with a table for one model at least and that column
    in no table, it fails with [KeyError: 'class_tag'] before it draws
    anything. *)
Theorem plot_instrument_vocal_needs_class_tag (results : dict (option DataFrame)) :
  holds_every_model results ->
  (exists (model : string) (df : DataFrame),
     In model PlotAdditionalComparisons.models /\ dict_get results model = Some (Some df)) ->
  (forall (model : string) (df : DataFrame),
     In model PlotAdditionalComparisons.models ->
     dict_get results model = Some (Some df) -> has_column df "class_tag" = false) ->
  PlotAdditionalComparisons.plot_instrument_vocal results = Raise (KeyError "class_tag").
Proof. intros _. apply instrument_vocal_without_class_tag. Qed.

(** The one table of the example, which has no [class_tag]. *)
Lemma plot_instrument_vocal_needs_class_tag_witness :
  PlotAdditionalComparisons.plot_instrument_vocal
    [("librosa", Some example_report_loaded); ("crepe", None); ("basic_pitch", None)]
  = Raise (KeyError "class_tag").
Proof.
  apply (plot_instrument_vocal_needs_class_tag
           [("librosa", Some example_report_loaded); ("crepe", None); ("basic_pitch", None)]).
  - intros model [<- | [<- | [<- | []]]]; vm_compute; discriminate.
  - exists "librosa", example_report_loaded. split; [left; reflexivity | reflexivity].
  - intros model df [<- | [<- | [<- | []]]] H; vm_compute in H;
      try discriminate H; injection H as <-; reflexivity.
Defined.

Lemma has_column_assign_other (df : DataFrame) (c k : string) (f : row -> cell) :
  c <> k -> has_column (assign df c f) k = has_column df k.
Proof.
  intros Hne. unfold has_column, assign. cbn [columns]. fold (has_column df c).
  destruct (has_column df c); [reflexivity|].
  unfold mem. rewrite existsb_app. cbn [existsb].
  apply String.eqb_neq in Hne. rewrite String.eqb_sym in Hne. rewrite Hne.
  rewrite !orb_false_r. reflexivity.
Qed.

Lemma has_column_concat_one (df : DataFrame) (k : string) :
  has_column (concat [df]) k = has_column df k.
Proof.
  unfold has_column, concat. cbn [columns fold_left app].
  rewrite (forallb_filter_id (fun c => negb (mem c []))); [reflexivity|].
  apply forallb_forall. reflexivity.
Qed.

Lemma load_block_without_manifest (results_dir : string) (store : csv_store)
    (file condition name : string) (extra : list (string * string)) (tags : list string) :
  PlotAdditionalComparisons.load_block results_dir store [] file condition extra
    (Some (name, tags)) = Ok [].
Proof.
  unfold PlotAdditionalComparisons.load_block. cbn [dict_get find].
  destruct (store (joinpath results_dir file)); reflexivity.
Qed.

(** With no manifest loaded, what [load_model] returns is the clean
    report alone, when it is there. *)
Lemma load_model_without_manifests (results_dir : string) (store : csv_store)
    (model : string) :
  PlotAdditionalComparisons.load_model results_dir store [] model
  = match store (joinpath results_dir (model ++ "_clean.csv")) with
    | Some df0 =>
        df1 <- where_ne df0 "filename" "AVERAGE" ;;
        df2 <- add_track_id df1 ;;
        Ok (Some (concat [assign df2 "condition" (fun _ => Str "clean")]))
    | None => Ok None
    end.
Proof.
  unfold PlotAdditionalComparisons.load_model.
  rewrite load_block_without_manifest. cbn [mapM]. rewrite !load_block_without_manifest.
  unfold PlotAdditionalComparisons.load_block.
  destruct (store (joinpath results_dir (model ++ "_clean.csv"))) as [df0|]; [|reflexivity].
  destruct (where_ne df0 "filename" "AVERAGE") as [df1|e]; [|reflexivity].
  cbn [bind]. destruct (add_track_id df1) as [df2|e]; reflexivity.
Qed.

(** With no manifest at all, and clean reports that have a [filename]
    column of texts and no [class_tag] column of their own,
    [load_results_with_metadata] returns, and [plot_instrument_vocal]
    then fails on its result with [KeyError: 'class_tag'], as soon as one
    clean report is there. *)
Theorem no_manifest_fails_instrument_vocal (results_dir : string) (store : csv_store) :
  (exists (model : string) (df : DataFrame),
     In model PlotAdditionalComparisons.models /\
     store (joinpath results_dir (model ++ "_clean.csv")) = Some df) ->
  (forall (model : string) (df : DataFrame),
     In model PlotAdditionalComparisons.models ->
     store (joinpath results_dir (model ++ "_clean.csv")) = Some df ->
     has_column df "filename" = true /\ has_column df "class_tag" = false /\
     Forall (fun r => exists name : string, get r "filename" = Str name) (rows df)) ->
  exists results : dict (option DataFrame),
    PlotAdditionalComparisons.load_results_with_metadata results_dir store [] = Ok results /\
    PlotAdditionalComparisons.plot_instrument_vocal results = Raise (KeyError "class_tag").
Proof.
  intros (model & df & Hmodel & Hdf) Hreports.
  (* what is loaded for each model *)
  assert (Hload : forall m, In m PlotAdditionalComparisons.models ->
            exists table : option DataFrame,
              PlotAdditionalComparisons.load_model results_dir store [] m = Ok table /\
              (forall d, table = Some d -> has_column d "class_tag" = false) /\
              (store (joinpath results_dir (m ++ "_clean.csv")) <> None -> table <> None)).
  { intros m Hm. rewrite load_model_without_manifests.
    destruct (store (joinpath results_dir (m ++ "_clean.csv"))) as [df0|] eqn:E.
    - destruct (Hreports m df0 Hm E) as (Hfile & Hclass & _).
      unfold where_ne. rewrite Hfile. cbn [bind].
      unfold add_track_id. cbn [columns]. fold (has_column df0 "filename").
      unfold has_column at 1. cbn [columns]. fold (has_column df0 "filename").
      rewrite Hfile. cbn [bind].
      eexists. split; [reflexivity|]. split; [|discriminate].
      intros d Hd. injection Hd as <-.
      rewrite has_column_concat_one, !has_column_assign_other by discriminate.
      exact Hclass.
    - exists None. split; [reflexivity|]. split; [discriminate | congruence]. }
  (* the whole result *)
  assert (Hall : exists results,
            PlotAdditionalComparisons.load_results_with_metadata results_dir store []
            = Ok results /\
            forall m, In m PlotAdditionalComparisons.models ->
              exists table, PlotAdditionalComparisons.load_model results_dir store [] m
                            = Ok table /\ dict_get results m = Some table).
  { unfold PlotAdditionalComparisons.load_results_with_metadata,
           PlotAdditionalComparisons.models in *.
    destruct (Hload "librosa") as (t1 & H1 & _); [cbn; auto|].
    destruct (Hload "crepe") as (t2 & H2 & _); [cbn; auto|].
    destruct (Hload "basic_pitch") as (t3 & H3 & _); [cbn; auto|].
    cbn [mapM]. rewrite H1, H2, H3. cbn [bind].
    eexists. split; [reflexivity|].
    intros m [<- | [<- | [<- | []]]]; eexists; (split; [eassumption | reflexivity]). }
  destruct Hall as (results & Hresults & Hget).
  exists results. split; [exact Hresults|].
  apply instrument_vocal_without_class_tag.
  - destruct (Hget model Hmodel) as (table & Htable & Hdict).
    destruct (Hload model Hmodel) as (table' & Htable' & _ & Hthere).
    rewrite Htable in Htable'. injection Htable' as <-.
    destruct table as [d|]; [|exfalso; apply Hthere; [congruence | reflexivity]].
    exists model, d. auto.
  - intros m d Hm Hd.
    destruct (Hget m Hm) as (table & Htable & Hdict).
    destruct (Hload m Hm) as (table' & Htable' & Hclass & _).
    rewrite Htable in Htable'. injection Htable' as <-.
    rewrite Hd in Hdict. injection Hdict as <-. apply Hclass. reflexivity.
Qed.

(** The example store, which holds the clean report of librosa and no
    manifest. *)
Lemma no_manifest_fails_instrument_vocal_witness :
  exists results : dict (option DataFrame),
    PlotAdditionalComparisons.load_results_with_metadata "results/metrics" example_store []
    = Ok results /\
    PlotAdditionalComparisons.plot_instrument_vocal results = Raise (KeyError "class_tag").
Proof.
  apply (no_manifest_fails_instrument_vocal "results/metrics" example_store).
  - exists "librosa", example_report. split; [left; reflexivity | reflexivity].
  - intros model df [<- | [<- | [<- | []]]] H; vm_compute in H;
      try discriminate H; injection H as <-.
    split; [reflexivity|]. split; [reflexivity|].
    repeat constructor; eexists; reflexivity.
Defined.

End WithoutClassTags.

(** ** load_results_with_metadata: a model with nothing to load *)

Section NothingToLoad.

Import Pandas.

(** A block of [load_results_with_metadata] is skipped exactly when its
    report is missing or the manifest it names is not loaded; a block
    that is read gives one table. *)
Lemma load_block_skipped (results_dir : string) (store : csv_store)
    (manifests : dict DataFrame) (file condition : string) (extra : list (string * string))
    (manifest : option (string * list string)) (blocks : list DataFrame) :
  PlotAdditionalComparisons.load_block results_dir store manifests file condition extra manifest
  = Ok blocks ->
  blocks = [] <->
  store (joinpath results_dir file) = None \/
  exists (name : string) (tags : list string),
    manifest = Some (name, tags) /\ dict_get manifests name = None.
Proof.
  unfold PlotAdditionalComparisons.load_block.
  destruct (store (joinpath results_dir file)) as [df|].
  - destruct manifest as [[name tags]|].
    + destruct (dict_get manifests name) as [m|] eqn:Em.
      * intros H.
        apply bind_ok in H. destruct H as (df1 & _ & H).
        apply bind_ok in H. destruct H as (df2 & _ & H).
        apply bind_ok in H. destruct H as (right_table & _ & H).
        apply bind_ok in H. destruct H as (df3 & _ & H).
        injection H as <-.
        split; [discriminate|].
        intros [H | (name' & tags' & E & Hnone)]; [discriminate H|].
        injection E as <- <-. congruence.
      * intros H. injection H as <-. split; [|reflexivity].
        intros _. right. exists name, tags. split; [reflexivity | exact Em].
    + intros H.
      apply bind_ok in H. destruct H as (df1 & _ & H).
      apply bind_ok in H. destruct H as (df2 & _ & H).
      injection H as <-.
      split; [discriminate|].
      intros [H | (name' & tags' & E & _)]; discriminate.
  - intros H. injection H as <-. split; [auto | reflexivity].
Qed.

Lemma concat_two_nil {A : Type} (a b : list A) :
  List.concat [a; b] = [] <-> a = [] /\ b = [].
Proof.
  cbn [List.concat]. rewrite app_nil_r. split.
  - intros H. apply app_eq_nil in H. exact H.
  - intros [-> ->]. reflexivity.
Qed.

Lemma load_model_none (results_dir : string) (store : csv_store)
    (manifests : dict DataFrame) (model : string) (table : option DataFrame) :
  PlotAdditionalComparisons.load_model results_dir store manifests model = Ok table ->
  table = None <-> nothing_to_load results_dir store manifests model.
Proof.
  unfold PlotAdditionalComparisons.load_model. intros H.
  apply bind_ok in H. destruct H as (clean & Hclean & H).
  apply bind_ok in H. destruct H as (dist & Hdist & H).
  apply bind_ok in H. destruct H as (noise & Hnoise & H).
  apply bind_ok in H. destruct H as (pitch & Hpitch & H).
  cbn [mapM] in Hnoise, Hpitch.
  apply bind_ok in Hnoise. destruct Hnoise as (n5 & Hn5 & Hnoise).
  apply bind_ok in Hnoise. destruct Hnoise as (noise' & Hnoise' & Hnoise).
  apply bind_ok in Hnoise'. destruct Hnoise' as (n15 & Hn15 & Hnoise').
  injection Hnoise' as <-. injection Hnoise as <-.
  apply bind_ok in Hpitch. destruct Hpitch as (p25 & Hp25 & Hpitch).
  apply bind_ok in Hpitch. destruct Hpitch as (pitch' & Hpitch' & Hpitch).
  apply bind_ok in Hpitch'. destruct Hpitch' as (p50 & Hp50 & Hpitch').
  injection Hpitch' as <-. injection Hpitch as <-.
  apply load_block_skipped in Hclean, Hdist, Hn5, Hn15, Hp25, Hp50.
  assert (Hnone : table = None <->
            clean = [] /\ dist = [] /\ (n5 = [] /\ n15 = []) /\ (p25 = [] /\ p50 = [])).
  { rewrite <- (concat_two_nil n5 n15), <- (concat_two_nil p25 p50).
    destruct (clean ++ dist ++ List.concat [n5; n15] ++ List.concat [p25; p50])%list
      as [|df rest] eqn:E.
    - injection H as <-.
      apply app_eq_nil in E. destruct E as [-> E].
      apply app_eq_nil in E. destruct E as [-> E].
      apply app_eq_nil in E. destruct E as [-> ->]. tauto.
    - injection H as <-. split; [discriminate|].
      intros (-> & -> & E1 & E2). rewrite E1, E2 in E. discriminate E. }
  rewrite Hnone, Hclean, Hdist, Hn5, Hn15, Hp25, Hp50.
  unfold nothing_to_load. clear.
  split.
  - intros (Hc & Hd & (H5 & H15) & (H25 & H50)).
    split; [|split; [|split]].
    + destruct Hc as [Hc | (name & tags & E & _)]; [exact Hc | discriminate E].
    + destruct Hd as [Hd | (name & tags & E & Hd)]; [left; exact Hd|].
      injection E as <- <-. right. exact Hd.
    + intros snr [<- | [<- | []]].
      * destruct H5 as [H5 | (name & tags & E & H5)]; [left; exact H5|].
        injection E as <- <-. right. exact H5.
      * destruct H15 as [H15 | (name & tags & E & H15)]; [left; exact H15|].
        injection E as <- <-. right. exact H15.
    + intros cents [<- | [<- | []]].
      * destruct H25 as [H25 | (name & tags & E & H25)]; [left; exact H25|].
        injection E as <- <-. right. exact H25.
      * destruct H50 as [H50 | (name & tags & E & H50)]; [left; exact H50|].
        injection E as <- <-. right. exact H50.
  - intros (Hc & Hd & Hn & Hp).
    assert (Hblock : forall file name tags,
              store (joinpath results_dir file) = None \/ dict_get manifests name = None ->
              store (joinpath results_dir file) = None \/
              exists (name' : string) (tags' : list string),
                Some (name, tags) = Some (name', tags') /\ dict_get manifests name' = None).
    { intros file name tags [H | H]; [left; exact H | right; eauto]. }
    split; [left; exact Hc|]. split; [apply Hblock; exact Hd|].
    split; split; apply Hblock; (apply Hn || apply Hp); cbn; auto.
Qed.

(** [load_results_with_metadata] stores [None] under a model exactly when
    there was nothing to load for it: the clean report is missing, and
    each of the five other reports is missing or has its manifest
    missing. *)
Theorem model_is_none_iff_nothing_to_load (results_dir : string) (store : csv_store)
    (manifests : dict DataFrame) (results : dict (option DataFrame)) (model : string) :
  PlotAdditionalComparisons.load_results_with_metadata results_dir store manifests
  = Ok results ->
  In model PlotAdditionalComparisons.models ->
  dict_get results model = Some None <-> nothing_to_load results_dir store manifests model.
Proof.
  unfold PlotAdditionalComparisons.load_results_with_metadata. intros Hload Hmodel.
  destruct (mapM_dict _ _ _ Hload) as [_ Hget].
  destruct (Hget model Hmodel) as (table & Htable & ->).
  rewrite <- (load_model_none _ _ _ _ _ Htable).
  split; [intros E; injection E as ->; reflexivity | intros ->; reflexivity].
Qed.

(** In the example only librosa has a report: crepe is stored as [None],
    librosa is not. *)
Lemma model_is_none_iff_nothing_to_load_witness :
  nothing_to_load "results/metrics" example_store_with_manifest
    [("tuning", example_tuning_manifest)] "crepe" /\
  ~ nothing_to_load "results/metrics" example_store_with_manifest
      [("tuning", example_tuning_manifest)] "librosa".
Proof.
  pose proof (model_is_none_iff_nothing_to_load "results/metrics"
                example_store_with_manifest [("tuning", example_tuning_manifest)]) as H.
  destruct (PlotAdditionalComparisons.load_results_with_metadata "results/metrics"
              example_store_with_manifest [("tuning", example_tuning_manifest)])
    as [results|e] eqn:E; [|vm_compute in E; discriminate E].
  vm_compute in E. injection E as <-.
  split.
  - apply (H _ "crepe" eq_refl); [right; left; reflexivity | reflexivity].
  - intros Hn. apply (H _ "librosa" eq_refl) in Hn; [|left; reflexivity].
    vm_compute in Hn. discriminate Hn.
Defined.

End NothingToLoad.
